(** * enhanced-abort-controller: a shallow embedding

    The TypeScript classes [AbortError], [AbortRegistration],
    [EnhancedAbortSignal] and [EnhancedAbortController] are embedded as
    functions over an explicit JavaScript heap.  Objects live in
    append-only arenas (a reference is the allocation index), closures
    are first-order data ([callback]), and the host primitives the
    library is written against (the native [AbortController] and its
    event target, [setTimeout]/[clearTimeout], promises and the
    microtask queue) are modelled in [Platform] after the DOM and HTML
    standards, and after the Node.js runtime for the delay of a
    timer. *)

From Stdlib Require Import String.
From stdpp Require Import base option list.

(** ** src/AbortError.ts *)

Module AbortError.

Record t := mk { message : string; name : string }.

(** [constructor(message = 'The operation was aborted.')]: the default
    applies when the argument is absent. *)
Definition new (message : option string) : t :=
  {| message := match message with
                | Some m => m
                | None => "The operation was aborted."%string
                end;
     name := "AbortError"%string |}.

End AbortError.

(** ** src/AbortRegistration.ts

    The class is exported and can wrap any removal closure, so the
    embedding is generic in the closure type [A] and in the world [W]
    the closure acts on.  A closure may hold the registration it
    belongs to and call back into it, and it may throw. *)

Module AbortRegistration.

Record t (A : Type) := mk {
  disposed : bool;
  unregisterCallback : option A
}.
Arguments mk {A} _ _.
Arguments disposed {A} _.
Arguments unregisterCallback {A} _.

Definition new {A} (unregisterCallback : A) : t A :=
  {| disposed := false; unregisterCallback := Some unregisterCallback |}.

(** How a call ends: it returns or it throws, either way in the state
    it has reached; [Exhausted] is the model out of fuel, on calls that
    nest too deep. *)
Inductive completion (X : Type) :=
| Returns (x : X)
| Throws (x : X)
| Exhausted.
Arguments Returns {X} _.
Arguments Throws {X} _.
Arguments Exhausted {X}.

Section Methods.
Context {A W : Type}.
(** How a removal closure acts when it is called, on the registration
    and the world; its first argument is the registration's own
    [unregister()], for the closure to call. *)
Variable run :
  (t A * W -> completion (t A * W)) -> A -> t A * W -> completion (t A * W).

(** [unregister()]: the closure is called first; the reference is
    cleared and [disposed] set once it has returned. *)
Fixpoint unregister (fuel : nat) (x : t A * W) : completion (t A * W) :=
  match fuel with
  | 0 => Exhausted
  | S fuel' =>
      match disposed x.1, unregisterCallback x.1 with
      | false, Some cb =>
          match run (unregister fuel') cb x with
          | Returns x' =>
              Returns ({| disposed := true; unregisterCallback := None |}, x'.2)
          | Throws x' => Throws x'
          | Exhausted => Exhausted
          end
      | _, _ => Returns x
      end
  end.

Definition dispose (fuel : nat) (x : t A * W) : completion (t A * W) :=
  unregister fuel x.
End Methods.

Definition isDisposed {A} (r : t A) : bool := disposed r.

(** A closure that only acts on the world: it returns, and leaves the
    registration alone. *)
Definition plain {A W} (f : A -> W -> W)
  : (t A * W -> completion (t A * W)) -> A -> t A * W -> completion (t A * W) :=
  fun _ cb x => Returns (x.1, f cb x.2).

(** The two public mutators, as data, to speak of arbitrary
    interleavings of calls. *)
Inductive call := Unregister | Dispose.

Section Calls.
Context {A W : Type}.
Variable run :
  (t A * W -> completion (t A * W)) -> A -> t A * W -> completion (t A * W).

Definition perform (fuel : nat) (c : call) (x : t A * W) : completion (t A * W) :=
  match c with
  | Unregister => unregister run fuel x
  | Dispose => dispose run fuel x
  end.

(** The calls of [cs] made one after the other by a caller that
    catches what a call throws and goes on. *)
Fixpoint perform_all (fuel : nat) (cs : list call) (x : t A * W)
  : completion (t A * W) :=
  match cs with
  | [] => Returns x
  | c :: cs' =>
      match perform fuel c x with
      | Returns x' | Throws x' => perform_all fuel cs' x'
      | Exhausted => Exhausted
      end
  end.
End Calls.

End AbortRegistration.

(** ** src/TimeSpan.ts (the part the controller reads) *)

Module TimeSpan.
Record t := mk { _milliseconds : nat }.
Definition fromMilliseconds (ms : nat) : t := mk ms.
Definition milliseconds (ts : t) : nat := _milliseconds ts.
End TimeSpan.

(** ** Host values, closures and objects *)

(** JavaScript values that can serve as an abort reason. *)
Inductive value :=
| VUndefined
| VString (s : string)
| VNumber (n : nat)
| VDOMException (name : string).

(** The closures the library creates or receives, defunctionalised.
    A caller-supplied callback is observable through the fact that it
    ran: [CbUser tag] appends [tag] to the heap's trace.  Whether it
    then returns or throws makes no difference to a listener (see
    [Platform.inner_invoke]); it does in [register] on a signal that is
    aborted, where the library calls it itself (see
    [EnhancedAbortSignal.register_throwing]). *)
Inductive callback :=
| CbUser (tag : nat)
| CbResolve (promise : nat)            (* [() => resolve()] *)
| CbNativeAbort (controller : nat)     (* [() => controller.abort()], native controller *)
| CbEnhancedAbort (controller : nat).  (* [() => controller.abort()] / [() => this.abort()] *)

(** The closures handed to [new AbortRegistration(...)] by [register]. *)
Inductive unregister_callback :=
| UnregNothing                                   (* [() => {}] *)
| UnregRemoveListener (signal listener : nat).   (* [() => abortSignal.removeEventListener('abort', listener)] *)

(** Jobs on the microtask queue. *)
Inductive job :=
| JobUnregister (registration : nat).  (* [() => registration.unregister()] *)

Module Obj.

(** An entry of an event target's listener list.  A removed listener
    stays in the arena with its [removed] flag set, as in the DOM
    standard, so that a listener's index identifies it for good. *)
Record Listener := mkListener {
  handler : callback;
  once : bool;
  removed : bool
}.

(** A native [AbortController] together with its [AbortSignal].  The
    signal is aborted exactly when its reason is not [undefined]. *)
Record AbortSignal := mkAbortSignal {
  reason : value;
  listeners : list Listener
}.

Record Timer := mkTimer {
  due : nat;
  timer_handler : callback;
  pending : bool
}.

(** The library never rejects a promise (the executor passed to
    [new Promise] in [whenAborted] takes [resolve] only and cannot
    throw), so two states are all a promise can be in. *)
Inductive PromiseState := Pending | Fulfilled.

(** [EnhancedAbortSignal]: both fields are fixed at construction. *)
Record EnhancedAbortSignal := mkSignal {
  abortSignal : nat;
  _canBeAborted : bool
}.

Record EnhancedAbortController := mkController {
  controller : nat;
  _signal : EnhancedAbortSignal;
  timeoutId : option nat;
  disposed : bool
}.

Record heap := mkHeap {
  signals : list AbortSignal;
  controllers : list EnhancedAbortController;
  registrations : list (AbortRegistration.t unregister_callback);
  promises : list PromiseState;
  timers : list Timer;
  microtasks : list job;
  now : nat;
  trace : list nat
}.

Definition empty : heap :=
  {| signals := []; controllers := []; registrations := []; promises := [];
     timers := []; microtasks := []; now := 0; trace := [] |}.

Definition with_signals (f : list AbortSignal -> list AbortSignal) (h : heap) :=
  {| signals := f (signals h); controllers := controllers h;
     registrations := registrations h; promises := promises h;
     timers := timers h; microtasks := microtasks h; now := now h;
     trace := trace h |}.

Definition with_controllers
    (f : list EnhancedAbortController -> list EnhancedAbortController) (h : heap) :=
  {| signals := signals h; controllers := f (controllers h);
     registrations := registrations h; promises := promises h;
     timers := timers h; microtasks := microtasks h; now := now h;
     trace := trace h |}.

Definition with_registrations
    (f : list (AbortRegistration.t unregister_callback) ->
         list (AbortRegistration.t unregister_callback)) (h : heap) :=
  {| signals := signals h; controllers := controllers h;
     registrations := f (registrations h); promises := promises h;
     timers := timers h; microtasks := microtasks h; now := now h;
     trace := trace h |}.

Definition with_promises (f : list PromiseState -> list PromiseState) (h : heap) :=
  {| signals := signals h; controllers := controllers h;
     registrations := registrations h; promises := f (promises h);
     timers := timers h; microtasks := microtasks h; now := now h;
     trace := trace h |}.

Definition with_timers (f : list Timer -> list Timer) (h : heap) :=
  {| signals := signals h; controllers := controllers h;
     registrations := registrations h; promises := promises h;
     timers := f (timers h); microtasks := microtasks h; now := now h;
     trace := trace h |}.

Definition with_microtasks (f : list job -> list job) (h : heap) :=
  {| signals := signals h; controllers := controllers h;
     registrations := registrations h; promises := promises h;
     timers := timers h; microtasks := f (microtasks h); now := now h;
     trace := trace h |}.

Definition with_now (f : nat -> nat) (h : heap) :=
  {| signals := signals h; controllers := controllers h;
     registrations := registrations h; promises := promises h;
     timers := timers h; microtasks := microtasks h; now := f (now h);
     trace := trace h |}.

Definition with_trace (f : list nat -> list nat) (h : heap) :=
  {| signals := signals h; controllers := controllers h;
     registrations := registrations h; promises := promises h;
     timers := timers h; microtasks := microtasks h; now := now h;
     trace := f (trace h) |}.

(** What a reference that was never allocated reads as.  Every
    reference the library holds comes from an allocation, so these
    defaults are never observed on a heap the library built. *)
#[export] Instance Listener_inhabited : Inhabited Listener :=
  populate {| handler := CbUser 0; once := false; removed := true |}.
#[export] Instance AbortSignal_inhabited : Inhabited AbortSignal :=
  populate {| reason := VUndefined; listeners := [] |}.
#[export] Instance Timer_inhabited : Inhabited Timer :=
  populate {| due := 0; timer_handler := CbUser 0; pending := false |}.
#[export] Instance PromiseState_inhabited : Inhabited PromiseState :=
  populate Pending.
#[export] Instance EnhancedAbortController_inhabited :
  Inhabited EnhancedAbortController :=
  populate {| controller := 0;
              _signal := {| abortSignal := 0; _canBeAborted := true |};
              timeoutId := None; disposed := true |}.
#[export] Instance AbortRegistration_inhabited :
  Inhabited (AbortRegistration.t unregister_callback) :=
  populate (AbortRegistration.mk true None).

End Obj.
Import Obj.


(** ** The host platform

    What the library calls but does not implement: the native
    [AbortController]/[AbortSignal] pair and its event dispatch (DOM
    standard, "signal abort" and "inner invoke"), timers, promises and
    the microtask queue (HTML standard). *)

Module Platform.

Definition signal_at (h : heap) (n : nat) : AbortSignal := signals h !!! n.

(** [signal.aborted] *)
Definition aborted (h : heap) (n : nat) : bool :=
  match reason (signal_at h n) with
  | VUndefined => false
  | _ => true
  end.

(** [new AbortController()] *)
Definition new_AbortController (h : heap) : nat * heap :=
  (length (signals h),
   with_signals (fun ss => ss ++ [{| reason := VUndefined; listeners := [] |}]) h).

Definition alter_signal (f : AbortSignal -> AbortSignal) (n : nat) (h : heap) : heap :=
  with_signals (alter f n) h.

Definition alter_listener (f : Listener -> Listener) (n i : nat) (h : heap) : heap :=
  alter_signal
    (fun s => {| reason := reason s; listeners := alter f i (listeners s) |}) n h.

(** [signal.addEventListener('abort', cb, { once })] with a closure that
    was created for this call: it is never already in the list, so it
    is appended.  The result is the listener's identity. *)
Definition addEventListener (n : nat) (cb : callback) (once : bool) (h : heap)
  : nat * heap :=
  (length (listeners (signal_at h n)),
   alter_signal
     (fun s => {| reason := reason s;
                  listeners := listeners s ++
                    [{| handler := cb; once := once; removed := false |}] |})
     n h).

Definition mark_removed (l : Listener) : Listener :=
  {| handler := handler l; once := once l; removed := true |}.

(** [signal.removeEventListener('abort', listener)] *)
Definition removeEventListener (n i : nat) (h : heap) : heap :=
  alter_listener mark_removed n i h.

(** The longest delay a timer takes, [2^31 - 1] milliseconds. *)
Definition TIMEOUT_MAX : N := 2147483647%N.

(** The delay a timer is set for: the runtime replaces a delay that is
    not between 1 and [TIMEOUT_MAX] by 1 millisecond, so a delay of 0
    waits for the next millisecond and a delay of [2^31] or more does
    not wait longer than that. *)
Definition timer_delay (ms : nat) : nat :=
  if (1 <=? ms) && (N.of_nat ms <=? TIMEOUT_MAX)%N then ms else 1.
Arguments timer_delay : simpl never.

(** [setTimeout(cb, ms)]; the result is the timer's identity. *)
Definition setTimeout (cb : callback) (ms : nat) (h : heap) : nat * heap :=
  (length (timers h),
   with_timers
     (fun ts => ts ++ [{| due := now h + timer_delay ms; timer_handler := cb;
                          pending := true |}])
     h).

Definition mark_cleared (t : Timer) : Timer :=
  {| due := due t; timer_handler := timer_handler t; pending := false |}.

(** [clearTimeout(id)] *)
Definition clearTimeout (id : nat) (h : heap) : heap :=
  with_timers (alter mark_cleared id) h.

(** [new Promise(...)] before its executor runs, and [Promise.resolve()] *)
Definition new_Promise (st : PromiseState) (h : heap) : nat * heap :=
  (length (promises h), with_promises (fun ps => ps ++ [st]) h).

(** The [resolve] function of a promise: settles it if it is pending. *)
Definition resolve (p : nat) (h : heap) : heap :=
  with_promises (alter (fun _ => Fulfilled) p) h.

Definition promise_state (h : heap) (p : nat) : PromiseState := promises h !!! p.

(** [Promise.resolve().then(job)]: the promise is already fulfilled, so
    the reaction is queued as a microtask at once. *)
Definition queueMicrotask (j : job) (h : heap) : heap :=
  with_microtasks (fun q => q ++ [j]) h.

(** Running a caller-supplied callback. *)
Definition log (tag : nat) (h : heap) : heap :=
  with_trace (fun tr => tr ++ [tag]) h.

Section Dispatch.
(** How a closure is called; the knot is tied in [invoke] below. *)
Variable call : callback -> heap -> option heap.

(** DOM "inner invoke" over the cloned listener list [ids] of signal
    [n]: a listener removed in the meantime is skipped, a [once]
    listener is removed before its callback runs.  What a callback
    throws is reported to the host and does not leave the dispatch,
    which goes on with the next listener. *)
Fixpoint inner_invoke (n : nat) (ids : list nat) (h : heap) : option heap :=
  match ids with
  | [] => Some h
  | i :: rest =>
      let l := listeners (signal_at h n) !!! i in
      if removed l then inner_invoke n rest h
      else
        let h1 := if once l then removeEventListener n i h else h in
        match call (handler l) h1 with
        | Some h2 => inner_invoke n rest h2
        | None => None
        end
  end.

(** Firing the [abort] event at signal [n]. *)
Definition dispatchEvent (n : nat) (h : heap) : option heap :=
  inner_invoke n (seq 0 (length (listeners (signal_at h n)))) h.

(** [controller.abort(reason)] on a native controller: nothing if the
    signal is already aborted; otherwise the reason is stored (a new
    "AbortError" DOMException when none is given) and the event fires. *)
Definition abort (n : nat) (r : value) (h : heap) : option heap :=
  if aborted h n then Some h
  else
    let r' := match r with
              | VUndefined => VDOMException "AbortError"%string
              | _ => r
              end in
    dispatchEvent n
      (alter_signal (fun s => {| reason := r'; listeners := listeners s |}) n h).
End Dispatch.

End Platform.

(** ** Registrations as heap objects *)

Module Registration.

Definition run_unregister_callback (cb : unregister_callback) (h : heap) : heap :=
  match cb with
  | UnregNothing => h
  | UnregRemoveListener n i => Platform.removeEventListener n i h
  end.

(** [new AbortRegistration(cb)] *)
Definition new (cb : unregister_callback) (h : heap) : nat * heap :=
  (length (registrations h),
   with_registrations (fun rs => rs ++ [AbortRegistration.new cb]) h).

Definition get (h : heap) (r : nat) : AbortRegistration.t unregister_callback :=
  registrations h !!! r.

(** The result of a call on the registration [r], written back to the
    heap.  The removal closures of the library ([unregister_callback])
    are plain, so the call returns, with fuel for one call. *)
Definition store (r : nat) (h : heap)
    (k : AbortRegistration.completion (AbortRegistration.t unregister_callback * heap))
  : heap :=
  match k with
  | AbortRegistration.Returns (o, h') => with_registrations (fun rs => <[r := o]> rs) h'
  | _ => h
  end.

(** [registration.unregister()] *)
Definition unregister (r : nat) (h : heap) : heap :=
  store r h
    (AbortRegistration.unregister (AbortRegistration.plain run_unregister_callback)
       1 (get h r, h)).

(** [registration.dispose()] *)
Definition dispose (r : nat) (h : heap) : heap :=
  store r h
    (AbortRegistration.dispose (AbortRegistration.plain run_unregister_callback)
       1 (get h r, h)).

(** [registration.isDisposed] *)
Definition isDisposed (h : heap) (r : nat) : bool :=
  AbortRegistration.isDisposed (get h r).

End Registration.

(** ** src/EnhancedAbortSignal.ts *)

Module EnhancedAbortSignal.

Definition new (abortSignal : nat) : EnhancedAbortSignal :=
  {| abortSignal := abortSignal; _canBeAborted := true |}.

Definition aborted (s : EnhancedAbortSignal) (h : heap) : bool :=
  Platform.aborted h (abortSignal s).

Definition reason (s : EnhancedAbortSignal) (h : heap) : value :=
  Obj.reason (Platform.signal_at h (abortSignal s)).

Definition isAborted (s : EnhancedAbortSignal) (h : heap) : bool :=
  Platform.aborted h (abortSignal s).

(** [this._canBeAborted !== false] *)
Definition canBeAborted (s : EnhancedAbortSignal) : bool :=
  negb (Bool.eqb (_canBeAborted s) false).

(** [throwIfAborted(customMessage?)]: [inl] is the thrown error. *)
Definition throwIfAborted (s : EnhancedAbortSignal) (customMessage : option string)
    (h : heap) : AbortError.t + unit :=
  if isAborted s h then inl (AbortError.new customMessage) else inr tt.

Section Calls.
Variable call : callback -> heap -> option heap.

(** [register(callback)]; the result is the new registration. *)
Definition register (s : EnhancedAbortSignal) (cb : callback) (h : heap)
  : option (nat * heap) :=
  if isAborted s h then
    h1 ← call cb h;
    Some (Registration.new UnregNothing h1)
  else
    let '(listener, h1) := Platform.addEventListener (abortSignal s) cb true h in
    Some (Registration.new (UnregRemoveListener (abortSignal s) listener) h1).

(** [register(callback)] with a caller's callback that throws when it
    is called, after logging [tag].  On a signal that is aborted
    [callback()] is called at once, and what it throws leaves
    [register]: [inl] is the heap at the throw, and no registration is
    made.  On a signal that is not aborted the listener is attached as
    for any callback; when the event is dispatched the platform calls
    it, reports what it throws to the host and goes on with the next
    listener, so that the listener acts on the heap as [CbUser tag]
    does. *)
Definition register_throwing (s : EnhancedAbortSignal) (tag : nat) (h : heap)
  : option (heap + nat * heap) :=
  if isAborted s h then
    h1 ← call (CbUser tag) h;
    Some (inl h1)
  else
    let '(listener, h1) :=
      Platform.addEventListener (abortSignal s) (CbUser tag) true h in
    Some (inr (Registration.new (UnregRemoveListener (abortSignal s) listener) h1)).

(** [for (const signal of signals) signal.register(cb)] *)
Fixpoint register_each (signals : list EnhancedAbortSignal) (cb : callback)
    (h : heap) : option heap :=
  match signals with
  | [] => Some h
  | s :: rest =>
      '(_, h1) ← register s cb h;
      register_each rest cb h1
  end.

(** [get whenAborted()]; the result is the promise. *)
Definition whenAborted (s : EnhancedAbortSignal) (h : heap) : option (nat * heap) :=
  if isAborted s h then Some (Platform.new_Promise Fulfilled h)
  else
    let '(p, h1) := Platform.new_Promise Pending h in
    '(registration, h2) ← register s (CbResolve p) h1;
    Some (p, Platform.queueMicrotask (JobUnregister registration) h2).

(** [static any(signals)] *)
Definition any (signals : list EnhancedAbortSignal) (h : heap)
  : option (EnhancedAbortSignal * heap) :=
  let '(controller, h1) := Platform.new_AbortController h in
  h2 ← register_each signals (CbNativeAbort controller) h1;
  Some (new controller, h2).

(** [static get aborted()] *)
Definition aborted_ (h : heap) : option (EnhancedAbortSignal * heap) :=
  let '(controller, h1) := Platform.new_AbortController h in
  h2 ← Platform.abort call controller VUndefined h1;
  Some (new controller, h2).
End Calls.

(** [static get none()] *)
Definition none (h : heap) : EnhancedAbortSignal * heap :=
  let '(controller, h1) := Platform.new_AbortController h in
  ({| abortSignal := controller; _canBeAborted := false |}, h1).

(** [static timeout(ms)] *)
Definition timeout (ms : nat) (h : heap) : EnhancedAbortSignal * heap :=
  let '(controller, h1) := Platform.new_AbortController h in
  let '(_, h2) := Platform.setTimeout (CbNativeAbort controller) ms h1 in
  (new controller, h2).

End EnhancedAbortSignal.

(** ** src/EnhancedAbortController.ts *)

Module EnhancedAbortController.

Definition get (h : heap) (c : nat) : EnhancedAbortController := controllers h !!! c.

Definition alter_controller
    (f : EnhancedAbortController -> EnhancedAbortController) (c : nat) (h : heap) :=
  with_controllers (alter f c) h.

(** [new EnhancedAbortController()] *)
Definition new (h : heap) : nat * heap :=
  let '(n, h1) := Platform.new_AbortController h in
  (length (controllers h1),
   with_controllers
     (fun cs => cs ++ [{| controller := n; _signal := EnhancedAbortSignal.new n;
                          timeoutId := None; disposed := false |}])
     h1).

Definition signal (c : nat) (h : heap) : EnhancedAbortSignal := _signal (get h c).
Definition token (c : nat) (h : heap) : EnhancedAbortSignal := _signal (get h c).

Definition isAborted (c : nat) (h : heap) : bool :=
  Platform.aborted h (controller (get h c)).

Definition isDisposed (c : nat) (h : heap) : bool := disposed (get h c).

Definition reason (c : nat) (h : heap) : value :=
  Obj.reason (Platform.signal_at h (controller (get h c))).

(** [private clearTimeout()] *)
Definition clearTimeout (c : nat) (h : heap) : heap :=
  match timeoutId (get h c) with
  | Some id =>
      alter_controller
        (fun o => {| controller := controller o; _signal := _signal o;
                     timeoutId := None; disposed := disposed o |})
        c (Platform.clearTimeout id h)
  | None => h
  end.

(** [abortAfter(ms)] *)
Definition abortAfter (c : nat) (ms : nat) (h : heap) : heap :=
  if disposed (get h c) then h
  else
    let h1 := clearTimeout c h in
    let '(id, h2) := Platform.setTimeout (CbEnhancedAbort c) ms h1 in
    alter_controller
      (fun o => {| controller := controller o; _signal := _signal o;
                   timeoutId := Some id; disposed := disposed o |})
      c h2.

(** [abortAfterTimeSpan(timeSpan)] *)
Definition abortAfterTimeSpan (c : nat) (timeSpan : TimeSpan.t) (h : heap) : heap :=
  abortAfter c (TimeSpan.milliseconds timeSpan) h.

(** [dispose()] *)
Definition dispose (c : nat) (h : heap) : heap :=
  if disposed (get h c) then h
  else
    clearTimeout c
      (alter_controller
         (fun o => {| controller := controller o; _signal := _signal o;
                      timeoutId := timeoutId o; disposed := true |})
         c h).

(** [tryReset()] *)
Definition tryReset (c : nat) (h : heap) : bool * heap :=
  if disposed (get h c) then (false, h)
  else
    let h1 := clearTimeout c h in
    let '(n, h2) := Platform.new_AbortController h1 in
    (true,
     alter_controller
       (fun o => {| controller := n; _signal := EnhancedAbortSignal.new n;
                    timeoutId := timeoutId o; disposed := disposed o |})
       c h2).

(** [static timeout(ms)] *)
Definition timeout (ms : nat) (h : heap) : nat * heap :=
  let '(c, h1) := new h in
  (c, abortAfter c ms h1).

Section Calls.
Variable call : callback -> heap -> option heap.

(** [abort(reason?)] *)
Definition abort (c : nat) (r : value) (h : heap) : option heap :=
  if disposed (get h c) then Some h
  else
    let h1 := clearTimeout c h in
    Platform.abort call (controller (get h1 c)) r h1.

(** [static linkSignals(...signals)] *)
Definition linkSignals (signals : list EnhancedAbortSignal) (h : heap)
  : option (nat * heap) :=
  let '(c, h1) := new h in
  h2 ← EnhancedAbortSignal.register_each call signals (CbEnhancedAbort c) h1;
  Some (c, h2).

(** [static createLinkedController(...signals)] *)
Definition createLinkedController (signals : list EnhancedAbortSignal) (h : heap)
  : option (nat * heap) :=
  linkSignals signals h.
End Calls.

End EnhancedAbortController.

(** ** Calling closures, and the event loop *)

(** Calling a closure.  A call nests as deep as abort events cascade
    through linked controllers; [fuel] bounds the nesting, and [None]
    means the bound was too small. *)
Fixpoint invoke (fuel : nat) (cb : callback) (h : heap) : option heap :=
  match fuel with
  | O => None
  | S fuel' =>
      match cb with
      | CbUser tag => Some (Platform.log tag h)
      | CbResolve p => Some (Platform.resolve p h)
      | CbNativeAbort n => Platform.abort (invoke fuel') n VUndefined h
      | CbEnhancedAbort c =>
          EnhancedAbortController.abort (invoke fuel') c VUndefined h
      end
  end.

Module EventLoop.

Definition run_job (j : job) (h : heap) : heap :=
  match j with
  | JobUnregister r => Registration.unregister r h
  end.

(** The microtask checkpoint: the queue is drained.  No job of this
    library queues another one. *)
Definition run_microtasks (h : heap) : heap :=
  with_microtasks (fun _ => []) (fold_left (fun h' j => run_job j h') (microtasks h) h).

Section Calls.
Variable call : callback -> heap -> option heap.

(** Runs, in creation order, the timers of [ids] that are pending and
    due, each followed by a microtask checkpoint.  A timer that fires
    stops being pending, which is the state change [clearTimeout]
    makes.  No closure of this library starts a timer, so the timers
    present at the start of a turn are all there are. *)
Fixpoint run_timers (ids : list nat) (h : heap) : option heap :=
  match ids with
  | [] => Some h
  | id :: rest =>
      let t := timers h !!! id in
      if pending t && (due t <=? now h) then
        match call (timer_handler t) (Platform.clearTimeout id h) with
        | Some h1 => run_timers rest (run_microtasks h1)
        | None => None
        end
      else run_timers rest h
  end.

(** One turn of the event loop at the current time: the script that was
    running has returned, its microtasks run, then the due timers. *)
Definition turn (h : heap) : option heap :=
  let h1 := run_microtasks h in
  run_timers (seq 0 (length (timers h1))) h1.

(** Lets [ms] milliseconds pass, one turn per millisecond. *)
Fixpoint advance (ms : nat) (h : heap) : option heap :=
  match ms with
  | O => turn h
  | S ms' =>
      h1 ← turn h;
      advance ms' (with_now S h1)
  end.
End Calls.

End EventLoop.

(** ** Caller scripts

    Sequences of calls a client makes, to state properties of "any
    number of callbacks" and "any sequence of calls". *)

Module Script.

(** The error surface: how a call can end. *)

(** What a call can throw: the library's [AbortError], or what a
    caller's callback (the one logging [tag]) has thrown. *)
Inductive thrown :=
| ThrownAbortError (e : AbortError.t)
| ThrownByCallback (tag : nat).

(** A call returns, or throws, in both cases with the heap it leaves. *)
Inductive outcome :=
| Returned (h : heap)
| Threw (x : thrown) (h : heap)
| OutOfFuel.

Definition returned (o : option heap) : outcome :=
  match o with
  | Some h => Returned h
  | None => OutOfFuel
  end.

(** One call on the public interface (results other than the heap are
    dropped). *)
Inductive op :=
| OpNew
| OpAbort (c : nat) (r : value)
| OpAbortAfter (c : nat) (ms : nat)
| OpAbortAfterTimeSpan (c : nat) (ts : TimeSpan.t)
| OpDispose (c : nat)
| OpTryReset (c : nat)
| OpLinkSignals (ss : list EnhancedAbortSignal)
| OpCreateLinkedController (ss : list EnhancedAbortSignal)
| OpControllerTimeout (ms : nat)
| OpRegister (s : EnhancedAbortSignal) (cb : callback)
| OpRegisterThrowing (s : EnhancedAbortSignal) (tag : nat)
| OpWhenAborted (s : EnhancedAbortSignal)
| OpThrowIfAborted (s : EnhancedAbortSignal) (customMessage : option string)
| OpNone
| OpAborted
| OpTimeout (ms : nat)
| OpAny (ss : list EnhancedAbortSignal)
| OpUnregister (r : nat)
| OpDisposeRegistration (r : nat)
| OpAwait (ms : nat).   (* give control to the event loop for [ms] ms *)

Definition exec (fuel : nat) (o : op) (h : heap) : outcome :=
  match o with
  | OpNew => Returned (snd (EnhancedAbortController.new h))
  | OpAbort c r => returned (EnhancedAbortController.abort (invoke fuel) c r h)
  | OpAbortAfter c ms => Returned (EnhancedAbortController.abortAfter c ms h)
  | OpAbortAfterTimeSpan c ts =>
      Returned (EnhancedAbortController.abortAfterTimeSpan c ts h)
  | OpDispose c => Returned (EnhancedAbortController.dispose c h)
  | OpTryReset c => Returned (snd (EnhancedAbortController.tryReset c h))
  | OpLinkSignals ss =>
      returned (snd <$> EnhancedAbortController.linkSignals (invoke fuel) ss h)
  | OpCreateLinkedController ss =>
      returned (snd <$> EnhancedAbortController.createLinkedController (invoke fuel) ss h)
  | OpControllerTimeout ms => Returned (snd (EnhancedAbortController.timeout ms h))
  | OpRegister s cb =>
      returned (snd <$> EnhancedAbortSignal.register (invoke fuel) s cb h)
  | OpRegisterThrowing s tag =>
      match EnhancedAbortSignal.register_throwing (invoke fuel) s tag h with
      | Some (inl h1) => Threw (ThrownByCallback tag) h1
      | Some (inr (_, h1)) => Returned h1
      | None => OutOfFuel
      end
  | OpWhenAborted s =>
      returned (snd <$> EnhancedAbortSignal.whenAborted (invoke fuel) s h)
  | OpThrowIfAborted s m =>
      match EnhancedAbortSignal.throwIfAborted s m h with
      | inl e => Threw (ThrownAbortError e) h
      | inr _ => Returned h
      end
  | OpNone => Returned (snd (EnhancedAbortSignal.none h))
  | OpAborted => returned (snd <$> EnhancedAbortSignal.aborted_ (invoke fuel) h)
  | OpTimeout ms => Returned (snd (EnhancedAbortSignal.timeout ms h))
  | OpAny ss => returned (snd <$> EnhancedAbortSignal.any (invoke fuel) ss h)
  | OpUnregister r => Returned (Registration.unregister r h)
  | OpDisposeRegistration r => Returned (Registration.dispose r h)
  | OpAwait ms => returned (EventLoop.advance (invoke fuel) ms h)
  end.

(** A script: calls in sequence, up to the first that does not return. *)
Fixpoint exec_all (fuel : nat) (ops : list op) (h : heap) : outcome :=
  match ops with
  | [] => Returned h
  | o :: rest =>
      match exec fuel o h with
      | Returned h1 => exec_all fuel rest h1
      | stopped => stopped
      end
  end.

(** [for (const cb of cbs) signal.register(cb)] *)
Fixpoint register_all (call : callback -> heap -> option heap)
    (s : EnhancedAbortSignal) (cbs : list callback) (h : heap) : option heap :=
  match cbs with
  | [] => Some h
  | cb :: rest =>
      '(_, h1) ← EnhancedAbortSignal.register call s cb h;
      register_all call s rest h1
  end.

(** [for (const [c, reason] of calls) c.abort(reason)] *)
Fixpoint abort_all (call : callback -> heap -> option heap)
    (calls : list (nat * value)) (h : heap) : option heap :=
  match calls with
  | [] => Some h
  | (c, r) :: rest =>
      h1 ← EnhancedAbortController.abort call c r h;
      abort_all call rest h1
  end.

(** What can still be attempted on one controller [c]: its mutators,
    and its deferred closure [() => this.abort()] being run. *)
Inductive attempt :=
| Abort (r : value)
| AbortAfter (ms : nat)
| AbortAfterTimeSpan (ts : TimeSpan.t)
| Dispose
| TryReset
| DeferredAbort.

Definition attempt_on (fuel : nat) (c : nat) (a : attempt) (h : heap) : option heap :=
  match a with
  | Abort r => EnhancedAbortController.abort (invoke fuel) c r h
  | AbortAfter ms => Some (EnhancedAbortController.abortAfter c ms h)
  | AbortAfterTimeSpan ts => Some (EnhancedAbortController.abortAfterTimeSpan c ts h)
  | Dispose => Some (EnhancedAbortController.dispose c h)
  | TryReset => Some (snd (EnhancedAbortController.tryReset c h))
  | DeferredAbort => invoke fuel (CbEnhancedAbort c) h
  end.

Fixpoint attempt_all (fuel : nat) (c : nat) (attempts : list attempt) (h : heap)
  : option heap :=
  match attempts with
  | [] => Some h
  | a :: rest =>
      h1 ← attempt_on fuel c a h;
      attempt_all fuel c rest h1
  end.

(** [const a = new EnhancedAbortController()], likewise [b] and [c];
    [const linked = EnhancedAbortController.linkSignals(a.signal, b.signal, c.signal)];
    then [linked.signal.register(cb)] for each of [cbs]. *)
Definition linked_three (call : callback -> heap -> option heap)
    (cbs : list callback) (h0 : heap) : option (nat * nat * nat * nat * heap) :=
  let '(a, h1) := EnhancedAbortController.new h0 in
  let '(b, h2) := EnhancedAbortController.new h1 in
  let '(c, h3) := EnhancedAbortController.new h2 in
  '(linked, h4) ← EnhancedAbortController.linkSignals call
     [EnhancedAbortController.signal a h3; EnhancedAbortController.signal b h3;
      EnhancedAbortController.signal c h3] h3;
  h5 ← register_all call (EnhancedAbortController.signal linked h4) cbs h4;
  Some (a, b, c, linked, h5).

End Script.

(** ** Vocabulary of the statements *)

(** The listener [register] attaches for a callback. *)
Definition attached (cb : callback) : Listener :=
  {| handler := cb; once := true; removed := false |}.

(** A heap on which nothing is scheduled: no queued microtask and no
    pending timer. *)
Definition quiescent (h : heap) : Prop :=
  microtasks h = [] /\ forall id, pending (timers h !!! id) = false.

(** A controller as its constructor leaves it, around native
    controller [n]. *)
Definition live_controller (n : nat) : EnhancedAbortController :=
  {| controller := n; _signal := EnhancedAbortSignal.new n;
     timeoutId := None; disposed := false |}.

(** The states a linked controller [il] (native signal [nl]) and its
    three inputs go through: an input that has not aborted still holds
    the linking listener; the linked signal either has not fired (then
    no input has, its caller listeners [tags] are attached and the
    trace is still [tr0]) or has fired once, with the platform's
    default reason, after running [tags]. *)
Record linked_inv (ia ib ic il na nb nc nl : nat) (tags tr0 : list nat) (h : heap)
  : Prop := mkLinkedInv {
  inv_a : EnhancedAbortController.get h ia = live_controller na;
  inv_b : EnhancedAbortController.get h ib = live_controller nb;
  inv_c : EnhancedAbortController.get h ic = live_controller nc;
  inv_l : EnhancedAbortController.get h il = live_controller nl;
  inv_distinct : NoDup [na; nb; nc; nl];
  inv_valid : forall n, In n [na; nb; nc; nl] -> n < length (signals h);
  inv_inputs : forall n, In n [na; nb; nc] ->
    reason (Platform.signal_at h n) = VUndefined ->
    listeners (Platform.signal_at h n) = [attached (CbEnhancedAbort il)];
  inv_linked :
    (Platform.signal_at h nl =
       {| reason := VUndefined;
          listeners := map (fun t => attached (CbUser t)) tags |} /\
     trace h = tr0 /\
     forall n, In n [na; nb; nc] -> reason (Platform.signal_at h n) = VUndefined)
    \/
    (Platform.signal_at h nl =
       {| reason := VDOMException "AbortError";
          listeners := map (fun t => Platform.mark_removed (attached (CbUser t))) tags |} /\
     trace h = tr0 ++ tags)
}.

(** The linked signal [nl] after it fired: it carries the platform's
    default reason, and the caller listeners [tags] have each run once
    (after the trace [tr0]) and are removed. *)
Definition fired (nl : nat) (tags tr0 : list nat) (h : heap) : Prop :=
  Platform.signal_at h nl =
    {| reason := VDOMException "AbortError";
       listeners := map (fun t => Platform.mark_removed (attached (CbUser t))) tags |} /\
  trace h = tr0 ++ tags.

(** Every pending timer that would abort controller [c] is the one
    recorded in [c]'s [timeoutId]. *)
Definition own_timers (h : heap) : Prop :=
  forall id c,
    pending (timers h !!! id) = true ->
    timer_handler (timers h !!! id) = CbEnhancedAbort c ->
    timeoutId (EnhancedAbortController.get h c) = Some id.

(** Removal closures a caller can hand to [new AbortRegistration(...)],
    each counting its runs in [n]: [Reentering k] is
    [() => { n++; if (n <= k) r.dispose(); }] with [r] the registration
    it is given to ([Reentering 0] comes to [() => { n++; }]), and
    [Throwing] is [() => { n++; throw new Error(); }]. *)
Module Removal.

Inductive t :=
| Reentering (k : nat)
| Throwing.

Definition run
    (self : AbortRegistration.t t * nat ->
            AbortRegistration.completion (AbortRegistration.t t * nat))
    (a : t) (x : AbortRegistration.t t * nat)
  : AbortRegistration.completion (AbortRegistration.t t * nat) :=
  match a with
  | Reentering k =>
      if S x.2 <=? k then self (x.1, S x.2)
      else AbortRegistration.Returns (x.1, S x.2)
  | Throwing => AbortRegistration.Throws (x.1, S x.2)
  end.

End Removal.

(** ** Further vocabulary *)

(** A caller listener with its tag and its [removed] flag. *)
Definition user_entry (e : nat * bool) : Listener :=
  {| handler := CbUser e.1; once := true; removed := e.2 |}.

(** The callbacks a script passes to [register] all satisfy [A]. *)
Definition registers (A : callback -> Prop) (o : Script.op) : Prop :=
  match o with
  | Script.OpRegister _ cb => A cb
  | Script.OpRegisterThrowing _ tag => A (CbUser tag)
  | _ => True
  end.

(** A closure that does not hold native controller [n] and is none of
    the caller callbacks [tags]. *)
Definition foreign (n : nat) (tags : list nat) (cb : callback) : Prop :=
  cb <> CbNativeAbort n /\ forall t, cb = CbUser t -> t ∉ tags.

(** Nothing in the heap can abort native signal [n] or run one of the
    callbacks [tags]: no controller that is not disposed wraps [n], the
    listeners of the other signals and the timers are [foreign], and no
    callback of [tags] has run. *)
Record sealed (n : nat) (tags : list nat) (h : heap) : Prop := mkSealed {
  sealed_controllers : forall c,
    disposed (EnhancedAbortController.get h c) = false ->
    controller (EnhancedAbortController.get h c) <> n;
  sealed_listeners : forall m, m <> n ->
    Forall (fun l => foreign n tags (handler l)) (listeners (Platform.signal_at h m));
  sealed_timers : Forall (fun t => foreign n tags (timer_handler t)) (timers h);
  sealed_trace : forall t, t ∈ tags -> t ∉ trace h
}.

(** Native signal [n] exists, is not aborted, and is sealed. *)
Definition dormant (n : nat) (tags : list nat) (h : heap) : Prop :=
  n < length (signals h) /\
  reason (Platform.signal_at h n) = VUndefined /\
  sealed n tags h.

(** [for (let i = 0; i < k; i++) cs.push(new EnhancedAbortController())] *)
Fixpoint new_controllers (k : nat) (h : heap) : list nat * heap :=
  match k with
  | O => ([], h)
  | S k' =>
      let '(c, h1) := EnhancedAbortController.new h in
      let '(cs, h2) := new_controllers k' h1 in
      (c :: cs, h2)
  end.

(** Signals that are aborted in [h] are aborted in [h']. *)
Definition aborted_grows (h h' : heap) : Prop :=
  forall m, Platform.aborted h m = true -> Platform.aborted h' m = true.

(** Listener [i] of native signal [m] is attached and calls [cb]. *)
Definition holds (cb : callback) (h : heap) (m i : nat) : Prop :=
  removed (listeners (Platform.signal_at h m) !!! i) = false /\
  handler (listeners (Platform.signal_at h m) !!! i) = cb.

(** No attached listener and no timer calls [cb]. *)
Definition unused (cb : callback) (h : heap) : Prop :=
  (forall m i, ~ holds cb h m i) /\
  Forall (fun x => timer_handler x <> cb) (timers h).

(** Caller callback [t] can still run at most once in all: an attached
    listener for it is a [once] listener, there is at most one, there
    is none once [t] has run, no timer calls it, and it has run at most
    once so far. *)
Record at_most_once (t : nat) (h : heap) : Prop := mkAtMostOnce {
  amo_once : forall m i, holds (CbUser t) h m i ->
    once (listeners (Platform.signal_at h m) !!! i) = true;
  amo_unique : forall m i m' i',
    holds (CbUser t) h m i -> holds (CbUser t) h m' i' -> m = m' /\ i = i';
  amo_ran : t ∈ trace h -> forall m i, ~ holds (CbUser t) h m i;
  amo_timers : Forall (fun x => timer_handler x <> CbUser t) (timers h);
  amo_trace : count_occ Nat.eq_dec (trace h) t <= 1
}.

(** Promise [p] is resolved by the abort of native signal [n] only: it
    is fulfilled only if [n] is aborted, and its resolving closure is
    attached to [n] at most and is called by no timer. *)
Record resolves_on (p n : nat) (h : heap) : Prop := mkResolvesOn {
  ro_allocated : p < length (promises h);
  ro_sound : Platform.promise_state h p = Fulfilled -> Platform.aborted h n = true;
  ro_listeners : forall m i, holds (CbResolve p) h m i -> m = n;
  ro_timers : Forall (fun x => timer_handler x <> CbResolve p) (timers h)
}.

(** The number of native signals that exist and are not aborted. *)
Definition is_unaborted (s : AbortSignal) : bool :=
  match reason s with
  | VUndefined => true
  | _ => false
  end.

Definition unaborted (h : heap) : nat :=
  length (List.filter is_unaborted (signals h)).

(** Every controller's signal object wraps the signal of the
    controller's own native controller. *)
Definition in_sync (h : heap) : Prop :=
  forall c,
    abortSignal (_signal (EnhancedAbortController.get h c)) =
    controller (EnhancedAbortController.get h c).

(** Promise [p] is pending and nothing is left that would resolve it. *)
Record unresolvable (p : nat) (h : heap) : Prop := mkUnresolvable {
  ur_allocated : p < length (promises h);
  ur_pending : Platform.promise_state h p = Pending;
  ur_unused : unused (CbResolve p) h
}.

(** * Properties *)

(** ** Registrations (C6) *)

Section RegistrationFacts.
Context {A W : Type}.
Variable run :
  (AbortRegistration.t A * W -> AbortRegistration.completion (AbortRegistration.t A * W)) ->
  A -> AbortRegistration.t A * W ->
  AbortRegistration.completion (AbortRegistration.t A * W).

Lemma unregister_disposed (fuel : nat) (x : AbortRegistration.t A * W) :
  AbortRegistration.disposed x.1 = true ->
  AbortRegistration.unregister run (S fuel) x = AbortRegistration.Returns x.
Proof.
  intros Hd. cbn [AbortRegistration.unregister]. rewrite Hd. reflexivity.
Qed.

Lemma perform_disposed (fuel : nat) (c : AbortRegistration.call)
    (x : AbortRegistration.t A * W) :
  AbortRegistration.disposed x.1 = true ->
  AbortRegistration.perform run (S fuel) c x = AbortRegistration.Returns x.
Proof.
  intros Hd. destruct c; apply unregister_disposed, Hd.
Qed.

Lemma perform_all_disposed (fuel : nat) (cs : list AbortRegistration.call)
    (x : AbortRegistration.t A * W) :
  AbortRegistration.disposed x.1 = true ->
  AbortRegistration.perform_all run (S fuel) cs x = AbortRegistration.Returns x.
Proof.
  intros Hd. induction cs as [|c cs IH]; cbn [AbortRegistration.perform_all].
  - reflexivity.
  - rewrite (perform_disposed fuel c x Hd). exact IH.
Qed.

End RegistrationFacts.

(** One call on a new registration around a plain closure. *)
Lemma perform_plain_new {A W : Type} (f : A -> W -> W) (fuel : nat)
    (c : AbortRegistration.call) (a : A) (w : W) :
  AbortRegistration.perform (AbortRegistration.plain f) (S fuel) c
    (AbortRegistration.new a, w)
  = AbortRegistration.Returns (AbortRegistration.mk true None, f a w).
Proof. destruct c; reflexivity. Qed.

(** A closure that calls back into its registration while its count is
    at most [k] is entered again by each of these calls. *)
Lemma unregister_reentering (k d : nat) : forall n fuel,
  n + d = k -> d + 1 <= fuel ->
  AbortRegistration.unregister Removal.run fuel
    (AbortRegistration.new (Removal.Reentering k), n)
  = AbortRegistration.Returns (AbortRegistration.mk true None, S k).
Proof.
  induction d as [|d IH]; intros n fuel Hn Hf;
    (destruct fuel as [|fuel]; [lia|]);
    cbn [AbortRegistration.unregister AbortRegistration.new AbortRegistration.disposed
         AbortRegistration.unregisterCallback fst snd Removal.run].
  - replace n with k by lia.
    destruct (Nat.leb_spec (S k) k) as [Hle|_]; [lia|]. reflexivity.
  - destruct (Nat.leb_spec (S n) k) as [_|Hgt]; [|lia].
    change ({| AbortRegistration.disposed := false;
               AbortRegistration.unregisterCallback := Some (Removal.Reentering k) |})
      with (AbortRegistration.new (Removal.Reentering k)).
    rewrite (IH (S n) fuel) by lia. reflexivity.
Qed.

(** A closure that throws is called by every call, and the registration
    stays as it was built. *)
Lemma perform_all_throwing (fuel : nat) (cs : list AbortRegistration.call) : forall n,
  AbortRegistration.perform_all Removal.run (S fuel) cs
    (AbortRegistration.new Removal.Throwing, n)
  = AbortRegistration.Returns (AbortRegistration.new Removal.Throwing, length cs + n).
Proof.
  induction cs as [|c cs IH]; intros n; cbn [AbortRegistration.perform_all length].
  - reflexivity.
  - assert (Hc : AbortRegistration.perform Removal.run (S fuel) c
                   (AbortRegistration.new Removal.Throwing, n)
                 = AbortRegistration.Throws (AbortRegistration.new Removal.Throwing, S n))
      by (by destruct c).
    rewrite Hc, IH. do 2 f_equal. lia.
Qed.

(** C6, what the code does.  On a registration built around a removal
    action that only acts on its world (it returns, and does not call
    the registration), any sequence of [n >= 1] calls to [unregister()]
    and [dispose()] runs the action exactly once (the world ends as
    [f a w], and a counting action ends at 1), leaves [isDisposed] true
    and the action reference cleared, and every further call changes
    nothing.  But [unregister()] calls the action before it clears the
    reference and sets [disposed], so the two guards do not hold back a
    call made while the action runs, or after it has thrown: an action
    that calls [dispose()] on its registration while its count is at
    most [k] runs [k + 1] times during a single [unregister()] (twice
    for [() => { n++; if (n <= 1) r.dispose(); }]), and an action that
    throws runs again at every call, the registration never becoming
    disposed. *)
Theorem C6_unregister_calls_action_before_disposing
    {A W : Type} (f : A -> W -> W) (a : A) (w : W)
    (cs : list AbortRegistration.call) (fuel k : nat) :
  1 <= length cs -> 1 <= fuel ->
  AbortRegistration.perform_all (AbortRegistration.plain f) fuel cs
    (AbortRegistration.new a, w)
    = AbortRegistration.Returns (AbortRegistration.mk true None, f a w) /\
  AbortRegistration.perform_all Removal.run fuel cs
    (AbortRegistration.new (Removal.Reentering 0), 0)
    = AbortRegistration.Returns (AbortRegistration.mk true None, 1) /\
  AbortRegistration.isDisposed (A := A) (AbortRegistration.mk true None) = true /\
  (forall c w'',
     AbortRegistration.perform (AbortRegistration.plain f) fuel c
       (AbortRegistration.mk true None, w'')
     = AbortRegistration.Returns (AbortRegistration.mk true None, w'')) /\
  AbortRegistration.unregister Removal.run (k + fuel)
    (AbortRegistration.new (Removal.Reentering k), 0)
    = AbortRegistration.Returns (AbortRegistration.mk true None, S k) /\
  AbortRegistration.perform_all Removal.run fuel cs
    (AbortRegistration.new Removal.Throwing, 0)
    = AbortRegistration.Returns (AbortRegistration.new Removal.Throwing, length cs) /\
  AbortRegistration.isDisposed (AbortRegistration.new Removal.Throwing) = false.
Proof.
  intros Hn Hf. destruct fuel as [|fuel]; [lia|].
  destruct cs as [|c cs]; [cbn in Hn; lia|].
  split; [|split; [|split; [|split; [|split; [|split]]]]].
  - cbn [AbortRegistration.perform_all]. rewrite perform_plain_new.
    by rewrite perform_all_disposed.
  - cbn [AbortRegistration.perform_all].
    assert (Hc : AbortRegistration.perform Removal.run (S fuel) c
                   (AbortRegistration.new (Removal.Reentering 0), 0)
                 = AbortRegistration.Returns (AbortRegistration.mk true None, 1))
      by (by destruct c).
    rewrite Hc. by rewrite perform_all_disposed.
  - reflexivity.
  - intros c' w''. by apply perform_disposed.
  - apply (unregister_reentering k k); lia.
  - rewrite perform_all_throwing. by rewrite Nat.add_0_r.
  - reflexivity.
Qed.

Lemma C6_witness :
  let cs := [AbortRegistration.Dispose; AbortRegistration.Unregister;
             AbortRegistration.Dispose] in
  let cons := AbortRegistration.plain (fun (a : nat) (w : list nat) => a :: w) in
  AbortRegistration.perform_all cons 1 cs (AbortRegistration.new 7, [])
    = AbortRegistration.Returns (AbortRegistration.mk true None, [7]) /\
  AbortRegistration.perform_all Removal.run 1 cs
    (AbortRegistration.new (Removal.Reentering 0), 0)
    = AbortRegistration.Returns (AbortRegistration.mk true None, 1) /\
  AbortRegistration.isDisposed (A := nat) (AbortRegistration.mk true None) = true /\
  (forall c w'',
     AbortRegistration.perform cons 1 c (AbortRegistration.mk true None, w'')
     = AbortRegistration.Returns (AbortRegistration.mk true None, w'')) /\
  AbortRegistration.unregister Removal.run 2
    (AbortRegistration.new (Removal.Reentering 1), 0)
    = AbortRegistration.Returns (AbortRegistration.mk true None, 2) /\
  AbortRegistration.perform_all Removal.run 1 cs
    (AbortRegistration.new Removal.Throwing, 0)
    = AbortRegistration.Returns (AbortRegistration.new Removal.Throwing, 3) /\
  AbortRegistration.isDisposed (AbortRegistration.new Removal.Throwing) = false.
Proof.
  apply (C6_unregister_calls_action_before_disposing
           (fun (a : nat) (w : list nat) => a :: w) 7 []
           [AbortRegistration.Dispose; AbortRegistration.Unregister;
            AbortRegistration.Dispose] 1 1).
  - cbn. lia.
  - lia.
Defined.

(** The removal closures of the library are plain: a call on a
    registration in the heap unfolds to a test and an update. *)
Lemma unregister_unfold (r : nat) (h : heap) :
  Registration.unregister r h =
  let '(o, h') :=
    match AbortRegistration.disposed (Registration.get h r),
          AbortRegistration.unregisterCallback (Registration.get h r) with
    | false, Some cb =>
        (AbortRegistration.mk true None, Registration.run_unregister_callback cb h)
    | _, _ => (Registration.get h r, h)
    end in
  with_registrations (fun rs => <[r := o]> rs) h'.
Proof.
  unfold Registration.unregister, Registration.store.
  cbn [AbortRegistration.unregister fst snd].
  destruct (AbortRegistration.disposed (Registration.get h r)); [reflexivity|].
  destruct (AbortRegistration.unregisterCallback (Registration.get h r)); reflexivity.
Qed.

Lemma dispose_unregister (r : nat) (h : heap) :
  Registration.dispose r h = Registration.unregister r h.
Proof. reflexivity. Qed.

(** ** Reading the heap after an update *)

Lemma signal_at_alter_signal (f : AbortSignal -> AbortSignal) (n m : nat) (h : heap) :
  Platform.signal_at (Platform.alter_signal f n h) m =
    if decide (n = m /\ n < length (signals h)) then f (Platform.signal_at h n)
    else Platform.signal_at h m.
Proof. unfold Platform.signal_at; cbn. apply list_lookup_total_alter. Qed.

Lemma signal_at_alter_signal_eq (f : AbortSignal -> AbortSignal) (n : nat) (h : heap) :
  n < length (signals h) ->
  Platform.signal_at (Platform.alter_signal f n h) n = f (Platform.signal_at h n).
Proof. intros Hn. rewrite signal_at_alter_signal. rewrite decide_True; [done | auto]. Qed.

Lemma signal_at_alter_signal_ne (f : AbortSignal -> AbortSignal) (n m : nat) (h : heap) :
  n <> m ->
  Platform.signal_at (Platform.alter_signal f n h) m = Platform.signal_at h m.
Proof. intros Hn. rewrite signal_at_alter_signal. rewrite decide_False; [done | tauto]. Qed.

Lemma get_alter_controller
    (f : EnhancedAbortController -> EnhancedAbortController) (c d : nat) (h : heap) :
  EnhancedAbortController.get (EnhancedAbortController.alter_controller f c h) d =
    if decide (c = d /\ c < length (controllers h))
    then f (EnhancedAbortController.get h c)
    else EnhancedAbortController.get h d.
Proof. unfold EnhancedAbortController.get; cbn. apply list_lookup_total_alter. Qed.

(** An aborted signal is an allocated one: an unallocated reference
    reads as a signal whose reason is [undefined]. *)
Lemma aborted_allocated (h : heap) (n : nat) :
  Platform.aborted h n = true -> n < length (signals h).
Proof.
  unfold Platform.aborted, Platform.signal_at. intros Ha.
  destruct (decide (n < length (signals h))) as [|Hge]; [done|].
  rewrite list_lookup_total_alt, lookup_ge_None_2 in Ha by lia. discriminate.
Qed.

(** A controller that is not disposed is an allocated one. *)
Lemma live_allocated (h : heap) (c : nat) :
  disposed (EnhancedAbortController.get h c) = false -> c < length (controllers h).
Proof.
  unfold EnhancedAbortController.get. intros Hd.
  destruct (decide (c < length (controllers h))) as [|Hge]; [done|].
  rewrite list_lookup_total_alt, lookup_ge_None_2 in Hd by lia. discriminate.
Qed.

(** ** Registering on an aborted signal (C2) *)

(** C2 fails as stated: the registration returned by [register] on an
    aborted signal is not disposed, and the first [unregister()] on it
    changes it. *)
Lemma C2_counterexample :
  let '(c, h0) := EnhancedAbortController.new Obj.empty in
  exists h r h',
    EnhancedAbortController.abort (invoke 1) c VUndefined h0 = Some h /\
    EnhancedAbortSignal.isAborted (EnhancedAbortController.signal c h) h = true /\
    EnhancedAbortSignal.register (invoke 1) (EnhancedAbortController.signal c h)
      (CbUser 1) h = Some (r, h') /\
    Registration.isDisposed h' r = false /\
    Registration.unregister r h' <> h'.
Proof.
  cbn. eexists _, _, _. repeat split. discriminate.
Qed.

(** C2 (amended): on a signal that is already aborted, [register(cb)]
    calls [cb] exactly once, synchronously, before it returns, and adds
    no listener.  The registration it returns is not disposed and holds
    a removal action that does nothing: the first [unregister()] or
    [dispose()] removes nothing (signals and trace stay as they are)
    and only sets [isDisposed]; later calls change nothing. *)
Theorem C2_register_on_aborted
    (fuel : nat) (s : EnhancedAbortSignal) (cb : callback) (h h1 : heap) :
  EnhancedAbortSignal.isAborted s h = true ->
  invoke fuel cb h = Some h1 ->
  exists r h2,
    EnhancedAbortSignal.register (invoke fuel) s cb h = Some (r, h2) /\
    h2 = with_registrations (fun rs => rs ++ [AbortRegistration.new UnregNothing]) h1 /\
    (forall tag, cb = CbUser tag -> trace h2 = trace h ++ [tag]) /\
    Registration.isDisposed h2 r = false /\
    let h3 := Registration.unregister r h2 in
    signals h3 = signals h2 /\ trace h3 = trace h2 /\
    Registration.isDisposed h3 r = true /\
    Registration.unregister r h3 = h3 /\ Registration.dispose r h3 = h3.
Proof.
  intros Ha Hcall. unfold EnhancedAbortSignal.register. rewrite Ha, Hcall. cbn.
  eexists _, _. split; [reflexivity|]. split; [reflexivity|].
  assert (Hget : forall x,
    (registrations h1 ++ [x]) !!! length (registrations h1) = x).
  { intros x. apply list_lookup_total_middle. reflexivity. }
  unfold Registration.isDisposed, Registration.unregister, Registration.dispose,
    Registration.get; cbn.
  rewrite !Hget. cbn.
  rewrite list_lookup_total_insert_eq by (rewrite length_app; cbn; lia). cbn.
  repeat split.
  - intros tag ->. destruct fuel; [discriminate|].
    cbn in Hcall. injection Hcall as <-. reflexivity.
  - unfold with_registrations; cbn. rewrite list_insert_insert_eq. reflexivity.
  - unfold with_registrations; cbn. rewrite list_insert_insert_eq. reflexivity.
Qed.

Lemma C2_witness :
  let h := with_signals (fun _ => [mkAbortSignal (VString "stop") []]) Obj.empty in
  exists r h2,
    EnhancedAbortSignal.register (invoke 1) (EnhancedAbortSignal.new 0) (CbUser 5) h
      = Some (r, h2) /\
    h2 = with_registrations (fun rs => rs ++ [AbortRegistration.new UnregNothing])
           (Platform.log 5 h) /\
    (forall tag, CbUser 5 = CbUser tag -> trace h2 = trace h ++ [tag]) /\
    Registration.isDisposed h2 r = false /\
    let h3 := Registration.unregister r h2 in
    signals h3 = signals h2 /\ trace h3 = trace h2 /\
    Registration.isDisposed h3 r = true /\
    Registration.unregister r h3 = h3 /\ Registration.dispose r h3 = h3.
Proof.
  apply (C2_register_on_aborted 1 (EnhancedAbortSignal.new 0) (CbUser 5)
           (with_signals (fun _ => [mkAbortSignal (VString "stop") []]) Obj.empty)
           (Platform.log 5
              (with_signals (fun _ => [mkAbortSignal (VString "stop") []]) Obj.empty)));
    reflexivity.
Defined.

(** ** The controller's timer slot *)

Lemma clearTimeout_signals (c : nat) (h : heap) :
  signals (EnhancedAbortController.clearTimeout c h) = signals h.
Proof.
  unfold EnhancedAbortController.clearTimeout.
  destruct (timeoutId (EnhancedAbortController.get h c)); reflexivity.
Qed.

Lemma clearTimeout_trace (c : nat) (h : heap) :
  trace (EnhancedAbortController.clearTimeout c h) = trace h.
Proof.
  unfold EnhancedAbortController.clearTimeout.
  destruct (timeoutId (EnhancedAbortController.get h c)); reflexivity.
Qed.

Lemma clearTimeout_microtasks (c : nat) (h : heap) :
  microtasks (EnhancedAbortController.clearTimeout c h) = microtasks h.
Proof.
  unfold EnhancedAbortController.clearTimeout.
  destruct (timeoutId (EnhancedAbortController.get h c)); reflexivity.
Qed.

Lemma clearTimeout_controllers_length (c : nat) (h : heap) :
  length (controllers (EnhancedAbortController.clearTimeout c h)) = length (controllers h).
Proof.
  unfold EnhancedAbortController.clearTimeout.
  destruct (timeoutId (EnhancedAbortController.get h c)); cbn;
    [apply length_alter | reflexivity].
Qed.

Lemma clearTimeout_timers (c : nat) (h : heap) :
  timers (EnhancedAbortController.clearTimeout c h) =
    match timeoutId (EnhancedAbortController.get h c) with
    | Some id => alter Platform.mark_cleared id (timers h)
    | None => timers h
    end.
Proof.
  unfold EnhancedAbortController.clearTimeout.
  destruct (timeoutId (EnhancedAbortController.get h c)); reflexivity.
Qed.

(** After [clearTimeout()] the slot is empty and the other fields are
    as before. *)
Lemma clearTimeout_get (c : nat) (h : heap) :
  EnhancedAbortController.get (EnhancedAbortController.clearTimeout c h) c =
    let o := EnhancedAbortController.get h c in
    {| controller := controller o; _signal := _signal o;
       timeoutId := None; disposed := disposed o |}.
Proof.
  unfold EnhancedAbortController.clearTimeout.
  destruct (timeoutId (EnhancedAbortController.get h c)) eqn:Ht.
  - rewrite get_alter_controller. cbn. case_decide as Hc; [reflexivity|].
    assert (Hge : length (controllers h) <= c) by (apply Nat.nlt_ge; tauto).
    unfold EnhancedAbortController.get in Ht.
    rewrite list_lookup_total_alt, lookup_ge_None_2 in Ht by done. discriminate.
  - cbn. destruct (EnhancedAbortController.get h c); cbn in *. by subst.
Qed.

(** With an empty slot [clearTimeout()] does nothing. *)
Lemma clearTimeout_idle (c : nat) (h : heap) :
  timeoutId (EnhancedAbortController.get h c) = None ->
  EnhancedAbortController.clearTimeout c h = h.
Proof. unfold EnhancedAbortController.clearTimeout. by intros ->. Qed.

(** The timer that was in the slot is no longer pending. *)
Lemma clearTimeout_cancels (c id : nat) (h : heap) :
  timeoutId (EnhancedAbortController.get h c) = Some id ->
  pending (timers (EnhancedAbortController.clearTimeout c h) !!! id) = false.
Proof.
  intros Ht. rewrite clearTimeout_timers, Ht.
  rewrite list_lookup_total_alter. case_decide as Hc; [reflexivity|].
  rewrite list_lookup_total_alt, lookup_ge_None_2; [reflexivity|].
  apply Nat.nlt_ge. tauto.
Qed.

(** ** Disposed controllers (C7) *)

Lemma isDisposed_dispose (c : nat) (h : heap) :
  EnhancedAbortController.isDisposed c (EnhancedAbortController.dispose c h) = true.
Proof.
  unfold EnhancedAbortController.isDisposed, EnhancedAbortController.dispose.
  destruct (disposed (EnhancedAbortController.get h c)) eqn:Hd; [done|].
  pose proof (live_allocated h c Hd) as Hc.
  rewrite clearTimeout_get. cbn. rewrite get_alter_controller.
  by rewrite decide_True.
Qed.

Lemma dispose_controller (c : nat) (h : heap) :
  controller (EnhancedAbortController.get (EnhancedAbortController.dispose c h) c)
  = controller (EnhancedAbortController.get h c).
Proof.
  unfold EnhancedAbortController.dispose.
  destruct (disposed (EnhancedAbortController.get h c)) eqn:Hd; [done|].
  rewrite clearTimeout_get. cbn. rewrite get_alter_controller.
  case_decide; reflexivity.
Qed.

(** Every attempt on a disposed controller returns at once. *)
Lemma attempt_on_disposed (fuel c : nat) (a : Script.attempt) (h : heap) :
  EnhancedAbortController.isDisposed c h = true ->
  Script.attempt_on (S fuel) c a h = Some h.
Proof.
  unfold EnhancedAbortController.isDisposed. intros Hd.
  destruct a; cbn;
    unfold EnhancedAbortController.abort, EnhancedAbortController.abortAfterTimeSpan,
      EnhancedAbortController.abortAfter, EnhancedAbortController.dispose,
      EnhancedAbortController.tryReset;
    by rewrite Hd.
Qed.

Lemma attempt_all_disposed (fuel c : nat) (attempts : list Script.attempt) (h : heap) :
  EnhancedAbortController.isDisposed c h = true ->
  Script.attempt_all (S fuel) c attempts h = Some h.
Proof.
  intros Hd. induction attempts as [|a rest IH]; [done|].
  cbn [Script.attempt_all]. by rewrite attempt_on_disposed.
Qed.

Lemma run_microtasks_idle (h : heap) :
  microtasks h = [] -> EventLoop.run_microtasks h = h.
Proof.
  intros Hm. unfold EventLoop.run_microtasks. rewrite Hm. cbn.
  destruct h; cbn in *. by subst.
Qed.

Lemma run_timers_idle (call : callback -> heap -> option heap)
    (ids : list nat) (h : heap) :
  (forall id, pending (timers h !!! id) = false) ->
  EventLoop.run_timers call ids h = Some h.
Proof.
  intros Hp. induction ids as [|id rest IH]; [done|].
  cbn [EventLoop.run_timers]. by rewrite Hp.
Qed.

Lemma turn_quiescent (call : callback -> heap -> option heap) (h : heap) :
  quiescent h -> EventLoop.turn call h = Some h.
Proof.
  intros [Hm Hp]. unfold EventLoop.turn. rewrite run_microtasks_idle by done.
  by apply run_timers_idle.
Qed.

(** On a quiescent heap time passes and nothing else happens. *)
Lemma advance_quiescent (call : callback -> heap -> option heap) (ms : nat) (h : heap) :
  quiescent h ->
  EventLoop.advance call ms h = Some (with_now (fun t => ms + t) h).
Proof.
  revert h. induction ms as [|ms IH]; intros h Hq; cbn [EventLoop.advance].
  - rewrite turn_quiescent by done. by destruct h.
  - rewrite turn_quiescent by done. cbn.
    rewrite IH by (destruct Hq; split; done).
    unfold with_now; cbn. do 2 f_equal. lia.
Qed.

(** C7: [dispose()] does not fire the signal (signals, abort state,
    reason and trace are as before) and cancels the pending timer.
    After it, every sequence of [abort(reason)], [abortAfter(ms)],
    [abortAfterTimeSpan], [dispose()], [tryReset()] and runs of the
    deferred closure leaves the heap exactly as it is: [isAborted] and
    [reason] stay what they were (a never-aborted controller stays not
    aborted) and no listener runs.  If the controller's own timer was
    all that was scheduled, then waiting any time afterwards only moves
    the clock. *)
Theorem C7_disposed_controller_is_inert
    (fuel c : nat) (h : heap) (attempts : list Script.attempt) :
  let h1 := EnhancedAbortController.dispose c h in
  (signals h1 = signals h /\ trace h1 = trace h /\
   EnhancedAbortController.isAborted c h1 = EnhancedAbortController.isAborted c h /\
   EnhancedAbortController.reason c h1 = EnhancedAbortController.reason c h /\
   EnhancedAbortController.isDisposed c h1 = true /\
   (forall id, EnhancedAbortController.isDisposed c h = false ->
      timeoutId (EnhancedAbortController.get h c) = Some id ->
      pending (timers h1 !!! id) = false)) /\
  Script.attempt_all (S fuel) c attempts h1 = Some h1 /\
  (EnhancedAbortController.isAborted c h = false ->
   exists h2, Script.attempt_all (S fuel) c attempts h1 = Some h2 /\
     EnhancedAbortController.isAborted c h2 = false /\ trace h2 = trace h) /\
  (EnhancedAbortController.isDisposed c h = false ->
   microtasks h = [] ->
   (forall id, pending (timers h !!! id) = true ->
               timeoutId (EnhancedAbortController.get h c) = Some id) ->
   forall ms, exists h2 h3,
     Script.attempt_all (S fuel) c attempts h1 = Some h2 /\
     EventLoop.advance (invoke fuel) ms h2 = Some h3 /\
     signals h3 = signals h /\ trace h3 = trace h /\
     EnhancedAbortController.isAborted c h3 = EnhancedAbortController.isAborted c h).
Proof.
  cbv zeta.
  assert (Hsig : signals (EnhancedAbortController.dispose c h) = signals h).
  { unfold EnhancedAbortController.dispose.
    destruct (disposed (EnhancedAbortController.get h c)); [done|].
    by rewrite clearTimeout_signals. }
  assert (Htr : trace (EnhancedAbortController.dispose c h) = trace h).
  { unfold EnhancedAbortController.dispose.
    destruct (disposed (EnhancedAbortController.get h c)); [done|].
    by rewrite clearTimeout_trace. }
  assert (Hab : EnhancedAbortController.isAborted c (EnhancedAbortController.dispose c h) =
                EnhancedAbortController.isAborted c h).
  { unfold EnhancedAbortController.isAborted, Platform.aborted, Platform.signal_at.
    by rewrite dispose_controller, Hsig. }
  assert (Hre : EnhancedAbortController.reason c (EnhancedAbortController.dispose c h) =
                EnhancedAbortController.reason c h).
  { unfold EnhancedAbortController.reason, Platform.signal_at.
    by rewrite dispose_controller, Hsig. }
  pose proof (isDisposed_dispose c h) as Hdis.
  pose proof (attempt_all_disposed fuel c attempts _ Hdis) as Hall.
  set (h1 := EnhancedAbortController.dispose c h) in *.
  split; [|split; [|split]].
  - repeat split; try done.
    unfold EnhancedAbortController.isDisposed. intros id Hd Hid.
      unfold h1, EnhancedAbortController.dispose. rewrite Hd.
      apply clearTimeout_cancels.
      rewrite get_alter_controller. case_decide; [done|].
      exfalso. pose proof (live_allocated h c Hd). tauto.
  - done.
  - intros Hna. exists h1. by rewrite Hab.
  - unfold EnhancedAbortController.isDisposed. intros Hd Hm Hown ms.
    assert (Hq : quiescent h1).
    { unfold h1, EnhancedAbortController.dispose. rewrite Hd. split.
      - by rewrite clearTimeout_microtasks.
      - intros id. rewrite clearTimeout_timers.
        rewrite get_alter_controller. cbn [timers EnhancedAbortController.alter_controller
                                             with_controllers].
        rewrite decide_True by (split; [done | by apply live_allocated]).
        cbn [timeoutId].
        destruct (timeoutId (EnhancedAbortController.get h c)) as [tid|] eqn:Ht.
        + rewrite list_lookup_total_alter. case_decide as Hc; [done|].
          destruct (pending (timers h !!! id)) eqn:Hp; [|done].
          pose proof (Hown _ Hp) as Hx. injection Hx as ->.
          destruct (decide (id < length (timers h))) as [|Hge]; [tauto|].
          rewrite list_lookup_total_alt, lookup_ge_None_2 in Hp by lia. done.
        + destruct (pending (timers h !!! id)) eqn:Hp; [|done].
          pose proof (Hown _ Hp). discriminate. }
    exists h1, (with_now (fun t => ms + t) h1). split; [done|].
    split; [by apply advance_quiescent|].
    cbn [signals trace with_now]. split; [done|]. split; [done|].
    rewrite <- Hab. reflexivity.
Qed.

Lemma C7_witness :
  let h := EnhancedAbortController.abortAfter 0 100
             (snd (EnhancedAbortController.new Obj.empty)) in
  exists h2 h3,
    Script.attempt_all 1 0
      [Script.Abort (VString "late"); Script.AbortAfter 50; Script.DeferredAbort]
      (EnhancedAbortController.dispose 0 h) = Some h2 /\
    EventLoop.advance (invoke 0) 150 h2 = Some h3 /\
    signals h3 = signals h /\ trace h3 = trace h /\
    EnhancedAbortController.isAborted 0 h3 = EnhancedAbortController.isAborted 0 h.
Proof.
  set (h := EnhancedAbortController.abortAfter 0 100
              (snd (EnhancedAbortController.new Obj.empty))).
  refine (proj2 (proj2 (proj2
            (C7_disposed_controller_is_inert 0 0 h
               [Script.Abort (VString "late"); Script.AbortAfter 50;
                Script.DeferredAbort]))) _ _ _ 150).
  - reflexivity.
  - reflexivity.
  - intros [|[|id]]; cbn; [reflexivity | discriminate | discriminate].
Defined.

(** ** Registering and firing, one step at a time *)

Lemma signal_at_with_registrations f (h : heap) (m : nat) :
  Platform.signal_at (with_registrations f h) m = Platform.signal_at h m.
Proof. reflexivity. Qed.

(** [register] on a signal that is not aborted only appends a listener
    and allocates the registration that removes it. *)
Lemma register_live (call : callback -> heap -> option heap)
    (s : EnhancedAbortSignal) (cb : callback) (h : heap) :
  EnhancedAbortSignal.isAborted s h = false ->
  EnhancedAbortSignal.register call s cb h =
    Some (length (registrations h),
          with_registrations
            (fun rs => rs ++ [AbortRegistration.new
               (UnregRemoveListener (abortSignal s)
                  (length (listeners (Platform.signal_at h (abortSignal s)))))])
            (Platform.alter_signal
               (fun x => {| reason := reason x;
                            listeners := listeners x ++
                              [{| handler := cb; once := true; removed := false |}] |})
               (abortSignal s) h)).
Proof. intros Ha. unfold EnhancedAbortSignal.register. by rewrite Ha. Qed.

(** Firing a signal nobody listens to: it becomes aborted, and that is
    all. *)
Lemma abort_unobserved (call : callback -> heap -> option heap)
    (n : nat) (r : value) (h : heap) :
  n < length (signals h) ->
  listeners (Platform.signal_at h n) = [] ->
  exists h',
    Platform.abort call n r h = Some h' /\
    Platform.aborted h' n = true /\
    listeners (Platform.signal_at h' n) = [] /\
    length (signals h') = length (signals h) /\
    (forall m, m <> n -> Platform.signal_at h' m = Platform.signal_at h m) /\
    controllers h' = controllers h /\ trace h' = trace h /\
    (Platform.aborted h n = false ->
     reason (Platform.signal_at h' n) =
       match r with VUndefined => VDOMException "AbortError" | _ => r end).
Proof.
  intros Hn Hl. unfold Platform.abort.
  destruct (Platform.aborted h n) eqn:Ha.
  - exists h. repeat split; try done.
  - unfold Platform.dispatchEvent.
    rewrite signal_at_alter_signal_eq by done. cbn [listeners]. rewrite Hl. cbn.
    eexists. split; [reflexivity|].
    unfold Platform.aborted. rewrite signal_at_alter_signal_eq by done. cbn.
    repeat split; try done.
    + by destruct r.
    + apply length_alter.
    + intros m Hm. by rewrite signal_at_alter_signal_ne.
Qed.

(** ** Combinators over an input that is already aborted (C10) *)

Lemma register_each_fires (fuel n : nat) (cb : callback)
    (cs : list EnhancedAbortController) :
  (forall h, controllers h = cs ->
     invoke (S fuel) cb h = Platform.abort (invoke fuel) n VUndefined h) ->
  forall (ss : list EnhancedAbortSignal) (h : heap),
    controllers h = cs ->
    n < length (signals h) ->
    listeners (Platform.signal_at h n) = [] ->
    Forall (fun s => abortSignal s <> n) ss ->
    exists h',
      EnhancedAbortSignal.register_each (invoke (S fuel)) ss cb h = Some h' /\
      controllers h' = cs /\
      n < length (signals h') /\
      listeners (Platform.signal_at h' n) = [] /\
      (forall m, m <> n -> Platform.aborted h' m = Platform.aborted h m) /\
      (Platform.aborted h n = true \/
       Exists (fun s => EnhancedAbortSignal.isAborted s h = true) ss ->
       Platform.aborted h' n = true) /\
      trace h' = trace h.
Proof.
  intros Hcb ss. induction ss as [|s rest IH]; intros h Hcs Hn Hl Hne.
  - exists h. repeat split; try done. intros [Ha|Hex]; [done|]. by inversion Hex.
  - apply Forall_cons in Hne as [Hs Hrest].
    cbn [EnhancedAbortSignal.register_each].
    destruct (EnhancedAbortSignal.isAborted s h) eqn:Ha.
    + (* the input is aborted: the closure runs now *)
      unfold EnhancedAbortSignal.register. rewrite Ha, Hcb by done.
      destruct (abort_unobserved (invoke fuel) n VUndefined h Hn Hl)
        as (h1 & -> & Hab1 & Hl1 & Hlen1 & Hoth1 & Hcs1 & Htr1 & _).
      cbn -[invoke].
      destruct (IH (with_registrations
                      (fun rs => rs ++ [AbortRegistration.new UnregNothing]) h1))
        as (h' & -> & Hcs' & Hn' & Hl' & Hoth' & Hab' & Htr');
        [by rewrite <- Hcs | cbn; lia | done | done |].
      exists h'. repeat split; try done.
      * intros m Hm. rewrite Hoth' by done. unfold Platform.aborted.
        by rewrite <- (Hoth1 m Hm).
      * intros _. apply Hab'. by left.
      * by rewrite Htr'.
    + (* the input is live: a listener is attached *)
      rewrite register_live by done. cbn -[invoke].
      set (h1 := with_registrations _ _).
      assert (Hsig : forall m, m <> abortSignal s ->
                Platform.signal_at h1 m = Platform.signal_at h m).
      { intros m Hm. unfold h1.
        rewrite signal_at_with_registrations.
        by rewrite signal_at_alter_signal_ne. }
      assert (Hab : forall m, Platform.aborted h1 m = Platform.aborted h m).
      { intros m. unfold Platform.aborted, h1.
        rewrite signal_at_with_registrations.
        rewrite signal_at_alter_signal. by case_decide as Hc; [destruct Hc as [-> _]|]. }
      destruct (IH h1) as (h' & -> & Hcs' & Hn' & Hl' & Hoth' & Hab' & Htr');
        [done | unfold h1; cbn; by rewrite length_alter
         | by rewrite Hsig | done |].
      exists h'. repeat split; try done.
      * intros m Hm. by rewrite Hoth', Hab.
      * intros [Hx|Hex]; apply Hab'.
        -- left. by rewrite Hab.
        -- right. apply Exists_cons in Hex as [Hx|Hex]; [congruence|].
           eapply Exists_impl; [exact Hex|].
           intros x Hx. unfold EnhancedAbortSignal.isAborted in *. by rewrite Hab.
Qed.

(** C10: if at least one of the input signals is already aborted, then
    the signal returned by [any] is aborted when [any] returns, and so
    is the controller (and its signal) returned by [linkSignals]:
    registering on the aborted input runs the abort closure during
    construction. *)
Theorem C10_combinators_fire_at_construction
    (fuel : nat) (ss : list EnhancedAbortSignal) (h : heap) :
  Forall (fun s => abortSignal s < length (signals h)) ss ->
  Exists (fun s => EnhancedAbortSignal.isAborted s h = true) ss ->
  (exists s' h',
     EnhancedAbortSignal.any (invoke (S fuel)) ss h = Some (s', h') /\
     EnhancedAbortSignal.isAborted s' h' = true) /\
  (exists c h',
     EnhancedAbortController.linkSignals (invoke (S fuel)) ss h = Some (c, h') /\
     EnhancedAbortController.isAborted c h' = true /\
     EnhancedAbortSignal.isAborted (EnhancedAbortController.signal c h') h' = true).
Proof.
  intros Hvalid Hex.
  assert (Hne : Forall (fun s => abortSignal s <> length (signals h)) ss).
  { eapply Forall_impl; [exact Hvalid|]. cbn. lia. }
  split.
  - unfold EnhancedAbortSignal.any. cbn [Platform.new_AbortController].
    set (n := length (signals h)).
    set (h1 := with_signals _ h).
    destruct (register_each_fires fuel n (CbNativeAbort n) (controllers h1)
                (fun _ _ => eq_refl) ss h1)
      as (h' & -> & _ & _ & _ & _ & Hab & _).
    + done.
    + unfold h1; cbn. rewrite length_app; cbn. unfold n. lia.
    + unfold Platform.signal_at, h1; cbn.
      by rewrite list_lookup_total_middle.
    + done.
    + cbn. eexists _, _. split; [reflexivity|].
      apply Hab. right.
      eapply Exists_impl; [exact Hex|]. intros s Hs.
      unfold EnhancedAbortSignal.isAborted, Platform.aborted, Platform.signal_at in *.
      unfold h1; cbn. rewrite lookup_total_app_l; [done|].
      by apply aborted_allocated.
  - unfold EnhancedAbortController.linkSignals, EnhancedAbortController.new.
    cbn [Platform.new_AbortController].
    set (n := length (signals h)).
    set (c := length (controllers (with_signals _ h))).
    set (h1 := with_controllers _ _).
    assert (Hget : forall x, controllers x = controllers h1 ->
              EnhancedAbortController.get x c =
                {| controller := n; _signal := EnhancedAbortSignal.new n;
                   timeoutId := None; disposed := false |}).
    { intros x Hx. unfold EnhancedAbortController.get. rewrite Hx.
      unfold h1; cbn. by rewrite list_lookup_total_middle. }
    destruct (register_each_fires fuel n (CbEnhancedAbort c) (controllers h1)) with
      (ss := ss) (h := h1) as (h' & -> & Hcs & _ & _ & _ & Hab & _).
    + intros x Hx. cbn [invoke]. unfold EnhancedAbortController.abort.
      rewrite (Hget x Hx). cbn [disposed].
      rewrite clearTimeout_idle by (by rewrite (Hget x Hx)).
      by rewrite (Hget x Hx).
    + done.
    + unfold h1; cbn. rewrite length_app; cbn. unfold n. lia.
    + unfold Platform.signal_at, h1; cbn. by rewrite list_lookup_total_middle.
    + done.
    + exists c, h'. split; [reflexivity|].
      unfold EnhancedAbortController.isAborted, EnhancedAbortController.signal,
        EnhancedAbortSignal.isAborted.
      rewrite (Hget h' Hcs). cbn [controller _signal abortSignal EnhancedAbortSignal.new].
      assert (Platform.aborted h' n = true); [|done].
      apply Hab. right.
      eapply Exists_impl; [exact Hex|]. intros s Hs.
      unfold EnhancedAbortSignal.isAborted, Platform.aborted, Platform.signal_at in *.
      unfold h1; cbn. rewrite lookup_total_app_l; [done|].
      by apply aborted_allocated.
Qed.

Lemma C10_witness :
  let h := with_signals
             (fun _ => [mkAbortSignal VUndefined []; mkAbortSignal (VString "gone") []])
             Obj.empty in
  let ss := [EnhancedAbortSignal.new 0; EnhancedAbortSignal.new 1] in
  (exists s' h',
     EnhancedAbortSignal.any (invoke 1) ss h = Some (s', h') /\
     EnhancedAbortSignal.isAborted s' h' = true) /\
  (exists c h',
     EnhancedAbortController.linkSignals (invoke 1) ss h = Some (c, h') /\
     EnhancedAbortController.isAborted c h' = true /\
     EnhancedAbortSignal.isAborted (EnhancedAbortController.signal c h') h' = true).
Proof.
  apply (C10_combinators_fire_at_construction 0
           [EnhancedAbortSignal.new 0; EnhancedAbortSignal.new 1]
           (with_signals
              (fun _ => [mkAbortSignal VUndefined []; mkAbortSignal (VString "gone") []])
              Obj.empty)).
  - repeat constructor.
  - right. left. reflexivity.
Defined.

(** ** Listeners registered before the abort (C1) *)

(** Registering callbacks on a signal that is not aborted appends their
    listeners in order; nothing runs. *)
Lemma register_all_live (call : callback -> heap -> option heap)
    (s : EnhancedAbortSignal) (cbs : list callback) (h : heap) :
  EnhancedAbortSignal.isAborted s h = false ->
  abortSignal s < length (signals h) ->
  exists h',
    Script.register_all call s cbs h = Some h' /\
    Platform.signal_at h' (abortSignal s) =
      {| reason := reason (Platform.signal_at h (abortSignal s));
         listeners := listeners (Platform.signal_at h (abortSignal s))
                        ++ map attached cbs |} /\
    (forall m, m <> abortSignal s -> Platform.signal_at h' m = Platform.signal_at h m) /\
    length (signals h') = length (signals h) /\
    controllers h' = controllers h /\
    timers h' = timers h /\
    microtasks h' = microtasks h /\
    trace h' = trace h.
Proof.
  revert h. induction cbs as [|cb rest IH]; intros h Ha Hn.
  - exists h. cbn. rewrite app_nil_r. repeat split; try done.
    by destruct (Platform.signal_at h (abortSignal s)).
  - cbn [Script.register_all]. rewrite register_live by done.
    cbn [mbind option_bind].
    set (h1 := with_registrations _ _).
    assert (Hat : Platform.signal_at h1 (abortSignal s) =
              {| reason := reason (Platform.signal_at h (abortSignal s));
                 listeners := listeners (Platform.signal_at h (abortSignal s))
                                ++ [attached cb] |}).
    { unfold h1. rewrite signal_at_with_registrations.
      by rewrite signal_at_alter_signal_eq. }
    assert (Hoth : forall m, m <> abortSignal s ->
              Platform.signal_at h1 m = Platform.signal_at h m).
    { intros m Hm. unfold h1. rewrite signal_at_with_registrations.
      by rewrite signal_at_alter_signal_ne. }
    assert (Hlen : length (signals h1) = length (signals h)).
    { unfold h1; cbn. apply length_alter. }
    destruct (IH h1) as (h' & -> & Hat' & Hoth' & Hlen' & Hcs' & Hts' & Hms' & Htr').
    + unfold EnhancedAbortSignal.isAborted, Platform.aborted in *.
      rewrite Hat. exact Ha.
    + by rewrite Hlen.
    + exists h'. split; [done|]. rewrite Hat', Hat. cbn [reason listeners map].
      rewrite <- app_assoc. cbn [app].
      repeat split; try done.
      * intros m Hm. by rewrite Hoth', Hoth.
      * by rewrite Hlen'.
Qed.

(** Dispatch over attached caller callbacks: each runs once, in list
    order, and is removed as it runs. *)
Lemma inner_invoke_users (fuel n : nat) (tags : list nat) :
  forall (pre : list Listener) (h : heap),
    n < length (signals h) ->
    listeners (Platform.signal_at h n) = pre ++ map (fun t => attached (CbUser t)) tags ->
    exists h',
      Platform.inner_invoke (invoke (S fuel)) n (seq (length pre) (length tags)) h
        = Some h' /\
      trace h' = trace h ++ tags /\
      reason (Platform.signal_at h' n) = reason (Platform.signal_at h n) /\
      listeners (Platform.signal_at h' n) =
        pre ++ map (fun t => Platform.mark_removed (attached (CbUser t))) tags /\
      (forall m, m <> n -> Platform.signal_at h' m = Platform.signal_at h m) /\
      length (signals h') = length (signals h) /\
      controllers h' = controllers h /\
      timers h' = timers h /\
      microtasks h' = microtasks h.
Proof.
  induction tags as [|t rest IH]; intros pre h Hn Hl.
  - exists h. cbn. rewrite !app_nil_r. cbn in Hl. rewrite app_nil_r in Hl.
    repeat split; done.
  - cbn [length seq Platform.inner_invoke]. rewrite Hl.
    cbn [map]. rewrite list_lookup_total_middle by reflexivity.
    cbn [removed once handler attached invoke].
    set (h1 := Platform.log t (Platform.removeEventListener n (length pre) h)).
    assert (Hat : Platform.signal_at h1 n =
              {| reason := reason (Platform.signal_at h n);
                 listeners := (pre ++ [Platform.mark_removed (attached (CbUser t))])
                                ++ map (fun t => attached (CbUser t)) rest |}).
    { unfold h1, Platform.log, Platform.removeEventListener, Platform.alter_listener.
      change (Platform.signal_at (with_trace ?f ?x) n) with (Platform.signal_at x n).
      rewrite signal_at_alter_signal_eq by done. rewrite Hl. cbn [map].
      f_equal. rewrite <- app_assoc. cbn [app].
      rewrite <- (Nat.add_0_r (length pre)) at 1. by rewrite alter_app_r. }
    assert (Hoth : forall m, m <> n -> Platform.signal_at h1 m = Platform.signal_at h m).
    { intros m Hm.
      unfold h1, Platform.log, Platform.removeEventListener, Platform.alter_listener.
      change (Platform.signal_at (with_trace ?f ?x) m) with (Platform.signal_at x m).
      by rewrite signal_at_alter_signal_ne. }
    assert (Hlen : length (signals h1) = length (signals h)).
    { unfold h1; cbn. apply length_alter. }
    destruct (IH (pre ++ [Platform.mark_removed (attached (CbUser t))]) h1)
      as (h' & Hrun & Htr & Hre & Hls & Hoth' & Hlen' & Hcs & Hts & Hms).
    + by rewrite Hlen.
    + by rewrite Hat.
    + rewrite length_app in Hrun. cbn [length] in Hrun.
      rewrite Nat.add_1_r in Hrun.
      exists h'. split; [exact Hrun|].
      rewrite Htr, Hre, Hls, Hat. cbn [reason map].
      rewrite <- !app_assoc. cbn [app].
      repeat split; try done.
      * unfold h1; cbn. by rewrite <- app_assoc.
      * intros m Hm. by rewrite Hoth', Hoth.
      * by rewrite Hlen'.
Qed.

(** What [new EnhancedAbortController()] allocates. *)
Lemma new_controller (h0 : heap) :
  let '(c, h) := EnhancedAbortController.new h0 in
  c = length (controllers h0) /\
  EnhancedAbortController.get h c =
    {| controller := length (signals h0);
       _signal := EnhancedAbortSignal.new (length (signals h0));
       timeoutId := None; disposed := false |} /\
  Platform.signal_at h (length (signals h0)) = {| reason := VUndefined; listeners := [] |} /\
  signals h = signals h0 ++ [{| reason := VUndefined; listeners := [] |}] /\
  controllers h = controllers h0 ++
    [{| controller := length (signals h0);
        _signal := EnhancedAbortSignal.new (length (signals h0));
        timeoutId := None; disposed := false |}] /\
  timers h = timers h0 /\ microtasks h = microtasks h0 /\ trace h = trace h0.
Proof.
  unfold EnhancedAbortController.new, EnhancedAbortController.get, Platform.signal_at.
  cbn. rewrite !list_lookup_total_middle by reflexivity. repeat split.
Qed.

(** Firing a signal whose listeners are attached caller callbacks. *)
Lemma abort_users (fuel n : nat) (r : value) (tags : list nat) (h : heap) :
  n < length (signals h) ->
  Platform.signal_at h n =
    {| reason := VUndefined; listeners := map (fun t => attached (CbUser t)) tags |} ->
  exists h',
    Platform.abort (invoke (S fuel)) n r h = Some h' /\
    trace h' = trace h ++ tags /\
    Platform.signal_at h' n =
      {| reason := match r with VUndefined => VDOMException "AbortError" | _ => r end;
         listeners := map (fun t => Platform.mark_removed (attached (CbUser t))) tags |} /\
    (forall m, m <> n -> Platform.signal_at h' m = Platform.signal_at h m) /\
    length (signals h') = length (signals h) /\
    controllers h' = controllers h /\
    timers h' = timers h /\
    microtasks h' = microtasks h.
Proof.
  intros Hn Hat. unfold Platform.abort, Platform.aborted. rewrite Hat. cbn [reason].
  unfold Platform.dispatchEvent.
  set (h1 := Platform.alter_signal _ n h).
  assert (Hat1 : Platform.signal_at h1 n =
            {| reason := match r with VUndefined => VDOMException "AbortError" | _ => r end;
               listeners := map (fun t => attached (CbUser t)) tags |}).
  { unfold h1. rewrite signal_at_alter_signal_eq by done. by rewrite Hat. }
  rewrite Hat1. cbn [listeners]. rewrite length_map.
  destruct (inner_invoke_users fuel n tags [] h1)
    as (h' & Hrun & Htr & Hre & Hls & Hoth & Hlen & Hcs & Hts & Hms).
  - unfold h1; cbn. by rewrite length_alter.
  - by rewrite Hat1.
  - exists h'. split; [exact Hrun|]. split; [done|]. split.
    + destruct (Platform.signal_at h' n) as [re ls]. cbn in Hre, Hls.
      rewrite Hat1 in Hre. cbn in Hre. by subst.
    + repeat split; try done.
      * intros m Hm. rewrite Hoth by done. unfold h1.
        by rewrite signal_at_alter_signal_ne.
      * rewrite Hlen. unfold h1; cbn. apply length_alter.
Qed.

(** C1: on a fresh controller (in any heap), after any [k >= 0] caller
    callbacks were registered on its signal, the first [abort] runs all
    of them before it returns, in registration order, each once.  A
    second [abort], with any reason, returns the heap unchanged: no
    listener runs again and the stored reason stays the one the first
    call stored, which is the value that call passed (the platform's
    "AbortError" DOMException when it passed none). *)
Theorem C1_abort_fires_listeners_once
    (fuel : nat) (h0 : heap) (tags : list nat) (r1 r2 : value) :
  let '(c, h) := EnhancedAbortController.new h0 in
  exists h1 h2,
    Script.register_all (invoke (S fuel)) (EnhancedAbortController.signal c h)
      (map CbUser tags) h = Some h1 /\
    trace h1 = trace h0 /\
    EnhancedAbortController.isAborted c h1 = false /\
    EnhancedAbortController.abort (invoke (S fuel)) c r1 h1 = Some h2 /\
    trace h2 = trace h0 ++ tags /\
    EnhancedAbortController.isAborted c h2 = true /\
    EnhancedAbortController.reason c h2 =
      match r1 with VUndefined => VDOMException "AbortError" | _ => r1 end /\
    forall fuel', EnhancedAbortController.abort (invoke fuel') c r2 h2 = Some h2.
Proof.
  pose proof (new_controller h0) as Hnew.
  destruct (EnhancedAbortController.new h0) as [c h].
  destruct Hnew as (-> & Hget & Hat & Hss & Hcs & _ & _ & Htr).
  set (c := length (controllers h0)) in *.
  set (n := length (signals h0)) in *.
  assert (Hn : n < length (signals h)).
  { rewrite Hss, length_app. cbn. unfold n. lia. }
  unfold EnhancedAbortController.signal. rewrite Hget. cbn [_signal].
  destruct (register_all_live (invoke (S fuel)) (EnhancedAbortSignal.new n)
              (map CbUser tags) h)
    as (h1 & Hreg & Hat1 & _ & Hlen1 & Hcs1 & _ & _ & Htr1).
  { unfold EnhancedAbortSignal.isAborted, Platform.aborted.
    cbn [abortSignal EnhancedAbortSignal.new]. by rewrite Hat. }
  { done. }
  cbn [abortSignal EnhancedAbortSignal.new] in Hat1.
  rewrite Hat in Hat1. cbn [reason listeners app] in Hat1. rewrite map_map in Hat1.
  assert (Hget1 : EnhancedAbortController.get h1 c = EnhancedAbortController.get h c).
  { unfold EnhancedAbortController.get. by rewrite Hcs1. }
  destruct (abort_users fuel n r1 tags h1) as
    (h2 & Hab & Htr2 & Hat2 & _ & _ & Hcs2 & _ & _); [by rewrite Hlen1 | done |].
  assert (Hget2 : EnhancedAbortController.get h2 c = EnhancedAbortController.get h c).
  { unfold EnhancedAbortController.get. by rewrite Hcs2, Hcs1. }
  exists h1, h2. split; [exact Hreg|]. split; [by rewrite Htr1|].
  unfold EnhancedAbortController.isAborted, EnhancedAbortController.reason,
    EnhancedAbortController.abort, Platform.aborted.
  rewrite Hget1, Hget2, Hget. cbn [disposed controller].
  rewrite !clearTimeout_idle by (by rewrite ?Hget1, ?Hget2, Hget).
  rewrite Hget1, Hget2, Hget. cbn [controller].
  rewrite Hat1, Hat2. cbn [reason].
  split; [done|]. split; [exact Hab|]. split; [by rewrite Htr2, Htr1, Htr|].
  split; [by destruct r1|]. split; [done|].
  intros fuel'. unfold Platform.abort, Platform.aborted. rewrite Hat2. cbn [reason].
  by destruct r1.
Qed.

(** ** The error surface (C5) *)

(** On a signal that is not aborted a callback that throws is
    registered as any other. *)
Lemma register_throwing_live (call : callback -> heap -> option heap)
    (s : EnhancedAbortSignal) (tag : nat) (h : heap) :
  EnhancedAbortSignal.isAborted s h = false ->
  EnhancedAbortSignal.register_throwing call s tag h =
    inr <$> EnhancedAbortSignal.register call s (CbUser tag) h.
Proof.
  intros Ha. unfold EnhancedAbortSignal.register_throwing, EnhancedAbortSignal.register.
  by rewrite Ha.
Qed.

Lemma exec_register_throwing_live (fuel : nat) (s : EnhancedAbortSignal)
    (tag : nat) (h : heap) :
  EnhancedAbortSignal.isAborted s h = false ->
  Script.exec fuel (Script.OpRegisterThrowing s tag) h =
  Script.exec fuel (Script.OpRegister s (CbUser tag)) h.
Proof.
  intros Ha. cbn [Script.exec]. rewrite register_throwing_live by done.
  by destruct (EnhancedAbortSignal.register _ _ _ _) as [[r h1]|].
Qed.

(** A call of [register] that returns has done what it does for a
    callback that returns. *)
Lemma exec_register_throwing_returned (fuel : nat) (s : EnhancedAbortSignal)
    (tag : nat) (h h' : heap) :
  Script.exec fuel (Script.OpRegisterThrowing s tag) h = Script.Returned h' ->
  EnhancedAbortSignal.isAborted s h = false /\
  Script.exec fuel (Script.OpRegister s (CbUser tag)) h = Script.Returned h'.
Proof.
  intros Hrun. destruct (EnhancedAbortSignal.isAborted s h) eqn:Ha.
  - cbn [Script.exec] in Hrun. unfold EnhancedAbortSignal.register_throwing in Hrun.
    rewrite Ha in Hrun. by destruct (invoke fuel (CbUser tag) h).
  - split; [done|]. by rewrite <- exec_register_throwing_live.
Qed.

(** C5 fails as stated: [register] raises when the signal is already
    aborted and the callback throws.  On a controller that has been
    aborted, [register] of such a callback ends by throwing what the
    callback threw. *)
Lemma C5_counterexample :
  let '(c, h) := EnhancedAbortController.new Obj.empty in
  exists h1,
    EnhancedAbortController.abort (invoke 1) c (VString "stop") h = Some h1 /\
    EnhancedAbortSignal.isAborted (EnhancedAbortController.signal c h1) h1 = true /\
    Script.exec 1 (Script.OpRegisterThrowing (EnhancedAbortController.signal c h1) 7) h1
      = Script.Threw (Script.ThrownByCallback 7) (Platform.log 7 h1).
Proof. vm_compute. eexists. repeat split. Qed.

(** C5, as the code has it.  A call on the public interface ends by
    throwing in two cases only: [throwIfAborted] on a signal that is
    already aborted, which throws an [AbortError] carrying the given
    message, or "The operation was aborted." when none is given, and
    changes nothing; and [register] on a signal that is already aborted
    with a callback that throws, which lets through what the callback
    threw, the callback having run and no registration being made.  No other call
    ([abort], [abortAfter], [dispose], [tryReset], [whenAborted], the
    combinators, [unregister], ...) throws.  Both cases occur, and only
    after the abort: on a fresh controller [throwIfAborted] returns;
    a callback that throws is registered as any other; [abort] then
    returns although that listener throws, and the listener registered
    after it has run as well; from then on [throwIfAborted] throws,
    [register] of the throwing callback throws, and [register] of a
    callback that returns runs it and returns.  The calls are those on
    the objects the library hands out; [unregister()] and [dispose()]
    on a registration the caller has built around a closure that throws
    let through what the closure throws. *)
Theorem C5_error_surface :
  (forall fuel o h x h',
     Script.exec fuel o h = Script.Threw x h' <->
     (exists s m,
        o = Script.OpThrowIfAborted s m /\
        EnhancedAbortSignal.isAborted s h = true /\
        x = Script.ThrownAbortError (AbortError.new m) /\
        h' = h) \/
     (exists s tag,
        o = Script.OpRegisterThrowing s tag /\
        EnhancedAbortSignal.isAborted s h = true /\
        1 <= fuel /\
        x = Script.ThrownByCallback tag /\
        h' = Platform.log tag h)) /\
  (forall m,
     AbortError.name (AbortError.new m) = "AbortError"%string /\
     AbortError.message (AbortError.new m) =
       match m with
       | Some custom => custom
       | None => "The operation was aborted."%string
       end) /\
  (forall fuel h0 t1 t2 r m,
     let '(c, h) := EnhancedAbortController.new h0 in
     let s := EnhancedAbortController.signal c h in
     Script.exec fuel (Script.OpThrowIfAborted s m) h = Script.Returned h /\
     exists h2 h3,
       Script.exec_all (S fuel)
         [Script.OpRegisterThrowing s t1; Script.OpRegister s (CbUser t2);
          Script.OpAbort c r] h = Script.Returned h2 /\
       trace h2 = trace h0 ++ [t1; t2] /\
       EnhancedAbortSignal.isAborted s h2 = true /\
       Script.exec fuel (Script.OpThrowIfAborted s m) h2
         = Script.Threw (Script.ThrownAbortError (AbortError.new m)) h2 /\
       Script.exec (S fuel) (Script.OpRegisterThrowing s t1) h2
         = Script.Threw (Script.ThrownByCallback t1) (Platform.log t1 h2) /\
       Script.exec (S fuel) (Script.OpRegister s (CbUser t2)) h2 = Script.Returned h3 /\
       trace h3 = trace h2 ++ [t2]) /\
  (forall fuel c n,
     AbortRegistration.perform Removal.run (S fuel) c
       (AbortRegistration.new Removal.Throwing, n)
     = AbortRegistration.Throws (AbortRegistration.new Removal.Throwing, S n)).
Proof.
  split; [|split; [|split]]; [| | |by intros fuel [] n].
  - intros fuel o h x h'. split.
    + destruct o; cbn [Script.exec]; unfold Script.returned;
        try discriminate;
        try (match goal with |- context [match ?y with _ => _ end] =>
               destruct y; discriminate end).
      * (* register, with a callback that throws *)
        unfold EnhancedAbortSignal.register_throwing.
        destruct (EnhancedAbortSignal.isAborted s h) eqn:Ha.
        -- destruct fuel as [|fuel]; [discriminate|]. cbn.
           intros [= <- <-]. right. exists s, tag. repeat split; try done. lia.
        -- by destruct (Platform.addEventListener _ _ _ _).
      * (* throwIfAborted *)
        unfold EnhancedAbortSignal.throwIfAborted.
        destruct (EnhancedAbortSignal.isAborted s h) eqn:Ha; [|discriminate].
        intros [= <- <-]. left. by exists s, customMessage.
    + intros [(s & m & -> & Ha & -> & ->)|(s & tag & -> & Ha & Hf & -> & ->)];
        cbn [Script.exec].
      * unfold EnhancedAbortSignal.throwIfAborted. by rewrite Ha.
      * unfold EnhancedAbortSignal.register_throwing. rewrite Ha.
        destruct fuel as [|fuel]; [lia|]. reflexivity.
  - intros m. split; reflexivity.
  - intros fuel h0 t1 t2 r m.
    pose proof (new_controller h0) as Hnew.
    destruct (EnhancedAbortController.new h0) as [c h].
    destruct Hnew as (-> & Hget & Hat & Hss & Hcs & _ & _ & Htr).
    set (c := length (controllers h0)) in *.
    set (n := length (signals h0)) in *.
    assert (Hn : n < length (signals h)).
    { rewrite Hss, length_app. cbn. unfold n. lia. }
    cbv zeta. unfold EnhancedAbortController.signal. rewrite Hget. cbn [_signal].
    assert (Hna : EnhancedAbortSignal.isAborted (EnhancedAbortSignal.new n) h = false).
    { unfold EnhancedAbortSignal.isAborted, Platform.aborted.
      cbn [abortSignal EnhancedAbortSignal.new]. by rewrite Hat. }
    split.
    { cbn [Script.exec]. unfold EnhancedAbortSignal.throwIfAborted. by rewrite Hna. }
    destruct (register_all_live (invoke (S fuel)) (EnhancedAbortSignal.new n)
                [CbUser t1; CbUser t2] h Hna Hn)
      as (h1 & Hreg & Hat1 & _ & Hlen1 & Hcs1 & _ & _ & Htr1).
    cbn [abortSignal EnhancedAbortSignal.new] in Hat1.
    rewrite Hat in Hat1. cbn [reason listeners app map] in Hat1.
    assert (Hget1 : EnhancedAbortController.get h1 c = EnhancedAbortController.get h c).
    { unfold EnhancedAbortController.get. by rewrite Hcs1. }
    destruct (abort_users fuel n r [t1; t2] h1) as
      (h2 & Hab & Htr2 & Hat2 & _ & _ & Hcs2 & _ & _); [by rewrite Hlen1 | done |].
    assert (Ha2 : EnhancedAbortSignal.isAborted (EnhancedAbortSignal.new n) h2 = true).
    { unfold EnhancedAbortSignal.isAborted, Platform.aborted.
      cbn [abortSignal EnhancedAbortSignal.new]. rewrite Hat2. cbn [reason].
      by destruct r. }
    exists h2, (Registration.new UnregNothing (Platform.log t2 h2)).2.
    split; [|split; [|split; [|split; [|split; [|split]]]]].
    + cbn [Script.register_all] in Hreg.
      destruct (EnhancedAbortSignal.register (invoke (S fuel)) (EnhancedAbortSignal.new n)
                  (CbUser t1) h) as [[r1 hx]|] eqn:H1; [|discriminate].
      cbn [mbind option_bind] in Hreg.
      destruct (EnhancedAbortSignal.register (invoke (S fuel)) (EnhancedAbortSignal.new n)
                  (CbUser t2) hx) as [[r2 hy]|] eqn:H2; [|discriminate].
      cbn [mbind option_bind] in Hreg. injection Hreg as ->.
      cbn [Script.exec_all]. rewrite exec_register_throwing_live by done.
      cbn [Script.exec]. rewrite H1. cbn [fmap option_fmap option_map snd Script.returned].
      rewrite H2. cbn [fmap option_fmap option_map snd Script.returned].
      unfold EnhancedAbortController.abort. rewrite Hget1, Hget. cbn [disposed].
      rewrite clearTimeout_idle by (by rewrite Hget1, Hget).
      rewrite Hget1, Hget. cbn [controller]. by rewrite Hab.
    + by rewrite Htr2, Htr1, Htr.
    + exact Ha2.
    + cbn [Script.exec]. unfold EnhancedAbortSignal.throwIfAborted. by rewrite Ha2.
    + cbn [Script.exec]. unfold EnhancedAbortSignal.register_throwing. by rewrite Ha2.
    + cbn [Script.exec]. unfold EnhancedAbortSignal.register. by rewrite Ha2.
    + reflexivity.
Qed.

(** ** Resetting a controller (C8) *)

(** What [tryReset()] does on a controller that is not disposed. *)
Lemma tryReset_live (c : nat) (h : heap) :
  disposed (EnhancedAbortController.get h c) = false ->
  let h' := (EnhancedAbortController.tryReset c h).2 in
  (EnhancedAbortController.tryReset c h).1 = true /\
  EnhancedAbortController.get h' c =
    {| controller := length (signals h);
       _signal := EnhancedAbortSignal.new (length (signals h));
       timeoutId := None; disposed := false |} /\
  signals h' = signals h ++ [{| reason := VUndefined; listeners := [] |}] /\
  length (controllers h') = length (controllers h) /\
  timers h' = timers (EnhancedAbortController.clearTimeout c h) /\
  microtasks h' = microtasks h /\
  trace h' = trace h.
Proof.
  intros Hd. cbv zeta. unfold EnhancedAbortController.tryReset. rewrite Hd.
  pose proof (live_allocated h c Hd) as Hc.
  cbn [Platform.new_AbortController fst snd].
  set (h1 := EnhancedAbortController.clearTimeout c h).
  assert (Hss1 : signals h1 = signals h) by apply clearTimeout_signals.
  assert (Hlen1 : length (controllers h1) = length (controllers h))
    by apply clearTimeout_controllers_length.
  split; [done|]. split; [|split; [|split; [|split; [|split]]]].
  - rewrite get_alter_controller. cbn [controllers with_signals].
    rewrite decide_True by (split; [done | by rewrite Hlen1]).
    change (EnhancedAbortController.get (with_signals _ h1) c)
      with (EnhancedAbortController.get h1 c).
    unfold h1. rewrite clearTimeout_get. fold h1. rewrite Hss1. cbn. by rewrite Hd.
  - cbn. by rewrite Hss1.
  - cbn. by rewrite length_alter.
  - reflexivity.
  - apply clearTimeout_microtasks.
  - apply clearTimeout_trace.
Qed.

(** C8: [tryReset()] on a controller that is not disposed (aborted or
    not) returns true, cancels the pending timer if there is one, and
    gives the controller a native controller and signal of its own that
    did not exist before: one signal is allocated, with no reason and
    no listener, no controller object is added, the controller reads as
    not aborted and not disposed, and the signals that existed before
    are untouched.  The new pair is the one the controller acts on from
    then on: [abort(reason)] after the reset aborts the controller
    through the new signal, stores the reason there and leaves the
    signals from before the reset as they were.  On a disposed
    controller [tryReset()] returns false and the heap is unchanged. *)
Theorem C8_tryReset (c : nat) (h : heap) :
  let '(ok, h') := EnhancedAbortController.tryReset c h in
  if EnhancedAbortController.isDisposed c h then ok = false /\ h' = h
  else
    ok = true /\
    signals h' = signals h ++ [{| reason := VUndefined; listeners := [] |}] /\
    length (controllers h') = length (controllers h) /\
    controller (EnhancedAbortController.get h' c) = length (signals h) /\
    EnhancedAbortController.signal c h' = EnhancedAbortSignal.new (length (signals h)) /\
    Platform.signal_at h' (length (signals h)) =
      {| reason := VUndefined; listeners := [] |} /\
    EnhancedAbortController.isAborted c h' = false /\
    EnhancedAbortSignal.isAborted (EnhancedAbortController.signal c h') h' = false /\
    EnhancedAbortController.reason c h' = VUndefined /\
    EnhancedAbortController.isDisposed c h' = false /\
    timeoutId (EnhancedAbortController.get h' c) = None /\
    (forall id, timeoutId (EnhancedAbortController.get h c) = Some id ->
                pending (timers h' !!! id) = false) /\
    (forall n, n < length (signals h) ->
               Platform.signal_at h' n = Platform.signal_at h n) /\
    trace h' = trace h /\
    (forall fuel r, exists h'',
       EnhancedAbortController.abort (invoke (S fuel)) c r h' = Some h'' /\
       EnhancedAbortController.isAborted c h'' = true /\
       EnhancedAbortSignal.isAborted (EnhancedAbortController.signal c h'') h'' = true /\
       EnhancedAbortController.reason c h'' =
         match r with VUndefined => VDOMException "AbortError" | _ => r end /\
       Platform.signal_at h'' (length (signals h)) =
         {| reason := match r with VUndefined => VDOMException "AbortError" | _ => r end;
            listeners := [] |} /\
       (forall n, n < length (signals h) ->
                  Platform.signal_at h'' n = Platform.signal_at h n) /\
       trace h'' = trace h).
Proof.
  pose proof (tryReset_live c h) as Hl. cbv zeta in Hl.
  unfold EnhancedAbortController.isDisposed.
  destruct (disposed (EnhancedAbortController.get h c)) eqn:Hd.
  { unfold EnhancedAbortController.tryReset. by rewrite Hd. }
  destruct (EnhancedAbortController.tryReset c h) as [ok h'].
  destruct (Hl eq_refl) as (Hok & Hget & Hss & Hcs & Hts & Hms & Htr).
  cbn [fst snd] in *. clear Hl.
  assert (Hat : Platform.signal_at h' (length (signals h)) =
            {| reason := VUndefined; listeners := [] |}).
  { unfold Platform.signal_at. rewrite Hss. by rewrite list_lookup_total_middle. }
  assert (Hold : forall n, n < length (signals h) ->
            Platform.signal_at h' n = Platform.signal_at h n).
  { intros n Hn. unfold Platform.signal_at. rewrite Hss. by rewrite lookup_total_app_l. }
  unfold EnhancedAbortController.signal, EnhancedAbortController.isAborted,
    EnhancedAbortController.reason, EnhancedAbortSignal.isAborted, Platform.aborted.
  rewrite !Hget. cbn [controller _signal timeoutId disposed abortSignal
                      EnhancedAbortSignal.new].
  rewrite !Hat. cbn [reason].
  split; [done|]. split; [done|]. split; [done|]. split; [done|]. split; [done|].
  split; [done|]. split; [done|]. split; [done|]. split; [done|]. split; [done|].
  split; [done|].
  split. { intros id Hid. rewrite Hts. by apply clearTimeout_cancels. }
  split; [exact Hold|]. split; [exact Htr|].
  intros fuel r.
  destruct (abort_users fuel (length (signals h)) r [] h') as
    (h'' & Hab & Htr'' & Hat'' & Hoth & _ & Hcs'' & _ & _).
  { rewrite Hss, length_app. cbn. lia. }
  { exact Hat. }
  exists h''. unfold EnhancedAbortController.abort.
  rewrite Hget. cbn [disposed].
  rewrite clearTimeout_idle by (by rewrite Hget).
  rewrite Hget. cbn [controller].
  assert (Hget'' : EnhancedAbortController.get h'' c = EnhancedAbortController.get h' c).
  { unfold EnhancedAbortController.get. by rewrite Hcs''. }
  rewrite !Hget'', !Hget. cbn [controller _signal abortSignal EnhancedAbortSignal.new].
  rewrite !Hat''. cbn [reason map].
  split; [exact Hab|]. split; [by destruct r|]. split; [by destruct r|].
  split; [done|]. split; [done|]. split.
  - intros n Hn. rewrite Hoth by lia. by apply Hold.
  - rewrite Htr'', Htr. apply app_nil_r.
Qed.

(** ** Linked controllers (C4) *)

(** A controller as its constructor left it aborts by aborting its
    native controller. *)
Lemma abort_live (call : callback -> heap -> option heap) (c n : nat) (r : value)
    (h : heap) :
  EnhancedAbortController.get h c = live_controller n ->
  EnhancedAbortController.abort call c r h = Platform.abort call n r h.
Proof.
  intros Hget. unfold EnhancedAbortController.abort. rewrite Hget. cbn [disposed live_controller].
  rewrite clearTimeout_idle by (by rewrite Hget). by rewrite Hget.
Qed.

(** Firing a signal with a single attached listener: the reason is
    stored, the listener is removed, then its callback runs. *)
Lemma abort_single (call : callback -> heap -> option heap) (n : nat) (r : value)
    (cb : callback) (h : heap) :
  n < length (signals h) ->
  Platform.signal_at h n = {| reason := VUndefined; listeners := [attached cb] |} ->
  Platform.abort call n r h =
    call cb
      (Platform.alter_signal
         (fun _ => {| reason := match r with
                                | VUndefined => VDOMException "AbortError"
                                | _ => r
                                end;
                      listeners := [Platform.mark_removed (attached cb)] |})
         n h).
Proof.
  intros Hn Hat. unfold Platform.abort, Platform.aborted. rewrite Hat. cbn [reason].
  unfold Platform.dispatchEvent. rewrite signal_at_alter_signal_eq by done.
  rewrite Hat. cbn [listeners length seq Platform.inner_invoke].
  rewrite signal_at_alter_signal_eq by done. rewrite Hat.
  cbn [listeners lookup_total list_lookup_total removed once handler attached].
  match goal with
  | |- match call cb ?x with _ => _ end = call cb ?y => replace x with y
  end.
  { by destruct (call cb _). }
  unfold Platform.removeEventListener, Platform.alter_listener, Platform.alter_signal,
    with_signals. cbn. f_equal.
  rewrite list_alter_alter_eq. apply list_alter_ext; [|done].
  intros x Hx. apply list_lookup_total_correct in Hx.
  unfold Platform.signal_at in Hat. rewrite Hat in Hx. subst x. reflexivity.
Qed.

Lemma NoDup_last_distinct (a b c d : nat) :
  NoDup [a; b; c; d] -> forall x, In x [a; b; c] -> x <> d.
Proof.
  intros Hd x Hx. apply NoDup_ListNoDup in Hd.
  inversion Hd as [|? ? Ha Hd1]; subst. inversion Hd1 as [|? ? Hb Hd2]; subst.
  inversion Hd2 as [|? ? Hc _]; subst.
  cbn in Hx, Ha, Hb, Hc. intros ->. intuition congruence.
Qed.

Section Linked.
Variables ia ib ic il na nb nc nl : nat.
Variables tags tr0 : list nat.

Local Abbreviation inv := (linked_inv ia ib ic il na nb nc nl tags tr0).

Local Abbreviation has_fired := (fired nl tags tr0).

Lemma linked_step (fuel x nx : nat) (r : value) (h : heap) :
  inv h ->
  In (x, nx) [(ia, na); (ib, nb); (ic, nc)] ->
  exists h',
    EnhancedAbortController.abort (invoke (3 + fuel)) x r h = Some h' /\
    inv h' /\ has_fired h'.
Proof.
  intros Hinv Hx.
  assert (Hgx : EnhancedAbortController.get h x = live_controller nx).
  { destruct Hinv. cbn in Hx. destruct Hx as [[= <- <-]|[[= <- <-]|[[= <- <-]|[]]]]; done. }
  assert (Hin : In nx [na; nb; nc]).
  { cbn in Hx |- *. destruct Hx as [[= <- <-]|[[= <- <-]|[[= <- <-]|[]]]]; auto. }
  assert (Hne : nx <> nl).
  { destruct Hinv as [_ _ _ _ Hd _ _ _]. by apply (NoDup_last_distinct na nb nc nl). }
  assert (Hvx : nx < length (signals h)).
  { destruct Hinv. apply inv_valid0. cbn in Hin |- *. tauto. }
  assert (Hvl : nl < length (signals h)).
  { destruct Hinv. apply inv_valid0. cbn. tauto. }
  rewrite (abort_live _ x nx r h Hgx).
  destruct (reason (Platform.signal_at h nx)) eqn:Hrx.
  2-4: (* the input has aborted before: nothing happens *)
    exists h; unfold Platform.abort, Platform.aborted; rewrite Hrx;
    split; [done|]; split; [done|];
    destruct Hinv as [_ _ _ _ _ _ _ [(_ & _ & Hall)|Hf]]; [|done];
    rewrite (Hall nx Hin) in Hrx; discriminate.
  (* the input aborts now *)
  assert (Hatx : Platform.signal_at h nx =
            {| reason := VUndefined; listeners := [attached (CbEnhancedAbort il)] |}).
  { destruct Hinv. pose proof (inv_inputs0 nx Hin Hrx) as Hl.
    destruct (Platform.signal_at h nx); cbn in *. by subst. }
  rewrite (abort_single _ nx r (CbEnhancedAbort il) h Hvx Hatx).
  set (h1 := Platform.alter_signal _ nx h).
  assert (Hcs1 : controllers h1 = controllers h) by reflexivity.
  assert (Htr1 : trace h1 = trace h) by reflexivity.
  assert (Hlen1 : length (signals h1) = length (signals h)).
  { unfold h1; cbn. apply length_alter. }
  assert (Hoth1 : forall m, m <> nx -> Platform.signal_at h1 m = Platform.signal_at h m).
  { intros m Hm. unfold h1. by rewrite signal_at_alter_signal_ne. }
  assert (Hrx1 : reason (Platform.signal_at h1 nx) <> VUndefined).
  { unfold h1. rewrite signal_at_alter_signal_eq by done. cbn. by destruct r. }
  assert (Hgl1 : EnhancedAbortController.get h1 il = live_controller nl).
  { unfold EnhancedAbortController.get. rewrite Hcs1. by destruct Hinv. }
  change (invoke (3 + fuel) (CbEnhancedAbort il) h1)
    with (EnhancedAbortController.abort (invoke (S (S fuel))) il VUndefined h1).
  rewrite (abort_live _ il nl VUndefined h1 Hgl1).
  (* what is left to show once the linked controller has been called *)
  assert (Hkeep : forall h2,
    controllers h2 = controllers h1 ->
    length (signals h2) = length (signals h1) ->
    (forall m, m <> nl -> Platform.signal_at h2 m = Platform.signal_at h1 m) ->
    has_fired h2 -> inv h2).
  { intros h2 Hcs2 Hlen2 Hoth2 Hf2. destruct Hinv.
    split; try (unfold EnhancedAbortController.get; by rewrite Hcs2, Hcs1); try done.
    - intros n Hn. rewrite Hlen2, Hlen1. by apply inv_valid0.
    - intros n Hn Hrn.
      assert (n <> nl) by (by apply (NoDup_last_distinct na nb nc nl)).
      rewrite Hoth2 in Hrn |- * by done.
      destruct (decide (n = nx)) as [->|Hnx]; [done|].
      rewrite Hoth1 in Hrn |- * by done. by apply inv_inputs0.
    - by right. }
  destruct (reason (Platform.signal_at h nl)) eqn:Hrl.
  2-4: (* the linked signal has fired before *)
    exists h1; unfold Platform.abort, Platform.aborted;
    rewrite Hoth1 by done; rewrite Hrl; split; [done|];
    assert (Hf1 : has_fired h1)
      by (destruct Hinv as [_ _ _ _ _ _ _ [(Hl & _)|(Hl & Ht)]];
          [rewrite Hl in Hrl; discriminate | split; [by rewrite Hoth1 | done]]);
    split; [by apply Hkeep | done].
  - (* the linked signal fires now *)
    assert (Hatl : Platform.signal_at h1 nl =
              {| reason := VUndefined;
                 listeners := map (fun t => attached (CbUser t)) tags |}).
    { rewrite Hoth1 by done.
      destruct Hinv as [_ _ _ _ _ _ _ [(Hl & _)|(Hl & _)]]; [done|].
      rewrite Hl in Hrl. discriminate. }
    destruct (abort_users (S fuel) nl VUndefined tags h1)
      as (h2 & Hab & Htr2 & Hat2 & Hoth2 & Hlen2 & Hcs2 & _ & _);
      [by rewrite Hlen1 | done |].
    exists h2. split; [exact Hab|].
    assert (Hf2 : has_fired h2).
    { split; [done|]. rewrite Htr2, Htr1.
      destruct Hinv as [_ _ _ _ _ _ _ [(_ & -> & _)|(Hl & _)]]; [done|].
      rewrite Hl in Hrl. discriminate. }
    split; [by apply Hkeep | done].
Qed.
End Linked.

(** Any sequence of aborts of the inputs keeps the invariant; a
    non-empty one leaves the linked signal fired. *)
Lemma linked_run (ia ib ic il na nb nc nl : nat) (tags tr0 : list nat)
    (fuel : nat) (calls : list (nat * value)) (h : heap) :
  linked_inv ia ib ic il na nb nc nl tags tr0 h ->
  Forall (fun call => In call.1 [ia; ib; ic]) calls ->
  exists h',
    Script.abort_all (invoke (3 + fuel)) calls h = Some h' /\
    linked_inv ia ib ic il na nb nc nl tags tr0 h' /\
    (calls <> [] -> fired nl tags tr0 h').
Proof.
  revert h. induction calls as [|[x r] rest IH]; intros h Hinv Hcalls.
  - exists h. split; [done|]. split; [done|]. intros Hne. by destruct Hne.
  - apply Forall_cons in Hcalls as [Hx Hrest]. cbn [fst] in Hx.
    assert (Hpair : exists nx, In (x, nx) [(ia, na); (ib, nb); (ic, nc)]).
    { cbn in Hx |- *. destruct Hx as [<-|[<-|[<-|[]]]]; eauto 6. }
    destruct Hpair as [nx Hpair].
    destruct (linked_step ia ib ic il na nb nc nl tags tr0 fuel x nx r h Hinv Hpair)
      as (h1 & Hab & Hinv1 & Hf1).
    destruct (IH h1 Hinv1 Hrest) as (h' & Hrun & Hinv' & Hf').
    exists h'. cbn [Script.abort_all]. rewrite Hab. cbn [mbind option_bind].
    split; [exact Hrun|]. split; [exact Hinv'|]. intros _.
    destruct rest as [|call rest']; [|by apply Hf'].
    cbn in Hrun. by injection Hrun as <-.
Qed.

(** Registering one callback on several signals that are not aborted
    appends one listener to each of them. *)
Lemma register_each_live (call : callback -> heap -> option heap) (cb : callback)
    (ss : list EnhancedAbortSignal) (h : heap) :
  Forall (fun s => EnhancedAbortSignal.isAborted s h = false /\
                   abortSignal s < length (signals h)) ss ->
  exists h',
    EnhancedAbortSignal.register_each call ss cb h = Some h' /\
    (forall m, reason (Platform.signal_at h' m) = reason (Platform.signal_at h m)) /\
    (forall m, listeners (Platform.signal_at h' m) =
       listeners (Platform.signal_at h m) ++
       map (fun _ => attached cb) (List.filter (fun s => abortSignal s =? m) ss)) /\
    length (signals h') = length (signals h) /\
    controllers h' = controllers h /\
    timers h' = timers h /\
    microtasks h' = microtasks h /\
    trace h' = trace h.
Proof.
  revert h. induction ss as [|s rest IH]; intros h Hall.
  - exists h. cbn. repeat split; try done. intros m. by rewrite app_nil_r.
  - apply Forall_cons in Hall as [[Ha Hn] Hrest].
    cbn [EnhancedAbortSignal.register_each]. rewrite register_live by done.
    cbn [mbind option_bind].
    set (h1 := with_registrations _ _).
    assert (Hat : forall m, Platform.signal_at h1 m =
              if decide (abortSignal s = m)
              then {| reason := reason (Platform.signal_at h m);
                      listeners := listeners (Platform.signal_at h m) ++ [attached cb] |}
              else Platform.signal_at h m).
    { intros m. unfold h1. rewrite signal_at_with_registrations, signal_at_alter_signal.
      destruct (decide (abortSignal s = m)) as [<-|Hm].
      - by rewrite decide_True.
      - by rewrite decide_False by tauto. }
    assert (Hre : forall m, reason (Platform.signal_at h1 m) = reason (Platform.signal_at h m)).
    { intros m. rewrite Hat. by case_decide. }
    assert (Hlen : length (signals h1) = length (signals h)).
    { unfold h1; cbn. apply length_alter. }
    destruct (IH h1) as (h' & -> & Hre' & Hls' & Hlen' & Hcs' & Hts' & Hms' & Htr').
    { eapply Forall_impl; [exact Hrest|]. intros x [Hx1 Hx2]. split.
      - unfold EnhancedAbortSignal.isAborted, Platform.aborted in *. by rewrite Hre.
      - by rewrite Hlen. }
    exists h'. split; [done|]. repeat split; try done.
    + intros m. by rewrite Hre', Hre.
    + intros m. rewrite Hls', Hat. cbn [List.filter].
      destruct (decide (abortSignal s = m)) as [<-|Hm].
      * rewrite Nat.eqb_refl. cbn [listeners map]. by rewrite <- app_assoc.
      * apply Nat.eqb_neq in Hm. by rewrite Hm.
    + by rewrite Hlen'.
Qed.

Lemma lookup_total_app_plus {A} `{!Inhabited A} (l1 l2 : list A) (i : nat) :
  (l1 ++ l2) !!! (length l1 + i) = l2 !!! i.
Proof. rewrite lookup_total_app_r by lia. f_equal. lia. Qed.

(** The heap after four controllers were constructed in a row. *)
Lemma four_controllers (h0 : heap) :
  let K := length (controllers h0) in
  let S := length (signals h0) in
  let '(a, h1) := EnhancedAbortController.new h0 in
  let '(b, h2) := EnhancedAbortController.new h1 in
  let '(c, h3) := EnhancedAbortController.new h2 in
  let '(l, h4) := EnhancedAbortController.new h3 in
  a = K /\ b = K + 1 /\ c = K + 2 /\ l = K + 3 /\
  controllers h3 =
    controllers h0 ++ [live_controller S; live_controller (S + 1);
                       live_controller (S + 2)] /\
  controllers h4 =
    controllers h0 ++ [live_controller S; live_controller (S + 1);
                       live_controller (S + 2); live_controller (S + 3)] /\
  signals h4 = signals h0 ++ [mkAbortSignal VUndefined []; mkAbortSignal VUndefined [];
                              mkAbortSignal VUndefined []; mkAbortSignal VUndefined []] /\
  timers h4 = timers h0 /\ microtasks h4 = microtasks h0 /\ trace h4 = trace h0.
Proof.
  unfold EnhancedAbortController.new. cbn.
  rewrite !length_app. cbn [length].
  rewrite <- !app_assoc. cbn [app].
  rewrite <- !Nat.add_assoc. cbn [Nat.add].
  repeat split; try done.
Qed.

(** Three fresh controllers, a controller linked to them, and caller
    callbacks on the linked signal: the starting state of the
    invariant. *)
Lemma linked_three_inv (call : callback -> heap -> option heap)
    (tags : list nat) (h0 : heap) :
  let K := length (controllers h0) in
  let S := length (signals h0) in
  exists h,
    Script.linked_three call (map CbUser tags) h0 = Some (K, K + 1, K + 2, K + 3, h) /\
    linked_inv K (K + 1) (K + 2) (K + 3) S (S + 1) (S + 2) (S + 3) tags (trace h0) h /\
    EnhancedAbortController.isAborted (K + 3) h = false /\
    trace h = trace h0.
Proof.
  intros K S.
  pose proof (four_controllers h0) as H4. cbv zeta in H4.
  unfold Script.linked_three, EnhancedAbortController.linkSignals.
  destruct (EnhancedAbortController.new h0) as [a h1].
  destruct (EnhancedAbortController.new h1) as [b h2].
  destruct (EnhancedAbortController.new h2) as [c h3].
  destruct (EnhancedAbortController.new h3) as [l h4].
  destruct H4 as (-> & -> & -> & -> & Hc3 & Hc4 & Hs4 & Hts4 & Hms4 & Htr4).
  fold K S in Hc3, Hc4, Hs4 |- *.
  assert (Hsig3 : EnhancedAbortController.signal K h3 = EnhancedAbortSignal.new S /\
                  EnhancedAbortController.signal (K + 1) h3 = EnhancedAbortSignal.new (S + 1) /\
                  EnhancedAbortController.signal (K + 2) h3 = EnhancedAbortSignal.new (S + 2)).
  { unfold EnhancedAbortController.signal, EnhancedAbortController.get. rewrite Hc3.
    unfold K. rewrite !lookup_total_app_plus.
    rewrite list_lookup_total_middle by reflexivity. done. }
  destruct Hsig3 as (-> & -> & ->).
  assert (Hat4 : forall i, i < 4 ->
            Platform.signal_at h4 (S + i) = {| reason := VUndefined; listeners := [] |}).
  { intros i Hi. unfold Platform.signal_at. rewrite Hs4. unfold S.
    rewrite lookup_total_app_plus.
    destruct i as [|[|[|[|i]]]]; [done..|lia]. }
  assert (Hlen4 : length (signals h4) = S + 4).
  { rewrite Hs4, length_app. done. }
  (* linking *)
  destruct (register_each_live call (CbEnhancedAbort (K + 3))
              [EnhancedAbortSignal.new S; EnhancedAbortSignal.new (S + 1);
               EnhancedAbortSignal.new (S + 2)] h4)
    as (h5 & -> & Hre5 & Hls5 & Hlen5 & Hcs5 & Hts5 & Hms5 & Htr5).
  { repeat apply Forall_cons_2; try apply Forall_nil_2; cbn beta;
      unfold EnhancedAbortSignal.isAborted, Platform.aborted;
      cbn [abortSignal EnhancedAbortSignal.new]; rewrite Hlen4.
    - rewrite <- (Nat.add_0_r S) at 1. rewrite Hat4 by lia. split; [done|lia].
    - rewrite Hat4 by lia. split; [done|lia].
    - rewrite Hat4 by lia. split; [done|lia]. }
  cbn [mbind option_bind].
  assert (Hget5 : forall x, controllers x = controllers h4 ->
            EnhancedAbortController.get x K = live_controller S /\
            EnhancedAbortController.get x (K + 1) = live_controller (S + 1) /\
            EnhancedAbortController.get x (K + 2) = live_controller (S + 2) /\
            EnhancedAbortController.get x (K + 3) = live_controller (S + 3)).
  { intros x Hx. unfold EnhancedAbortController.get. rewrite Hx, Hc4.
    unfold K. rewrite !lookup_total_app_plus.
    rewrite list_lookup_total_middle by reflexivity. done. }
  unfold EnhancedAbortController.signal.
  destruct (Hget5 h5 Hcs5) as (_ & _ & _ & ->). cbn [_signal live_controller].
  (* caller callbacks on the linked signal *)
  destruct (register_all_live call (EnhancedAbortSignal.new (S + 3)) (map CbUser tags) h5)
    as (h6 & -> & Hat6 & Hoth6 & Hlen6 & Hcs6 & _ & _ & Htr6).
  { unfold EnhancedAbortSignal.isAborted, Platform.aborted.
    cbn [abortSignal EnhancedAbortSignal.new]. by rewrite Hre5, Hat4 by lia. }
  { cbn [abortSignal EnhancedAbortSignal.new]. lia. }
  cbn [abortSignal EnhancedAbortSignal.new] in Hat6, Hoth6.
  rewrite Hre5, Hls5, Hat4 in Hat6 by lia.
  cbn [reason listeners List.filter abortSignal EnhancedAbortSignal.new] in Hat6.
  replace (S =? S + 3) with false in Hat6 by (symmetry; apply Nat.eqb_neq; lia).
  replace (S + 1 =? S + 3) with false in Hat6 by (symmetry; apply Nat.eqb_neq; lia).
  replace (S + 2 =? S + 3) with false in Hat6 by (symmetry; apply Nat.eqb_neq; lia).
  cbn [map app] in Hat6. rewrite map_map in Hat6.
  exists h6. split; [done|].
  destruct (Hget5 h6) as (Ha & Hb & Hc & Hl); [by rewrite Hcs6|].
  assert (Hin6 : forall i, i < 3 ->
            Platform.signal_at h6 (S + i) =
              {| reason := VUndefined; listeners := [attached (CbEnhancedAbort (K + 3))] |}).
  { intros i Hi. rewrite Hoth6 by lia.
    pose proof (Hre5 (S + i)) as Hr. pose proof (Hls5 (S + i)) as Hl5.
    rewrite Hat4 in Hr, Hl5 by lia.
    destruct (Platform.signal_at h5 (S + i)) as [re ls]. cbn in Hr, Hl5. subst re ls.
    f_equal. cbn [List.filter abortSignal EnhancedAbortSignal.new].
    destruct i as [|[|[|i]]]; [| | |lia].
    - rewrite Nat.add_0_r, Nat.eqb_refl.
      replace (S + 1 =? S) with false by (symmetry; apply Nat.eqb_neq; lia).
      replace (S + 2 =? S) with false by (symmetry; apply Nat.eqb_neq; lia). done.
    - rewrite Nat.eqb_refl.
      replace (S =? S + 1) with false by (symmetry; apply Nat.eqb_neq; lia).
      replace (S + 2 =? S + 1) with false by (symmetry; apply Nat.eqb_neq; lia). done.
    - rewrite Nat.eqb_refl.
      replace (S =? S + 2) with false by (symmetry; apply Nat.eqb_neq; lia).
      replace (S + 1 =? S + 2) with false by (symmetry; apply Nat.eqb_neq; lia). done. }
  assert (Hin6' : forall n, In n [S; S + 1; S + 2] ->
            Platform.signal_at h6 n =
              {| reason := VUndefined; listeners := [attached (CbEnhancedAbort (K + 3))] |}).
  { intros n [<-|[<-|[<-|[]]]].
    - rewrite <- (Nat.add_0_r S) at 1. apply Hin6. lia.
    - apply Hin6. lia.
    - apply Hin6. lia. }
  split; [|split].
  - split; try done.
    + apply NoDup_ListNoDup. repeat constructor; cbn; lia.
    + intros n Hn. rewrite Hlen6, Hlen5, Hlen4. cbn in Hn. lia.
    + intros n Hn _. by rewrite Hin6'.
    + left. split; [done|]. split.
      * by rewrite Htr6, Htr5.
      * intros n Hn. by rewrite Hin6'.
  - unfold EnhancedAbortController.isAborted, Platform.aborted. rewrite Hl.
    cbn [controller live_controller]. by rewrite Hat6.
  - by rewrite Htr6, Htr5.
Qed.

(** C4 fails as stated: with [a.abort("a")] then [c.abort("c")], the
    linked controller's reason is the platform's default "AbortError"
    exception, not the reason of the first (or of any) input. *)
Lemma C4_counterexample :
  exists h h',
    Script.linked_three (invoke 3) [CbUser 7] Obj.empty = Some (0, 1, 2, 3, h) /\
    Script.abort_all (invoke 3) [(0, VString "a"); (2, VString "c")] h = Some h' /\
    EnhancedAbortController.reason 0 h' = VString "a" /\
    EnhancedAbortController.reason 3 h' = VDOMException "AbortError" /\
    EnhancedAbortController.reason 3 h' <> EnhancedAbortController.reason 0 h'.
Proof.
  eexists _, _. split; [vm_compute; reflexivity|].
  split; [vm_compute; reflexivity|]. vm_compute. repeat split. discriminate.
Qed.

(** C4 (amended): for three fresh controllers [a], [b], [c] and a
    controller linked to their signals by [linkSignals], with any
    caller callbacks registered on the linked signal: aborting any
    non-empty sequence of the inputs, with any reasons, fires the
    linked signal exactly once (each callback runs once, in order), and
    the linked controller's reason is the platform's default
    "AbortError" exception, whatever reasons the inputs were given. *)
Theorem C4_linked_fires_once_default_reason
    (fuel : nat) (h0 : heap) (tags : list nat) (calls : list (nat * value)) :
  let K := length (controllers h0) in
  calls <> [] ->
  Forall (fun call => In call.1 [K; K + 1; K + 2]) calls ->
  exists h h',
    Script.linked_three (invoke (3 + fuel)) (map CbUser tags) h0
      = Some (K, K + 1, K + 2, K + 3, h) /\
    trace h = trace h0 /\
    EnhancedAbortController.isAborted (K + 3) h = false /\
    Script.abort_all (invoke (3 + fuel)) calls h = Some h' /\
    trace h' = trace h0 ++ tags /\
    EnhancedAbortController.isAborted (K + 3) h' = true /\
    EnhancedAbortController.reason (K + 3) h' = VDOMException "AbortError".
Proof.
  intros K Hne Hcalls. subst K.
  destruct (linked_three_inv (invoke (3 + fuel)) tags h0)
    as (h & Hsetup & Hinv & Hna & Htr).
  destruct (linked_run _ _ _ _ _ _ _ _ tags (trace h0) fuel calls h Hinv Hcalls)
    as (h' & Hrun & Hinv' & Hf).
  destruct (Hf Hne) as [Hat Htr'].
  exists h, h'. repeat split; try done.
  - unfold EnhancedAbortController.isAborted, Platform.aborted.
    rewrite (inv_l _ _ _ _ _ _ _ _ _ _ _ Hinv'). cbn [controller live_controller].
    by rewrite Hat.
  - unfold EnhancedAbortController.reason.
    rewrite (inv_l _ _ _ _ _ _ _ _ _ _ _ Hinv'). cbn [controller live_controller].
    by rewrite Hat.
Qed.

Lemma C4_witness :
  exists h h',
    Script.linked_three (invoke 3) (map CbUser [7; 8]) Obj.empty
      = Some (0, 1, 2, 3, h) /\
    trace h = [] /\
    EnhancedAbortController.isAborted 3 h = false /\
    Script.abort_all (invoke 3) [(0, VString "a"); (2, VString "c"); (0, VUndefined)] h
      = Some h' /\
    trace h' = [7; 8] /\
    EnhancedAbortController.isAborted 3 h' = true /\
    EnhancedAbortController.reason 3 h' = VDOMException "AbortError".
Proof.
  apply (C4_linked_fires_once_default_reason 0 Obj.empty [7; 8]
           [(0, VString "a"); (2, VString "c"); (0, VUndefined)]).
  - discriminate.
  - repeat apply Forall_cons_2; try apply Forall_nil_2; cbn; tauto.
Defined.

(** ** What calling a closure can change *)

(** A property of heaps that survives the four things a closure call
    does (altering a signal, logging, resolving a promise, and a
    controller clearing its timer slot) survives every closure call. *)
Section InvokePreserves.
Variable P : heap -> Prop.
Hypothesis P_alter_signal : forall f n h, P h -> P (Platform.alter_signal f n h).
Hypothesis P_log : forall tag h, P h -> P (Platform.log tag h).
Hypothesis P_resolve : forall p h, P h -> P (Platform.resolve p h).
Hypothesis P_clearTimeout :
  forall c h, P h -> P (EnhancedAbortController.clearTimeout c h).

Lemma inner_invoke_preserves (call : callback -> heap -> option heap) (n : nat) :
  (forall cb h h', P h -> call cb h = Some h' -> P h') ->
  forall ids h h', P h -> Platform.inner_invoke call n ids h = Some h' -> P h'.
Proof.
  intros Hcall ids. induction ids as [|i rest IH]; intros h h' HP Hrun.
  - cbn in Hrun. by injection Hrun as <-.
  - cbn [Platform.inner_invoke] in Hrun.
    destruct (removed (listeners (Platform.signal_at h n) !!! i)); [by eapply IH|].
    match type of Hrun with
    | match call _ ?x with _ => _ end = _ =>
        assert (HP1 : P x);
        [|destruct (call (handler (listeners (Platform.signal_at h n) !!! i)) x)
            as [h2|] eqn:Hc; [|discriminate]]
    end.
    { destruct (once _); [|done]. by apply P_alter_signal. }
    eapply IH; [|exact Hrun]. by eapply Hcall.
Qed.

Lemma platform_abort_preserves (call : callback -> heap -> option heap)
    (n : nat) (r : value) (h h' : heap) :
  (forall cb h h', P h -> call cb h = Some h' -> P h') ->
  P h -> Platform.abort call n r h = Some h' -> P h'.
Proof.
  intros Hcall HP. unfold Platform.abort.
  destruct (Platform.aborted h n); [by intros [= <-]|].
  unfold Platform.dispatchEvent. apply inner_invoke_preserves; [done|].
  by apply P_alter_signal.
Qed.

Lemma controller_abort_preserves (call : callback -> heap -> option heap)
    (c : nat) (r : value) (h h' : heap) :
  (forall cb h h', P h -> call cb h = Some h' -> P h') ->
  P h -> EnhancedAbortController.abort call c r h = Some h' -> P h'.
Proof.
  intros Hcall HP. unfold EnhancedAbortController.abort.
  destruct (disposed (EnhancedAbortController.get h c)); [by intros [= <-]|].
  apply platform_abort_preserves; [done|]. by apply P_clearTimeout.
Qed.

Lemma invoke_preserves (fuel : nat) :
  forall cb h h', P h -> invoke fuel cb h = Some h' -> P h'.
Proof.
  induction fuel as [|fuel IH]; intros cb h h' HP Hrun; [discriminate|].
  destruct cb; cbn [invoke] in Hrun.
  - injection Hrun as <-. by apply P_log.
  - injection Hrun as <-. by apply P_resolve.
  - by eapply platform_abort_preserves.
  - by eapply controller_abort_preserves.
Qed.
End InvokePreserves.

(** ** Fuel

    More fuel never changes what a closure call returns. *)

Lemma inner_invoke_mono (call call' : callback -> heap -> option heap) (n : nat) :
  (forall cb h h', call cb h = Some h' -> call' cb h = Some h') ->
  forall ids h h',
    Platform.inner_invoke call n ids h = Some h' ->
    Platform.inner_invoke call' n ids h = Some h'.
Proof.
  intros Hcall ids. induction ids as [|i rest IH]; intros h h' Hrun; [done|].
  cbn [Platform.inner_invoke] in Hrun |- *.
  destruct (removed (listeners (Platform.signal_at h n) !!! i)); [by apply IH|].
  destruct (call _ _) as [h2|] eqn:Hc; [|discriminate].
  rewrite (Hcall _ _ _ Hc). by apply IH.
Qed.

Lemma invoke_mono (fuel : nat) :
  forall cb h h', invoke fuel cb h = Some h' -> invoke (S fuel) cb h = Some h'.
Proof.
  induction fuel as [|fuel IH]; intros cb h h' Hrun; [discriminate|].
  destruct cb as [tag|p|n|c]; cbn [invoke] in Hrun |- *; try done.
  - revert Hrun. unfold Platform.abort.
    destruct (Platform.aborted h n); [done|].
    unfold Platform.dispatchEvent. by apply inner_invoke_mono.
  - revert Hrun. unfold EnhancedAbortController.abort.
    destruct (disposed (EnhancedAbortController.get h c)); [done|].
    unfold Platform.abort.
    destruct (Platform.aborted _ _); [done|].
    unfold Platform.dispatchEvent. by apply inner_invoke_mono.
Qed.

Lemma invoke_le (fuel fuel' : nat) (cb : callback) (h h' : heap) :
  fuel <= fuel' -> invoke fuel cb h = Some h' -> invoke fuel' cb h = Some h'.
Proof.
  intros Hle Hrun. induction Hle as [|m Hle IH]; [done|]. by apply invoke_mono.
Qed.

(** ** One deferred abort per controller *)

Lemma own_timers_ext (h h' : heap) :
  timers h' = timers h -> controllers h' = controllers h ->
  own_timers h -> own_timers h'.
Proof.
  intros Ht Hc Hown id c. unfold EnhancedAbortController.get. rewrite Ht, Hc.
  apply Hown.
Qed.

Ltac own_ext := eapply own_timers_ext; [reflexivity | reflexivity | eassumption].

Lemma own_timers_alter_controller
    (f : EnhancedAbortController -> EnhancedAbortController) (c : nat) (h : heap) :
  (forall o, timeoutId (f o) = timeoutId o) ->
  own_timers h -> own_timers (EnhancedAbortController.alter_controller f c h).
Proof.
  intros Hf Hown id c' Hp Hh. rewrite get_alter_controller.
  case_decide as Hc; [destruct Hc as [<- _]; rewrite Hf|]; by apply Hown.
Qed.

Lemma own_timers_platform_clearTimeout (id : nat) (h : heap) :
  own_timers h -> own_timers (Platform.clearTimeout id h).
Proof.
  intros Hown id' c. unfold Platform.clearTimeout; cbn [timers with_timers].
  change (EnhancedAbortController.get (with_timers _ h) c)
    with (EnhancedAbortController.get h c).
  rewrite list_lookup_total_alter. case_decide; [done|]. apply Hown.
Qed.

Lemma own_timers_clearTimeout (c : nat) (h : heap) :
  own_timers h -> own_timers (EnhancedAbortController.clearTimeout c h).
Proof.
  intros Hown. unfold EnhancedAbortController.clearTimeout.
  destruct (timeoutId (EnhancedAbortController.get h c)) as [tid|] eqn:Hslot; [|done].
  intros id c'. rewrite get_alter_controller.
  cbn [timers controllers EnhancedAbortController.alter_controller with_controllers
         Platform.clearTimeout with_timers].
  change (EnhancedAbortController.get (Platform.clearTimeout tid h))
    with (EnhancedAbortController.get h).
  rewrite list_lookup_total_alter.
  destruct (decide (tid = id /\ tid < length (timers h))) as [_|Hne]; [done|].
  intros Hp Hh. pose proof (Hown id c' Hp Hh) as Hslot'.
  case_decide as Hc; [|done]. destruct Hc as [<- _].
  rewrite Hslot in Hslot'. injection Hslot' as ->.
  destruct (decide (id < length (timers h))) as [|Hge]; [tauto|].
  rewrite list_lookup_total_alt, lookup_ge_None_2 in Hp by lia. discriminate.
Qed.

Lemma own_timers_setTimeout_native (n ms : nat) (h : heap) :
  own_timers h -> own_timers (Platform.setTimeout (CbNativeAbort n) ms h).2.
Proof.
  intros Hown id c. cbn.
  change (EnhancedAbortController.get (with_timers _ h) c)
    with (EnhancedAbortController.get h c).
  destruct (decide (id < length (timers h))) as [Hlt|Hge].
  - rewrite lookup_total_app_l by done. apply Hown.
  - rewrite lookup_total_app_r by lia.
    destruct (id - length (timers h)) as [|[|k]]; cbn; discriminate.
Qed.

Lemma own_timers_abortAfter (c ms : nat) (h : heap) :
  own_timers h -> own_timers (EnhancedAbortController.abortAfter c ms h).
Proof.
  intros Hown. unfold EnhancedAbortController.abortAfter.
  destruct (disposed (EnhancedAbortController.get h c)) eqn:Hd; [done|].
  pose proof (own_timers_clearTimeout c h Hown) as Hown1.
  pose proof (clearTimeout_get c h) as Hslot1.
  pose proof (clearTimeout_controllers_length c h) as Hlen1.
  pose proof (live_allocated h c Hd) as Hc.
  set (h1 := EnhancedAbortController.clearTimeout c h) in *.
  cbn [Platform.setTimeout].
  intros id c'. rewrite get_alter_controller.
  cbn [timers controllers EnhancedAbortController.alter_controller with_controllers
         with_timers].
  change (EnhancedAbortController.get (with_timers _ h1))
    with (EnhancedAbortController.get h1).
  rewrite (decide_ext _ (c = c')) by (rewrite Hlen1; tauto).
  destruct (decide (id < length (timers h1))) as [Hlt|Hge].
  - rewrite lookup_total_app_l by done. intros Hp Hh.
    pose proof (Hown1 id c' Hp Hh) as Hslot.
    case_decide as Hcc; [|done]. subst c'.
    rewrite Hslot1 in Hslot. discriminate.
  - rewrite lookup_total_app_r by lia.
    destruct (id - length (timers h1)) as [|k] eqn:Hk; cbn.
    + intros _ [= <-]. rewrite decide_True by done. cbn. f_equal. lia.
    + destruct k; cbn; discriminate.
Qed.

Lemma own_timers_dispose (c : nat) (h : heap) :
  own_timers h -> own_timers (EnhancedAbortController.dispose c h).
Proof.
  intros Hown. unfold EnhancedAbortController.dispose.
  destruct (disposed (EnhancedAbortController.get h c)); [done|].
  apply own_timers_clearTimeout. by apply own_timers_alter_controller.
Qed.

Lemma own_timers_tryReset (c : nat) (h : heap) :
  own_timers h -> own_timers (EnhancedAbortController.tryReset c h).2.
Proof.
  intros Hown. unfold EnhancedAbortController.tryReset.
  destruct (disposed (EnhancedAbortController.get h c)); [done|].
  cbn. apply own_timers_alter_controller; [done|].
  pose proof (own_timers_clearTimeout c h Hown). own_ext.
Qed.

Lemma own_timers_new (h : heap) :
  own_timers h -> own_timers (EnhancedAbortController.new h).2.
Proof.
  intros Hown id c Hp Hh. cbn in Hp, Hh.
  pose proof (Hown id c Hp Hh) as Hslot.
  unfold EnhancedAbortController.get in *. cbn.
  destruct (decide (c < length (controllers h))) as [Hlt|Hge].
  - by rewrite lookup_total_app_l.
  - rewrite list_lookup_total_alt, lookup_ge_None_2 in Hslot by lia. discriminate.
Qed.

Lemma own_timers_invoke (fuel : nat) (cb : callback) (h h' : heap) :
  own_timers h -> invoke fuel cb h = Some h' -> own_timers h'.
Proof.
  apply (invoke_preserves own_timers).
  - intros. own_ext.
  - intros. own_ext.
  - intros. own_ext.
  - apply own_timers_clearTimeout.
Qed.

Lemma own_timers_platform_abort (fuel n : nat) (r : value) (h h' : heap) :
  own_timers h -> Platform.abort (invoke fuel) n r h = Some h' -> own_timers h'.
Proof.
  intros Hown Ha.
  eapply (platform_abort_preserves own_timers); [..|exact Ha];
    first [ exact Hown
          | by intros; own_ext
          | by intros; eapply own_timers_invoke ].
Qed.

Lemma own_timers_controller_abort (fuel c : nat) (r : value) (h h' : heap) :
  own_timers h ->
  EnhancedAbortController.abort (invoke fuel) c r h = Some h' -> own_timers h'.
Proof.
  intros Hown Ha.
  eapply (controller_abort_preserves own_timers); [..|exact Ha];
    first [ exact Hown
          | apply own_timers_clearTimeout
          | by intros; own_ext
          | by intros; eapply own_timers_invoke ].
Qed.

Lemma own_timers_register (fuel : nat) (s : EnhancedAbortSignal) (cb : callback)
    (h : heap) (r : nat) (h' : heap) :
  own_timers h ->
  EnhancedAbortSignal.register (invoke fuel) s cb h = Some (r, h') -> own_timers h'.
Proof.
  intros Hown. unfold EnhancedAbortSignal.register.
  destruct (EnhancedAbortSignal.isAborted s h).
  - destruct (invoke fuel cb h) as [h1|] eqn:Hc; [|discriminate].
    intros [= _ <-]. pose proof (own_timers_invoke _ _ _ _ Hown Hc). own_ext.
  - intros [= _ <-]. own_ext.
Qed.

Lemma own_timers_register_each (fuel : nat) (cb : callback)
    (ss : list EnhancedAbortSignal) (h h' : heap) :
  own_timers h ->
  EnhancedAbortSignal.register_each (invoke fuel) ss cb h = Some h' -> own_timers h'.
Proof.
  revert h. induction ss as [|s rest IH]; intros h Hown Hrun.
  - cbn in Hrun. by injection Hrun as <-.
  - cbn [EnhancedAbortSignal.register_each] in Hrun.
    destruct (EnhancedAbortSignal.register (invoke fuel) s cb h) as [[r h1]|] eqn:Hr;
      [|discriminate].
    eapply IH; [|exact Hrun]. by eapply own_timers_register.
Qed.

Lemma own_timers_unregister (r : nat) (h : heap) :
  own_timers h -> own_timers (Registration.unregister r h).
Proof.
  intros Hown. rewrite unregister_unfold.
  destruct (AbortRegistration.disposed (Registration.get h r));
    [own_ext|].
  destruct (AbortRegistration.unregisterCallback (Registration.get h r)) as [[|n i]|];
    own_ext.
Qed.

Lemma own_timers_run_microtasks (h : heap) :
  own_timers h -> own_timers (EventLoop.run_microtasks h).
Proof.
  intros Hown. unfold EventLoop.run_microtasks.
  assert (Hfold : forall js h0, own_timers h0 ->
            own_timers (fold_left (fun h' j => EventLoop.run_job j h') js h0)).
  { induction js as [|[r] js IH]; intros h0 H0; [done|].
    cbn. apply IH. by apply own_timers_unregister. }
  pose proof (Hfold (microtasks h) h Hown). own_ext.
Qed.

Lemma own_timers_run_timers (fuel : nat) (ids : list nat) (h h' : heap) :
  own_timers h -> EventLoop.run_timers (invoke fuel) ids h = Some h' -> own_timers h'.
Proof.
  revert h. induction ids as [|id rest IH]; intros h Hown Hrun.
  - cbn in Hrun. by injection Hrun as <-.
  - cbn [EventLoop.run_timers] in Hrun.
    destruct (pending (timers h !!! id) && (due (timers h !!! id) <=? now h));
      [|by eapply IH].
    destruct (invoke fuel _ _) as [h1|] eqn:Hc; [|discriminate].
    eapply IH; [|exact Hrun]. apply own_timers_run_microtasks.
    eapply own_timers_invoke; [|exact Hc]. by apply own_timers_platform_clearTimeout.
Qed.

Lemma own_timers_advance (fuel ms : nat) (h h' : heap) :
  own_timers h -> EventLoop.advance (invoke fuel) ms h = Some h' -> own_timers h'.
Proof.
  revert h. induction ms as [|ms IH]; intros h Hown Hrun;
    cbn [EventLoop.advance] in Hrun; unfold EventLoop.turn in Hrun.
  - eapply own_timers_run_timers; [|exact Hrun]. by apply own_timers_run_microtasks.
  - destruct (EventLoop.run_timers _ _ _) as [h1|] eqn:Ht; [|discriminate].
    cbn in Hrun. eapply IH; [|exact Hrun].
    assert (own_timers h1).
    { eapply own_timers_run_timers; [|exact Ht]. by apply own_timers_run_microtasks. }
    own_ext.
Qed.

(** Every call on the public interface keeps the invariant. *)
Lemma own_timers_exec (fuel : nat) (o : Script.op) (h h' : heap) :
  own_timers h -> Script.exec fuel o h = Script.Returned h' -> own_timers h'.
Proof.
  intros Hown. destruct o; cbn [Script.exec]; unfold Script.returned.
  - intros [= <-]. by apply own_timers_new.
  - destruct (EnhancedAbortController.abort _ _ _ _) as [h1|] eqn:Ha; [|discriminate].
    intros [= <-]. by eapply own_timers_controller_abort.
  - intros [= <-]. by apply own_timers_abortAfter.
  - intros [= <-]. by apply own_timers_abortAfter.
  - intros [= <-]. by apply own_timers_dispose.
  - intros [= <-]. by apply own_timers_tryReset.
  - unfold EnhancedAbortController.linkSignals.
    destruct (EnhancedAbortController.new h) as [c h1] eqn:Hn.
    destruct (EnhancedAbortSignal.register_each _ _ _ _) as [h2|] eqn:Hr; [|discriminate].
    cbn. intros [= <-]. eapply own_timers_register_each; [|exact Hr].
    replace h1 with (EnhancedAbortController.new h).2 by (by rewrite Hn).
    by apply own_timers_new.
  - unfold EnhancedAbortController.createLinkedController,
      EnhancedAbortController.linkSignals.
    destruct (EnhancedAbortController.new h) as [c h1] eqn:Hn.
    destruct (EnhancedAbortSignal.register_each _ _ _ _) as [h2|] eqn:Hr; [|discriminate].
    cbn. intros [= <-]. eapply own_timers_register_each; [|exact Hr].
    replace h1 with (EnhancedAbortController.new h).2 by (by rewrite Hn).
    by apply own_timers_new.
  - unfold EnhancedAbortController.timeout.
    destruct (EnhancedAbortController.new h) as [c h1] eqn:Hn.
    cbn. intros [= <-]. apply own_timers_abortAfter.
    replace h1 with (EnhancedAbortController.new h).2 by (by rewrite Hn).
    by apply own_timers_new.
  - destruct (EnhancedAbortSignal.register _ _ _ _) as [[r h1]|] eqn:Hr; [|discriminate].
    cbn. intros [= <-]. by eapply own_timers_register.
  - change (Script.exec fuel (Script.OpRegisterThrowing s tag) h = Script.Returned h'
            -> own_timers h').
    intros Hrun. apply exec_register_throwing_returned in Hrun as [_ Hrun].
    cbn [Script.exec] in Hrun. unfold Script.returned in Hrun.
    destruct (EnhancedAbortSignal.register _ _ _ _) as [[r h1]|] eqn:Hr; [|discriminate].
    cbn in Hrun. injection Hrun as <-. by eapply own_timers_register.
  - unfold EnhancedAbortSignal.whenAborted.
    destruct (EnhancedAbortSignal.isAborted s h).
    + cbn. intros [= <-]. own_ext.
    + cbn [Platform.new_Promise].
      destruct (EnhancedAbortSignal.register _ _ _ _) as [[r h1]|] eqn:Hr; [|discriminate].
      cbn. intros [= <-].
      assert (own_timers h1).
      { eapply own_timers_register; [|exact Hr]. own_ext. }
      own_ext.
  - unfold EnhancedAbortSignal.throwIfAborted.
    destruct (EnhancedAbortSignal.isAborted s h); [discriminate|]. by intros [= <-].
  - intros [= <-]. own_ext.
  - unfold EnhancedAbortSignal.aborted_. cbn [Platform.new_AbortController].
    destruct (Platform.abort _ _ _ _) as [h1|] eqn:Ha; [|discriminate].
    cbn. intros [= <-].
    eapply own_timers_platform_abort; [|exact Ha]. own_ext.
  - intros [= <-]. unfold EnhancedAbortSignal.timeout.
    cbn [Platform.new_AbortController].
    apply (own_timers_setTimeout_native (length (signals h)) ms
             (with_signals
                (fun ss => ss ++ [{| reason := VUndefined; listeners := [] |}]) h)).
    own_ext.
  - unfold EnhancedAbortSignal.any. cbn [Platform.new_AbortController].
    destruct (EnhancedAbortSignal.register_each _ _ _ _) as [h2|] eqn:Hr; [|discriminate].
    cbn. intros [= <-]. eapply own_timers_register_each; [|exact Hr]. own_ext.
  - intros [= <-]. by apply own_timers_unregister.
  - intros [= <-]. by apply own_timers_unregister.
  - destruct (EventLoop.advance _ _ _) as [h1|] eqn:Ha; [|discriminate].
    intros [= <-]. by eapply own_timers_advance.
Qed.

Lemma own_timers_exec_all (fuel : nat) (ops : list Script.op) (h h' : heap) :
  own_timers h -> Script.exec_all fuel ops h = Script.Returned h' -> own_timers h'.
Proof.
  revert h. induction ops as [|o rest IH]; intros h Hown Hrun.
  - cbn in Hrun. by injection Hrun as <-.
  - cbn [Script.exec_all] in Hrun.
    destruct (Script.exec fuel o h) as [h1| |] eqn:He; try discriminate.
    eapply IH; [|exact Hrun]. by eapply own_timers_exec.
Qed.

(** ** Time and the deferred abort (C9) *)

Lemma run_timers_not_due (call : callback -> heap -> option heap)
    (ids : list nat) (h : heap) :
  (forall id, pending (timers h !!! id) = true -> now h < due (timers h !!! id)) ->
  EventLoop.run_timers call ids h = Some h.
Proof.
  intros Hp. induction ids as [|id rest IH]; [done|].
  cbn [EventLoop.run_timers].
  destruct (pending (timers h !!! id)) eqn:Hpe; [|done].
  apply Hp in Hpe. apply Nat.leb_gt in Hpe. by rewrite Hpe.
Qed.

(** While no pending timer is due, time passes and nothing else
    happens. *)
Lemma advance_idle (call : callback -> heap -> option heap) (ms : nat) (h : heap) :
  microtasks h = [] ->
  (forall id, pending (timers h !!! id) = true -> now h + ms < due (timers h !!! id)) ->
  EventLoop.advance call ms h = Some (with_now (fun t => ms + t) h).
Proof.
  revert h. induction ms as [|ms IH]; intros h Hm Hp; cbn [EventLoop.advance];
    unfold EventLoop.turn; rewrite run_microtasks_idle by done;
    rewrite run_timers_not_due by (intros id Hid; apply Hp in Hid; lia).
  - by destruct h.
  - cbn [mbind option_bind]. rewrite IH.
    + unfold with_now; cbn. do 2 f_equal. lia.
    + done.
    + intros id Hid. cbn in Hid |- *. apply Hp in Hid. lia.
Qed.

Lemma advance_split (call : callback -> heap -> option heap) (a b : nat) (h : heap) :
  EventLoop.advance call (a + S b) h =
    h' ← EventLoop.advance call a h; EventLoop.advance call b (with_now S h').
Proof.
  revert h. induction a as [|a IH]; intros h; cbn [Nat.add EventLoop.advance].
  - done.
  - destruct (EventLoop.turn call h) as [h1|]; [|done]. cbn [mbind option_bind].
    apply IH.
Qed.

(** A turn in which exactly one timer fires, leaving nothing
    scheduled. *)
Lemma run_timers_only (call : callback -> heap -> option heap)
    (id : nat) (ids : list nat) (h h5 : heap) :
  (forall id', id' <> id -> pending (timers h !!! id') = false) ->
  pending (timers h !!! id) = true ->
  due (timers h !!! id) <= now h ->
  In id ids ->
  call (timer_handler (timers h !!! id)) (Platform.clearTimeout id h) = Some h5 ->
  quiescent h5 ->
  EventLoop.run_timers call ids h = Some h5.
Proof.
  intros Hoth Hp Hdue Hin Hcall Hq.
  induction ids as [|i rest IH]; [done|].
  cbn [EventLoop.run_timers].
  destruct (decide (i = id)) as [->|Hne].
  - apply Nat.leb_le in Hdue. rewrite Hp, Hdue, Hcall. cbn.
    destruct Hq as [Hm Hq]. rewrite run_microtasks_idle by done.
    by apply run_timers_idle.
  - rewrite Hoth by done. cbn. apply IH. by destruct Hin.
Qed.

Lemma advance_after_turn (call : callback -> heap -> option heap)
    (k : nat) (h h' : heap) :
  EventLoop.turn call h = Some h' -> quiescent h' ->
  EventLoop.advance call k h = Some (with_now (fun t => k + t) h').
Proof.
  intros Ht Hq. destruct k as [|k]; cbn [EventLoop.advance]; rewrite Ht.
  - by destruct h'.
  - cbn [mbind option_bind]. rewrite advance_quiescent by (destruct Hq; by split).
    unfold with_now; cbn. do 2 f_equal. lia.
Qed.

(** A heap whose only pending timer is [id], due at [D] in the future:
    nothing happens before [D]; from [D] on the timer has fired. *)
Lemma advance_single_timer (call : callback -> heap -> option heap)
    (id D t : nat) (h : heap) :
  microtasks h = [] ->
  (forall id', id' <> id -> pending (timers h !!! id') = false) ->
  pending (timers h !!! id) = true ->
  due (timers h !!! id) = D ->
  id < length (timers h) ->
  now h < D ->
  (now h + t < D ->
   EventLoop.advance call t h = Some (with_now (fun x => t + x) h)) /\
  (D <= now h + t ->
   forall h5,
     call (timer_handler (timers h !!! id))
       (Platform.clearTimeout id (with_now (fun _ => D) h)) = Some h5 ->
     quiescent h5 ->
     EventLoop.advance call t h = Some (with_now (fun x => (now h + t - D) + x) h5)).
Proof.
  intros Hm Hoth Hp Hdue Hid Hnow. split.
  - intros Ht. apply advance_idle; [done|].
    intros id' Hid'. destruct (decide (id' = id)) as [->|Hne]; [lia|].
    rewrite Hoth in Hid' by done. discriminate.
  - intros Ht h5 Hcall Hq.
    replace t with ((D - now h - 1) + S (now h + t - D)) at 1 by lia.
    rewrite advance_split.
    rewrite advance_idle; [|done|].
    2:{ intros id' Hid'. destruct (decide (id' = id)) as [->|Hne]; [lia|].
        rewrite Hoth in Hid' by done. discriminate. }
    cbn [mbind option_bind].
    replace (with_now S (with_now (fun x => D - now h - 1 + x) h))
      with (with_now (fun _ => D) h)
      by (unfold with_now; cbn; f_equal; lia).
    apply advance_after_turn; [|done].
    unfold EventLoop.turn. rewrite run_microtasks_idle by done.
    apply (run_timers_only call id); try done.
    + cbn. lia.
    + apply in_seq. cbn. lia.
Qed.




(** What [abortAfter(ms)] does on a controller that is not disposed. *)
Lemma abortAfter_live (c ms : nat) (h : heap) :
  disposed (EnhancedAbortController.get h c) = false ->
  let o := EnhancedAbortController.get h c in
  let h' := EnhancedAbortController.abortAfter c ms h in
  timers h' =
    match timeoutId o with
    | Some id => alter Platform.mark_cleared id (timers h)
    | None => timers h
    end ++ [{| due := now h + Platform.timer_delay ms;
               timer_handler := CbEnhancedAbort c; pending := true |}] /\
  EnhancedAbortController.get h' c =
    {| controller := controller o; _signal := _signal o;
       timeoutId := Some (length (timers h)); disposed := false |} /\
  signals h' = signals h /\ microtasks h' = microtasks h /\
  trace h' = trace h /\ now h' = now h.
Proof.
  intros Hd. cbv zeta. unfold EnhancedAbortController.abortAfter. rewrite Hd.
  pose proof (live_allocated h c Hd) as Hc.
  pose proof (clearTimeout_get c h) as Hget1. cbv zeta in Hget1.
  pose proof (clearTimeout_timers c h) as Hts1.
  pose proof (clearTimeout_signals c h) as Hss1.
  pose proof (clearTimeout_microtasks c h) as Hms1.
  pose proof (clearTimeout_trace c h) as Htr1.
  pose proof (clearTimeout_controllers_length c h) as Hlen1.
  assert (Hnow1 : now (EnhancedAbortController.clearTimeout c h) = now h).
  { unfold EnhancedAbortController.clearTimeout.
    by destruct (timeoutId (EnhancedAbortController.get h c)). }
  set (h1 := EnhancedAbortController.clearTimeout c h) in *.
  cbn [Platform.setTimeout]. rewrite get_alter_controller.
  cbn [timers controllers signals microtasks trace now
         EnhancedAbortController.alter_controller with_controllers with_timers].
  rewrite decide_True by (split; [done | by rewrite Hlen1]).
  change (EnhancedAbortController.get (with_timers _ h1) c)
    with (EnhancedAbortController.get h1 c).
  rewrite Hget1, Hts1, Hnow1, Hd. cbn [controller _signal disposed].
  repeat split; try done.
  do 2 f_equal. destruct (timeoutId (EnhancedAbortController.get h c)); [|done].
  by rewrite length_alter.
Qed.

Lemma register_all_now (call : callback -> heap -> option heap)
    (s : EnhancedAbortSignal) (cbs : list callback) (h h' : heap) :
  EnhancedAbortSignal.isAborted s h = false ->
  Script.register_all call s cbs h = Some h' -> now h' = now h.
Proof.
  revert h. induction cbs as [|cb rest IH]; intros h Ha Hrun.
  - cbn in Hrun. by injection Hrun as <-.
  - cbn [Script.register_all] in Hrun. rewrite register_live in Hrun by done.
    cbn [mbind option_bind] in Hrun. apply IH in Hrun; [done|].
    unfold EnhancedAbortSignal.isAborted, Platform.aborted in *.
    rewrite signal_at_with_registrations, signal_at_alter_signal.
    by case_decide.
Qed.

Lemma platform_abort_now (fuel n : nat) (r : value) (h h' : heap) :
  Platform.abort (invoke fuel) n r h = Some h' -> now h' = now h.
Proof.
  intros Ha.
  eapply (platform_abort_preserves (fun x => now x = now h)); [..|exact Ha];
    first [ reflexivity | by intros | idtac ].
  intros cb x x' Hx Hc.
  eapply (invoke_preserves (fun x => now x = now h)); [..|exact Hc]; try done.
  intros c x0 Hx0. unfold EnhancedAbortController.clearTimeout.
  by destruct (timeoutId (EnhancedAbortController.get x0 c)).
Qed.











(** ** The awaitable (C3) *)

(** C3, what the code does: on a signal that is already aborted
    [whenAborted] returns a promise that is already fulfilled and
    attaches nothing.  Otherwise it returns a pending promise, attaches
    a resolving listener and queues its removal as a microtask.  If the
    abort comes in the same synchronous run the promise is fulfilled;
    but once the microtask checkpoint has run the listener is gone, so
    an abort that comes later (here: any abort after the checkpoint)
    leaves the promise pending for good.  The listener is removed
    before the resolution, and the resolution is missed. *)
Theorem C3_whenAborted_misses_later_abort (fuel : nat) (h0 : heap) (r : value) :
  quiescent h0 ->
  (forall s, EnhancedAbortSignal.isAborted s h0 = true ->
     EnhancedAbortSignal.whenAborted (invoke fuel) s h0 =
       Some (length (promises h0), with_promises (fun ps => ps ++ [Fulfilled]) h0)) /\
  let '(c, h) := EnhancedAbortController.new h0 in
  exists p h1 h_sync h_late,
    EnhancedAbortSignal.whenAborted (invoke fuel) (EnhancedAbortController.signal c h) h
      = Some (p, h1) /\
    Platform.promise_state h1 p = Pending /\
    EnhancedAbortController.abort (invoke (2 + fuel)) c r h1 = Some h_sync /\
    Platform.promise_state h_sync p = Fulfilled /\
    EnhancedAbortController.abort (invoke (2 + fuel)) c r (EventLoop.run_microtasks h1)
      = Some h_late /\
    EnhancedAbortController.isAborted c h_late = true /\
    Platform.promise_state h_late p = Pending /\
    forall ms, exists h_end,
      EventLoop.advance (invoke (2 + fuel)) ms h_late = Some h_end /\
      Platform.promise_state h_end p = Pending.
Proof.
  intros [Hm0 Hq0]. split.
  { intros s Ha. unfold EnhancedAbortSignal.whenAborted. by rewrite Ha. }
  pose proof (new_controller h0) as Hnew.
  assert (Hps0 : promises (EnhancedAbortController.new h0).2 = promises h0) by reflexivity.
  assert (Hrs0 : registrations (EnhancedAbortController.new h0).2 = registrations h0)
    by reflexivity.
  destruct (EnhancedAbortController.new h0) as [c h]. cbn [snd] in Hps0, Hrs0.
  destruct Hnew as (-> & Hget & Hat & Hss & Hcs & Hts & Hms & Htr).
  set (K := length (controllers h0)) in *.
  set (S := length (signals h0)) in *.
  set (P := length (promises h0)).
  set (R := length (registrations h0)).
  assert (HS : S < length (signals h)).
  { rewrite Hss, length_app. cbn. unfold S. lia. }
  unfold EnhancedAbortController.signal. rewrite Hget. cbn [_signal].
  unfold EnhancedAbortSignal.whenAborted.
  assert (Hna : EnhancedAbortSignal.isAborted (EnhancedAbortSignal.new S) h = false).
  { unfold EnhancedAbortSignal.isAborted, Platform.aborted.
    cbn [abortSignal EnhancedAbortSignal.new]. by rewrite Hat. }
  rewrite Hna. cbn [Platform.new_Promise]. rewrite Hps0. fold P.
  rewrite register_live by exact Hna.
  cbn [mbind option_bind abortSignal EnhancedAbortSignal.new registrations with_promises].
  change (Platform.signal_at (with_promises _ h) S) with (Platform.signal_at h S).
  rewrite Hat, Hrs0. cbn [listeners length]. fold R.
  set (h1 := Platform.queueMicrotask (JobUnregister R) _).
  (* what [whenAborted] left behind *)
  assert (Hat1 : Platform.signal_at h1 S =
            {| reason := VUndefined; listeners := [attached (CbResolve P)] |}).
  { unfold h1. change (Platform.signal_at (Platform.queueMicrotask _ ?x) S)
      with (Platform.signal_at x S).
    rewrite signal_at_with_registrations.
    rewrite signal_at_alter_signal_eq by exact HS.
    change (Platform.signal_at (with_promises _ h) S) with (Platform.signal_at h S).
    by rewrite Hat. }
  assert (Hget1 : EnhancedAbortController.get h1 K = live_controller S) by exact Hget.
  assert (Hlen1 : length (signals h1) = length (signals h)).
  { unfold h1. cbn. apply length_alter. }
  assert (Hps1 : promises h1 = promises h0 ++ [Pending]).
  { unfold h1. cbn. by rewrite Hps0. }
  assert (Hrs1 : registrations h1 =
            registrations h0 ++ [AbortRegistration.new (UnregRemoveListener S 0)]).
  { unfold h1. cbn. by rewrite Hrs0. }
  assert (Hms1 : microtasks h1 = [JobUnregister R]).
  { unfold h1. cbn. by rewrite Hms, Hm0. }
  assert (Hts1 : timers h1 = timers h0).
  { unfold h1. cbn. exact Hts. }
  exists P, h1.
  (* an abort in the same synchronous run *)
  assert (Hsync : exists h_sync,
            EnhancedAbortController.abort (invoke (2 + fuel)) K r h1 = Some h_sync /\
            Platform.promise_state h_sync P = Fulfilled).
  { rewrite (abort_live _ K S r h1 Hget1).
    rewrite (abort_single _ S r (CbResolve P) h1) by (rewrite ?Hlen1; done).
    cbn [Nat.add invoke]. eexists. split; [reflexivity|].
    unfold Platform.promise_state, Platform.resolve.
    cbn [promises with_promises Platform.alter_signal with_signals].
    rewrite Hps1. rewrite <- (Nat.add_0_r P). unfold P.
    rewrite alter_app_r. by rewrite lookup_total_app_plus. }
  destruct Hsync as (h_sync & Hsync & Hfulfilled).
  exists h_sync.
  (* an abort after the microtask checkpoint *)
  set (h2 := EventLoop.run_microtasks h1).
  assert (Hh2 : h2 = with_microtasks (fun _ => []) (Registration.unregister R h1)).
  { unfold h2, EventLoop.run_microtasks. by rewrite Hms1. }
  assert (HgetR : Registration.get h1 R = AbortRegistration.new (UnregRemoveListener S 0)).
  { unfold Registration.get. rewrite Hrs1. unfold R.
    by rewrite list_lookup_total_middle. }
  assert (Hat2 : Platform.signal_at h2 S =
            {| reason := VUndefined;
               listeners := [Platform.mark_removed (attached (CbResolve P))] |}).
  { rewrite Hh2. rewrite unregister_unfold.
    rewrite HgetR. cbn [AbortRegistration.disposed AbortRegistration.unregisterCallback
                        AbortRegistration.new Registration.run_unregister_callback].
    change (Platform.signal_at (with_microtasks _ (with_registrations _ ?x)) S)
      with (Platform.signal_at x S).
    unfold Platform.removeEventListener, Platform.alter_listener.
    rewrite signal_at_alter_signal_eq by (by rewrite Hlen1).
    by rewrite Hat1. }
  assert (Hrest2 : controllers h2 = controllers h1 /\ promises h2 = promises h1 /\
                   timers h2 = timers h1 /\ microtasks h2 = [] /\
                   length (signals h2) = length (signals h1)).
  { rewrite Hh2. rewrite unregister_unfold.
    rewrite HgetR. cbn. by rewrite length_alter. }
  destruct Hrest2 as (Hcs2 & Hps2 & Hts2 & Hms2 & Hlen2).
  assert (Hget2 : EnhancedAbortController.get h2 K = live_controller S).
  { unfold EnhancedAbortController.get. rewrite Hcs2. exact Hget1. }
  assert (Hlate : exists h_late,
            EnhancedAbortController.abort (invoke (2 + fuel)) K r h2 = Some h_late /\
            EnhancedAbortController.isAborted K h_late = true /\
            promises h_late = promises h2 /\ timers h_late = timers h2 /\
            microtasks h_late = microtasks h2).
  { rewrite (abort_live _ K S r h2 Hget2).
    unfold Platform.abort, Platform.aborted. rewrite Hat2. cbn [reason].
    unfold Platform.dispatchEvent.
    rewrite signal_at_alter_signal_eq by (by rewrite Hlen2, Hlen1).
    rewrite Hat2. cbn [listeners length seq Platform.inner_invoke].
    rewrite signal_at_alter_signal_eq by (by rewrite Hlen2, Hlen1).
    rewrite Hat2. cbn [listeners lookup_total list_lookup_total removed
                       Platform.mark_removed attached].
    eexists. split; [reflexivity|].
    unfold EnhancedAbortController.isAborted, Platform.aborted.
    change (EnhancedAbortController.get (Platform.alter_signal _ S h2) K)
      with (EnhancedAbortController.get h2 K).
    rewrite Hget2. cbn [controller live_controller].
    rewrite signal_at_alter_signal_eq by (by rewrite Hlen2, Hlen1).
    cbn [reason]. split; [by destruct r | done]. }
  destruct Hlate as (h_late & Hlate & Hab & Hps3 & Hts3 & Hms3).
  assert (Hpend : Platform.promise_state h_late P = Pending).
  { unfold Platform.promise_state. rewrite Hps3, Hps2, Hps1. unfold P.
    by rewrite list_lookup_total_middle. }
  exists h_late. repeat split; try done.
  - unfold Platform.promise_state. rewrite Hps1. unfold P.
    by rewrite list_lookup_total_middle.
  - intros ms. eexists. split.
    + apply advance_quiescent. split.
      * by rewrite Hms3.
      * intros id. by rewrite Hts3, Hts2, Hts1.
    + exact Hpend.
Qed.

Lemma C3_witness :
  let '(c, h) := EnhancedAbortController.new Obj.empty in
  exists p h1 h_sync h_late,
    EnhancedAbortSignal.whenAborted (invoke 0) (EnhancedAbortController.signal c h) h
      = Some (p, h1) /\
    Platform.promise_state h1 p = Pending /\
    EnhancedAbortController.abort (invoke 2) c (VString "stop") h1 = Some h_sync /\
    Platform.promise_state h_sync p = Fulfilled /\
    EnhancedAbortController.abort (invoke 2) c (VString "stop")
      (EventLoop.run_microtasks h1) = Some h_late /\
    EnhancedAbortController.isAborted c h_late = true /\
    Platform.promise_state h_late p = Pending /\
    forall ms, exists h_end,
      EventLoop.advance (invoke 2) ms h_late = Some h_end /\
      Platform.promise_state h_end p = Pending.
Proof.
  apply (C3_whenAborted_misses_later_abort 0 Obj.empty (VString "stop")).
  split; [reflexivity|]. intros id. by destruct id.
Defined.

(** * Further properties of the code *)

(** ** Unregistering before the abort *)

(** Dispatch over caller listeners, some of them removed already: the
    ones still attached run once, in list order. *)
Lemma inner_invoke_entries (fuel n : nat) (es : list (nat * bool)) :
  forall (pre : list Listener) (h : heap),
    n < length (signals h) ->
    listeners (Platform.signal_at h n) = pre ++ map user_entry es ->
    exists h',
      Platform.inner_invoke (invoke (S fuel)) n (seq (length pre) (length es)) h
        = Some h' /\
      trace h' = trace h ++ map fst (List.filter (fun e => negb e.2) es) /\
      reason (Platform.signal_at h' n) = reason (Platform.signal_at h n) /\
      listeners (Platform.signal_at h' n) =
        pre ++ map (fun e => user_entry (e.1, true)) es /\
      (forall m, m <> n -> Platform.signal_at h' m = Platform.signal_at h m) /\
      length (signals h') = length (signals h) /\
      controllers h' = controllers h /\
      registrations h' = registrations h /\
      promises h' = promises h /\
      timers h' = timers h /\
      microtasks h' = microtasks h /\
      now h' = now h.
Proof.
  induction es as [|[t gone] rest IH]; intros pre h Hn Hl.
  - exists h. cbn. rewrite !app_nil_r. cbn in Hl. rewrite app_nil_r in Hl.
    repeat split; done.
  - cbn [length seq Platform.inner_invoke]. rewrite Hl.
    cbn [map]. rewrite list_lookup_total_middle by reflexivity.
    cbn [removed once handler user_entry fst snd].
    destruct gone.
    + (* removed before the dispatch: skipped *)
      destruct (IH (pre ++ [user_entry (t, true)]) h)
        as (h' & Hrun & Htr & Hre & Hls & Hoth' & Hlen' & Hcs & Hrs & Hps & Hts & Hms & Hnow);
        [done | |].
      { rewrite Hl. cbn [map]. by rewrite <- app_assoc. }
      rewrite length_app in Hrun. cbn [length] in Hrun. rewrite Nat.add_1_r in Hrun.
      exists h'. split; [exact Hrun|]. rewrite Hls. cbn [List.filter negb snd map fst].
      rewrite <- app_assoc. cbn [app]. repeat split; done.
    + set (h1 := Platform.log t (Platform.removeEventListener n (length pre) h)).
      assert (Hat : Platform.signal_at h1 n =
                {| reason := reason (Platform.signal_at h n);
                   listeners := (pre ++ [user_entry (t, true)]) ++ map user_entry rest |}).
      { unfold h1, Platform.log, Platform.removeEventListener, Platform.alter_listener.
        change (Platform.signal_at (with_trace ?f ?x) n) with (Platform.signal_at x n).
        rewrite signal_at_alter_signal_eq by done. rewrite Hl. cbn [map].
        f_equal. rewrite <- app_assoc. cbn [app].
        rewrite <- (Nat.add_0_r (length pre)) at 1. by rewrite alter_app_r. }
      assert (Hoth : forall m, m <> n -> Platform.signal_at h1 m = Platform.signal_at h m).
      { intros m Hm.
        unfold h1, Platform.log, Platform.removeEventListener, Platform.alter_listener.
        change (Platform.signal_at (with_trace ?f ?x) m) with (Platform.signal_at x m).
        by rewrite signal_at_alter_signal_ne. }
      assert (Hlen : length (signals h1) = length (signals h)).
      { unfold h1; cbn. apply length_alter. }
      destruct (IH (pre ++ [user_entry (t, true)]) h1)
        as (h' & Hrun & Htr & Hre & Hls & Hoth' & Hlen' & Hcs & Hrs & Hps & Hts & Hms & Hnow).
      { by rewrite Hlen. }
      { by rewrite Hat. }
      rewrite length_app in Hrun. cbn [length] in Hrun. rewrite Nat.add_1_r in Hrun.
      exists h'. split; [exact Hrun|].
      rewrite Htr, Hre, Hls, Hat. cbn [reason map List.filter negb snd fst].
      rewrite <- !app_assoc. cbn [app].
      repeat split; try done.
      * unfold h1; cbn. by rewrite <- app_assoc.
      * intros m Hm. by rewrite Hoth', Hoth.
      * by rewrite Hlen'.
Qed.

(** Firing a signal whose listeners are caller listeners, some of
    them removed already. *)
Lemma abort_entries (fuel n : nat) (r : value) (es : list (nat * bool)) (h : heap) :
  n < length (signals h) ->
  Platform.signal_at h n = {| reason := VUndefined; listeners := map user_entry es |} ->
  exists h',
    Platform.abort (invoke (S fuel)) n r h = Some h' /\
    trace h' = trace h ++ map fst (List.filter (fun e => negb e.2) es) /\
    Platform.signal_at h' n =
      {| reason := match r with VUndefined => VDOMException "AbortError" | _ => r end;
         listeners := map (fun e => user_entry (e.1, true)) es |} /\
    (forall m, m <> n -> Platform.signal_at h' m = Platform.signal_at h m) /\
    length (signals h') = length (signals h) /\
    controllers h' = controllers h /\
    registrations h' = registrations h /\
    promises h' = promises h /\
    timers h' = timers h /\
    microtasks h' = microtasks h /\
    now h' = now h.
Proof.
  intros Hn Hat. unfold Platform.abort, Platform.aborted. rewrite Hat. cbn [reason].
  unfold Platform.dispatchEvent.
  set (h1 := Platform.alter_signal _ n h).
  assert (Hat1 : Platform.signal_at h1 n =
            {| reason := match r with VUndefined => VDOMException "AbortError" | _ => r end;
               listeners := map user_entry es |}).
  { unfold h1. rewrite signal_at_alter_signal_eq by done. by rewrite Hat. }
  rewrite Hat1. cbn [listeners]. rewrite length_map.
  destruct (inner_invoke_entries fuel n es [] h1)
    as (h' & Hrun & Htr & Hre & Hls & Hoth & Hlen & Hcs & Hrs & Hps & Hts & Hms & Hnow).
  - unfold h1; cbn. by rewrite length_alter.
  - by rewrite Hat1.
  - exists h'. split; [exact Hrun|]. split; [done|]. split.
    + destruct (Platform.signal_at h' n) as [re ls]. cbn in Hre, Hls.
      rewrite Hat1 in Hre. cbn in Hre. by subst.
    + repeat split; try done.
      * intros m Hm. rewrite Hoth by done. unfold h1.
        by rewrite signal_at_alter_signal_ne.
      * rewrite Hlen. unfold h1; cbn. apply length_alter.
Qed.

(** The registrations [register] hands out on a signal that is not
    aborted: the [j]-th one removes the [j]-th listener it attached. *)
Lemma register_all_registrations (call : callback -> heap -> option heap)
    (s : EnhancedAbortSignal) (cbs : list callback) :
  forall h h',
    EnhancedAbortSignal.isAborted s h = false ->
    abortSignal s < length (signals h) ->
    Script.register_all call s cbs h = Some h' ->
    registrations h' =
      registrations h ++
      map (fun j => AbortRegistration.new
                      (UnregRemoveListener (abortSignal s)
                         (length (listeners (Platform.signal_at h (abortSignal s))) + j)))
          (seq 0 (length cbs)).
Proof.
  induction cbs as [|cb rest IH]; intros h h' Ha Hn Hrun.
  - cbn in Hrun. injection Hrun as <-. cbn. by rewrite app_nil_r.
  - cbn [Script.register_all] in Hrun. rewrite register_live in Hrun by done.
    cbn [mbind option_bind] in Hrun.
    set (h1 := with_registrations _ _) in Hrun.
    assert (Hat : Platform.signal_at h1 (abortSignal s) =
              {| reason := reason (Platform.signal_at h (abortSignal s));
                 listeners := listeners (Platform.signal_at h (abortSignal s))
                                ++ [attached cb] |}).
    { unfold h1. rewrite signal_at_with_registrations.
      by rewrite signal_at_alter_signal_eq. }
    apply IH in Hrun.
    + rewrite Hrun, Hat. cbn [listeners length seq map].
      unfold h1 at 1. cbn [registrations with_registrations Platform.alter_signal with_signals].
      rewrite <- app_assoc. cbn [app]. rewrite Nat.add_0_r. do 2 f_equal.
      rewrite <- seq_shift, map_map. apply map_ext. intros j.
      rewrite length_app. cbn [length]. do 2 f_equal. lia.
    + unfold EnhancedAbortSignal.isAborted, Platform.aborted in *. by rewrite Hat.
    + unfold h1; cbn. by rewrite length_alter.
Qed.

Lemma filter_unflagged (l : list nat) :
  map fst (List.filter (fun e : nat * bool => negb e.2) (map (fun t => (t, false)) l)) = l.
Proof. induction l as [|t l IH]; [done|]. cbn. by rewrite IH. Qed.

(** X1: on a fresh controller with caller callbacks [tags] registered,
    unregistering the [i]-th registration before the abort disposes
    that registration and runs nothing; the abort then runs every
    other callback once, in registration order, and never the
    unregistered one. *)
Theorem X1_unregistered_callback_never_runs
    (fuel : nat) (h0 : heap) (tags : list nat) (i : nat) (r : value) :
  i < length tags ->
  let '(c, h) := EnhancedAbortController.new h0 in
  let reg := length (registrations h0) + i in
  exists h1 h3,
    Script.register_all (invoke (S fuel)) (EnhancedAbortController.signal c h)
      (map CbUser tags) h = Some h1 /\
    Registration.isDisposed h1 reg = false /\
    Registration.isDisposed (Registration.unregister reg h1) reg = true /\
    trace (Registration.unregister reg h1) = trace h0 /\
    EnhancedAbortController.abort (invoke (S fuel)) c r (Registration.unregister reg h1)
      = Some h3 /\
    EnhancedAbortController.isAborted c h3 = true /\
    trace h3 = trace h0 ++ take i tags ++ drop (S i) tags.
Proof.
  intros Hi.
  destruct (lookup_lt_is_Some_2 tags i Hi) as [x Hx].
  pose proof (take_drop_middle tags i x Hx) as Hsplit.
  assert (Hlen1 : length (take i tags) = i) by (rewrite length_take; lia).
  set (l1 := take i tags) in *. set (l2 := drop (S i) tags) in *.
  pose proof (new_controller h0) as Hnew.
  assert (Hrs0 : registrations (EnhancedAbortController.new h0).2 = registrations h0)
    by reflexivity.
  destruct (EnhancedAbortController.new h0) as [c h]. cbn [snd] in Hrs0. cbv zeta.
  destruct Hnew as (-> & Hget & Hat & Hss & Hcs & _ & _ & Htr).
  set (K := length (controllers h0)) in *.
  set (S := length (signals h0)) in *.
  set (R := length (registrations h0)) in *.
  assert (HS : S < length (signals h)).
  { rewrite Hss, length_app. cbn. unfold S. lia. }
  unfold EnhancedAbortController.signal. rewrite Hget. cbn [_signal].
  assert (Hna : EnhancedAbortSignal.isAborted (EnhancedAbortSignal.new S) h = false).
  { unfold EnhancedAbortSignal.isAborted, Platform.aborted.
    cbn [abortSignal EnhancedAbortSignal.new]. by rewrite Hat. }
  destruct (register_all_live (invoke (Datatypes.S fuel)) (EnhancedAbortSignal.new S)
              (map CbUser tags) h Hna HS)
    as (h1 & Hreg & Hat1 & _ & Hlen1' & Hcs1 & _ & _ & Htr1).
  pose proof (register_all_registrations _ _ _ _ _ Hna HS Hreg) as Hrs1.
  cbn [abortSignal EnhancedAbortSignal.new] in Hat1, Hrs1.
  rewrite Hat in Hat1, Hrs1. cbn [reason listeners app length Nat.add] in Hat1, Hrs1.
  rewrite map_map in Hat1. rewrite length_map, Hrs0 in Hrs1.
  exists h1.
  (* the registration of the [i]-th callback *)
  assert (HgetR : Registration.get h1 (R + i) =
            AbortRegistration.new (UnregRemoveListener S i)).
  { unfold Registration.get. rewrite Hrs1. unfold R. rewrite lookup_total_app_plus.
    rewrite list_lookup_total_alt.
    change (map ?f ?l) with (f <$> l).
    rewrite list_lookup_fmap, lookup_seq_lt by done. done. }
  set (h2 := Registration.unregister (R + i) h1).
  assert (Hh2 : h2 = with_registrations
                       (fun rs => <[R + i := AbortRegistration.mk true None]> rs)
                       (Platform.removeEventListener S i h1)).
  { unfold h2. rewrite unregister_unfold. by rewrite HgetR. }
  assert (Hat2 : Platform.signal_at h2 S =
            {| reason := VUndefined;
               listeners := map user_entry
                  (map (fun t => (t, false)) l1 ++ (x, true) :: map (fun t => (t, false)) l2) |}).
  { rewrite Hh2, signal_at_with_registrations.
    unfold Platform.removeEventListener, Platform.alter_listener.
    rewrite signal_at_alter_signal_eq by (by rewrite Hlen1'). rewrite Hat1.
    cbn [reason listeners]. f_equal. rewrite <- Hsplit.
    rewrite !map_app, !map_map. cbn [map].
    rewrite <- (Nat.add_0_r i) at 1. rewrite <- Hlen1 at 1.
    rewrite <- (length_map (fun t => attached (CbUser t)) l1).
    rewrite alter_app_r, ?map_map. reflexivity. }
  assert (Hget2 : EnhancedAbortController.get h2 K = live_controller S).
  { rewrite Hh2. unfold EnhancedAbortController.get. cbn. by rewrite Hcs1. }
  assert (HS2 : S < length (signals h2)).
  { rewrite Hh2. cbn. by rewrite length_alter, Hlen1'. }
  destruct (abort_entries fuel S r _ h2 HS2 Hat2)
    as (h3 & Hab & Htr3 & Hat3 & _ & _ & Hcs3 & _).
  exists h3. repeat split.
  - exact Hreg.
  - unfold Registration.isDisposed. by rewrite HgetR.
  - unfold Registration.isDisposed, Registration.get. fold h2. rewrite Hh2. cbn.
    rewrite list_lookup_total_insert_eq; [done|].
    rewrite Hrs1, length_app, length_map, length_seq. unfold R. lia.
  - fold h2. rewrite Hh2. cbn. by rewrite Htr1.
  - fold h2. by rewrite (abort_live _ K S r h2 Hget2).
  - unfold EnhancedAbortController.isAborted, Platform.aborted,
      EnhancedAbortController.get. rewrite Hcs3.
    change (controllers h2 !!! K) with (EnhancedAbortController.get h2 K).
    rewrite Hget2. cbn [controller live_controller]. rewrite Hat3. by destruct r.
  - rewrite Htr3. rewrite List.filter_app. cbn [List.filter negb snd].
    rewrite map_app, !filter_unflagged. rewrite Hh2. cbn. by rewrite Htr1, Htr.
Qed.

Lemma X1_witness :
  let '(c, h) := EnhancedAbortController.new Obj.empty in
  let reg := 0 + 1 in
  exists h1 h3,
    Script.register_all (invoke 1) (EnhancedAbortController.signal c h)
      (map CbUser [10; 20; 30]) h = Some h1 /\
    Registration.isDisposed h1 reg = false /\
    Registration.isDisposed (Registration.unregister reg h1) reg = true /\
    trace (Registration.unregister reg h1) = [] /\
    EnhancedAbortController.abort (invoke 1) c (VString "stop")
      (Registration.unregister reg h1) = Some h3 /\
    EnhancedAbortController.isAborted c h3 = true /\
    trace h3 = [10; 30].
Proof.
  apply (X1_unregistered_callback_never_runs 0 Obj.empty [10; 20; 30] 1 (VString "stop")).
  cbn. lia.
Defined.

(** ** Deferred aborts that fire *)

(** A heap whose only pending timer is [id], due at [D], now or later:
    nothing happens before [D]; from [D] on the timer has fired. *)
Lemma advance_one_timer (call : callback -> heap -> option heap)
    (id D t : nat) (h : heap) :
  microtasks h = [] ->
  (forall id', id' <> id -> pending (timers h !!! id') = false) ->
  pending (timers h !!! id) = true ->
  due (timers h !!! id) = D ->
  id < length (timers h) ->
  now h <= D ->
  (now h + t < D ->
   EventLoop.advance call t h = Some (with_now (fun x => t + x) h)) /\
  (D <= now h + t ->
   forall h5,
     call (timer_handler (timers h !!! id))
       (Platform.clearTimeout id (with_now (fun _ => D) h)) = Some h5 ->
     quiescent h5 ->
     EventLoop.advance call t h = Some (with_now (fun x => (now h + t - D) + x) h5)).
Proof.
  intros Hm Hoth Hp Hdue Hid Hnow.
  destruct (decide (now h < D)) as [Hlt|Hge].
  { by apply advance_single_timer. }
  assert (HD : D = now h) by lia.
  split; [lia|]. intros _ h5 Hcall Hq.
  replace (with_now (fun _ => D) h) with h in Hcall
    by (destruct h; cbn in *; by subst).
  replace (now h + t - D) with t by lia.
  apply advance_after_turn; [|done].
  unfold EventLoop.turn. rewrite run_microtasks_idle by done.
  apply (run_timers_only call id); try done.
  - lia.
  - apply in_seq. cbn. lia.
Qed.

(** [abort(reason)] on a live controller whose signal carries caller
    callbacks: the timer slot is cleared, then they all run. *)
Lemma controller_abort_users (fuel c n : nat) (sg : EnhancedAbortSignal)
    (slot : option nat) (r : value) (tags : list nat) (h : heap) :
  EnhancedAbortController.get h c =
    {| controller := n; _signal := sg; timeoutId := slot; disposed := false |} ->
  n < length (signals h) ->
  Platform.signal_at h n =
    {| reason := VUndefined; listeners := map (fun t => attached (CbUser t)) tags |} ->
  exists h',
    EnhancedAbortController.abort (invoke (S fuel)) c r h = Some h' /\
    trace h' = trace h ++ tags /\
    Platform.signal_at h' n =
      {| reason := match r with VUndefined => VDOMException "AbortError" | _ => r end;
         listeners := map (fun t => Platform.mark_removed (attached (CbUser t))) tags |} /\
    (forall m, m <> n -> Platform.signal_at h' m = Platform.signal_at h m) /\
    controllers h' = controllers (EnhancedAbortController.clearTimeout c h) /\
    timers h' = timers (EnhancedAbortController.clearTimeout c h) /\
    microtasks h' = microtasks h /\
    now h' = now h.
Proof.
  intros Hget Hn Hat. unfold EnhancedAbortController.abort. rewrite Hget. cbn [disposed].
  set (h1 := EnhancedAbortController.clearTimeout c h).
  assert (Hget1 : controller (EnhancedAbortController.get h1 c) = n).
  { unfold h1. rewrite clearTimeout_get, Hget. done. }
  rewrite Hget1.
  assert (Hss1 : signals h1 = signals h) by apply clearTimeout_signals.
  assert (Hat1 : Platform.signal_at h1 n = Platform.signal_at h n).
  { unfold Platform.signal_at. by rewrite Hss1. }
  destruct (abort_users fuel n r tags h1)
    as (h' & Hab & Htr & Hat' & Hoth & _ & Hcs & Hts & Hms); [by rewrite Hss1 | by rewrite Hat1 |].
  exists h'. split; [exact Hab|].
  pose proof (platform_abort_now _ _ _ _ _ Hab) as Hnow.
  repeat split; try done.
  - rewrite Htr. unfold h1. by rewrite clearTimeout_trace.
  - intros m Hm. rewrite Hoth by done. unfold Platform.signal_at. by rewrite Hss1.
  - rewrite Hms. unfold h1. apply clearTimeout_microtasks.
  - rewrite Hnow. unfold h1, EnhancedAbortController.clearTimeout.
    by destruct (timeoutId (EnhancedAbortController.get h c)).
Qed.

(** Timers of a quiescent heap with one more timer appended. *)
Lemma appended_timer_only (h0 : heap) (x : Timer) (id : nat) :
  (forall i, pending (timers h0 !!! i) = false) ->
  id <> length (timers h0) ->
  pending ((timers h0 ++ [x]) !!! id) = false.
Proof.
  intros Hq Hne. destruct (decide (id < length (timers h0))) as [Hlt|Hge].
  - by rewrite lookup_total_app_l.
  - rewrite lookup_total_app_r by lia.
    destruct (id - length (timers h0)) as [|[|k]] eqn:Hk; [lia|done..].
Qed.

(** X2: [EnhancedAbortController.timeout(ms)], with nothing else
    scheduled and caller callbacks [tags] registered on its signal:
    [t] ms later the controller is aborted exactly when the timer's
    delay has passed ([ms] itself between 1 and [2^31 - 1], and 1 ms
    for [ms = 0] and for [ms] above that range), with the platform's
    default reason and every callback run once; before that nothing has
    happened. *)
Theorem X2_controller_timeout_fires_at_ms
    (fuel : nat) (h0 : heap) (tags : list nat) (ms t : nat) :
  quiescent h0 ->
  let '(c, h) := EnhancedAbortController.timeout ms h0 in
  exists hr h4,
    Script.register_all (invoke (2 + fuel)) (EnhancedAbortController.signal c h)
      (map CbUser tags) h = Some hr /\
    EnhancedAbortController.isAborted c hr = false /\
    EventLoop.advance (invoke (2 + fuel)) t hr = Some h4 /\
    now h4 = now h0 + t /\
    EnhancedAbortController.isAborted c h4 = (Platform.timer_delay ms <=? t) /\
    EnhancedAbortController.reason c h4 =
      (if Platform.timer_delay ms <=? t then VDOMException "AbortError" else VUndefined) /\
    trace h4 = (if Platform.timer_delay ms <=? t then trace h0 ++ tags else trace h0).
Proof.
  intros [Hm0 Hq0].
  unfold EnhancedAbortController.timeout.
  pose proof (new_controller h0) as Hnew.
  assert (Hnow0 : now (EnhancedAbortController.new h0).2 = now h0) by reflexivity.
  destruct (EnhancedAbortController.new h0) as [c h]. cbn [snd] in Hnow0.
  destruct Hnew as (-> & Hget & Hat & Hss & Hcs & Hts & Hms & Htr).
  set (K := length (controllers h0)) in *.
  set (S := length (signals h0)) in *.
  set (L := length (timers h0)) in *.
  assert (Hd : disposed (EnhancedAbortController.get h K) = false) by (by rewrite Hget).
  destruct (abortAfter_live K ms h Hd) as (Hts1 & Hget1 & Hss1 & Hms1 & Htr1 & Hnow1).
  rewrite Hget in Hts1, Hget1. cbn [timeoutId controller _signal] in Hts1, Hget1.
  rewrite Hts in Hts1, Hget1. rewrite Hnow0 in Hts1. fold L in Hget1.
  set (h1 := EnhancedAbortController.abortAfter K ms h) in *.
  assert (HS : S < length (signals h1)).
  { rewrite Hss1, Hss, length_app. cbn. unfold S. lia. }
  assert (Hat1 : Platform.signal_at h1 S = {| reason := VUndefined; listeners := [] |}).
  { unfold Platform.signal_at. rewrite Hss1. exact Hat. }
  unfold EnhancedAbortController.signal. rewrite Hget1. cbn [_signal].
  assert (Hna : EnhancedAbortSignal.isAborted (EnhancedAbortSignal.new S) h1 = false).
  { unfold EnhancedAbortSignal.isAborted, Platform.aborted.
    cbn [abortSignal EnhancedAbortSignal.new]. by rewrite Hat1. }
  destruct (register_all_live (invoke (2 + fuel)) (EnhancedAbortSignal.new S)
              (map CbUser tags) h1 Hna HS)
    as (hr & Hreg & Hatr & _ & Hlenr & Hcsr & Htsr & Hmsr & Htrr).
  pose proof (register_all_now _ _ _ _ _ Hna Hreg) as Hnowr.
  cbn [abortSignal EnhancedAbortSignal.new] in Hatr.
  rewrite Hat1 in Hatr. cbn [reason listeners app] in Hatr. rewrite map_map in Hatr.
  assert (Hgetr : EnhancedAbortController.get hr K =
            {| controller := S; _signal := EnhancedAbortSignal.new S;
               timeoutId := Some L; disposed := false |}).
  { unfold EnhancedAbortController.get. rewrite Hcsr. exact Hget1. }
  exists hr.
  destruct (advance_one_timer (invoke (2 + fuel)) L (now h0 + Platform.timer_delay ms) t hr)
    as [Hidle Hfire].
  { by rewrite Hmsr, Hms1, Hms. }
  { intros id Hne. rewrite Htsr, Hts1. by apply appended_timer_only. }
  { rewrite Htsr, Hts1. unfold L. by rewrite list_lookup_total_middle. }
  { rewrite Htsr, Hts1. unfold L. by rewrite list_lookup_total_middle. }
  { rewrite Htsr, Hts1, length_app. cbn. unfold L. lia. }
  { rewrite Hnowr, Hnow1, Hnow0. lia. }
  rewrite Hnowr, Hnow1, Hnow0 in Hidle, Hfire.
  assert (Hnar : EnhancedAbortController.isAborted K hr = false).
  { unfold EnhancedAbortController.isAborted, Platform.aborted.
    rewrite Hgetr. cbn [controller]. by rewrite Hatr. }
  destruct (Nat.leb_spec (Platform.timer_delay ms) t) as [Hle|Hlt].
  - (* the timer has fired *)
    rewrite Htsr, Hts1 in Hfire. unfold L in Hfire.
    rewrite list_lookup_total_middle in Hfire by done. fold L in Hfire.
    cbn [timer_handler] in Hfire.
    set (hx := Platform.clearTimeout L (with_now (fun _ => now h0 + Platform.timer_delay ms) hr)) in *.
    assert (Hgetx : EnhancedAbortController.get hx K = EnhancedAbortController.get hr K)
      by reflexivity.
    destruct (controller_abort_users fuel K S (EnhancedAbortSignal.new S) (Some L)
                VUndefined tags hx)
      as (h5 & Hab & Htr5 & Hat5 & _ & Hcs5 & Hts5 & Hms5 & Hnow5).
    { by rewrite Hgetx. }
    { change (signals hx) with (signals hr). by rewrite Hlenr. }
    { exact Hatr. }
    assert (Hq5 : quiescent h5).
    { split.
      - rewrite Hms5. change (microtasks hx) with (microtasks hr).
        by rewrite Hmsr, Hms1, Hms.
      - intros id. rewrite Hts5, clearTimeout_timers, Hgetx, Hgetr. cbn [timeoutId].
        rewrite list_lookup_total_alter. case_decide; [done|].
        unfold hx. cbn [timers Platform.clearTimeout with_timers with_now].
        rewrite list_lookup_total_alter. case_decide as Hc2; [done|].
        rewrite Htsr, Hts1. apply appended_timer_only; [done|].
        intros ->. apply Hc2. split; [done|].
        rewrite Htsr, Hts1, length_app. cbn. unfold L. lia. }
    change (EnhancedAbortController.abort (invoke (Datatypes.S fuel)) K VUndefined hx)
      with (invoke (2 + fuel) (CbEnhancedAbort K) hx) in Hab.
    specialize (Hfire ltac:(lia) h5 Hab Hq5).
    eexists. repeat split; try done.
    + cbn. rewrite Hnow5. cbn. lia.
    + unfold EnhancedAbortController.isAborted, Platform.aborted.
      change (EnhancedAbortController.get (with_now _ h5) K)
        with (EnhancedAbortController.get h5 K).
      change (Platform.signal_at (with_now _ h5)) with (Platform.signal_at h5).
      unfold EnhancedAbortController.get. rewrite Hcs5.
      change (controllers (EnhancedAbortController.clearTimeout K hx) !!! K)
        with (EnhancedAbortController.get (EnhancedAbortController.clearTimeout K hx) K).
      rewrite clearTimeout_get, Hgetx, Hgetr. cbn [controller]. by rewrite Hat5.
    + unfold EnhancedAbortController.reason.
      change (EnhancedAbortController.get (with_now _ h5) K)
        with (EnhancedAbortController.get h5 K).
      change (Platform.signal_at (with_now _ h5)) with (Platform.signal_at h5).
      unfold EnhancedAbortController.get. rewrite Hcs5.
      change (controllers (EnhancedAbortController.clearTimeout K hx) !!! K)
        with (EnhancedAbortController.get (EnhancedAbortController.clearTimeout K hx) K).
      rewrite clearTimeout_get, Hgetx, Hgetr. cbn [controller]. by rewrite Hat5.
    + cbn. rewrite Htr5. change (trace hx) with (trace hr). by rewrite Htrr, Htr1, Htr.
  - (* the timer is still pending *)
    exists (with_now (fun x => t + x) hr). repeat split; try done.
    + apply Hidle. lia.
    + cbn. rewrite Hnowr, Hnow1, Hnow0. lia.
    + unfold EnhancedAbortController.reason.
      change (EnhancedAbortController.get (with_now _ hr) K)
        with (EnhancedAbortController.get hr K).
      change (Platform.signal_at (with_now _ hr)) with (Platform.signal_at hr).
      rewrite Hgetr. cbn [controller]. by rewrite Hatr.
    + cbn. by rewrite Htrr, Htr1, Htr.
Qed.

Lemma X2_witness :
  let '(c, h) := EnhancedAbortController.timeout 0 Obj.empty in
  exists hr h4,
    Script.register_all (invoke 2) (EnhancedAbortController.signal c h)
      (map CbUser [4; 5]) h = Some hr /\
    EnhancedAbortController.isAborted c hr = false /\
    EventLoop.advance (invoke 2) 1 hr = Some h4 /\
    now h4 = 1 /\
    EnhancedAbortController.isAborted c h4 = true /\
    EnhancedAbortController.reason c h4 = VDOMException "AbortError" /\
    trace h4 = [4; 5].
Proof.
  apply (X2_controller_timeout_fires_at_ms 0 Obj.empty [4; 5] 0 1).
  split; [reflexivity|]. intros id. by destruct id.
Defined.

(** X3: [EnhancedAbortSignal.timeout(ms)], with nothing else scheduled
    and caller callbacks [tags] registered on it: the signal can be
    aborted, is not aborted at first, and [t] ms later is aborted
    exactly when the timer's delay has passed ([ms] itself between 1
    and [2^31 - 1], and 1 ms otherwise), with the platform's default
    reason and every callback run once. *)
Theorem X3_signal_timeout_fires_at_ms
    (fuel : nat) (h0 : heap) (tags : list nat) (ms t : nat) :
  quiescent h0 ->
  let '(s, h) := EnhancedAbortSignal.timeout ms h0 in
  exists hr h4,
    EnhancedAbortSignal.canBeAborted s = true /\
    Script.register_all (invoke (2 + fuel)) s (map CbUser tags) h = Some hr /\
    EnhancedAbortSignal.isAborted s hr = false /\
    EventLoop.advance (invoke (2 + fuel)) t hr = Some h4 /\
    now h4 = now h0 + t /\
    EnhancedAbortSignal.isAborted s h4 = (Platform.timer_delay ms <=? t) /\
    EnhancedAbortSignal.reason s h4 =
      (if Platform.timer_delay ms <=? t then VDOMException "AbortError" else VUndefined) /\
    trace h4 = (if Platform.timer_delay ms <=? t then trace h0 ++ tags else trace h0).
Proof.
  intros [Hm0 Hq0].
  unfold EnhancedAbortSignal.timeout.
  cbn [Platform.new_AbortController Platform.setTimeout timers now with_signals].
  set (N := length (signals h0)).
  set (L := length (timers h0)).
  set (h := with_timers _ _).
  assert (Hat : Platform.signal_at h N = {| reason := VUndefined; listeners := [] |}).
  { unfold Platform.signal_at, h, N. cbn. by rewrite list_lookup_total_middle. }
  assert (HN : N < length (signals h)).
  { unfold h; cbn. rewrite length_app. cbn. unfold N. lia. }
  assert (Hna : EnhancedAbortSignal.isAborted (EnhancedAbortSignal.new N) h = false).
  { unfold EnhancedAbortSignal.isAborted, Platform.aborted.
    cbn [abortSignal EnhancedAbortSignal.new]. by rewrite Hat. }
  destruct (register_all_live (invoke (2 + fuel)) (EnhancedAbortSignal.new N)
              (map CbUser tags) h Hna HN)
    as (hr & Hreg & Hatr & _ & Hlenr & Hcsr & Htsr & Hmsr & Htrr).
  pose proof (register_all_now _ _ _ _ _ Hna Hreg) as Hnowr.
  cbn [abortSignal EnhancedAbortSignal.new] in Hatr.
  rewrite Hat in Hatr. cbn [reason listeners app] in Hatr. rewrite map_map in Hatr.
  assert (Hts : timers h = timers h0 ++
            [{| due := now h0 + Platform.timer_delay ms; timer_handler := CbNativeAbort N; pending := true |}])
    by reflexivity.
  exists hr.
  destruct (advance_one_timer (invoke (2 + fuel)) L (now h0 + Platform.timer_delay ms) t hr)
    as [Hidle Hfire].
  { by rewrite Hmsr. }
  { intros id Hne. rewrite Htsr, Hts. by apply appended_timer_only. }
  { rewrite Htsr, Hts. unfold L. by rewrite list_lookup_total_middle. }
  { rewrite Htsr, Hts. unfold L. by rewrite list_lookup_total_middle. }
  { rewrite Htsr, Hts, length_app. cbn. unfold L. lia. }
  { rewrite Hnowr. cbn. lia. }
  rewrite Hnowr in Hidle, Hfire. change (now h) with (now h0) in Hidle, Hfire.
  assert (Hnar : EnhancedAbortSignal.isAborted (EnhancedAbortSignal.new N) hr = false).
  { unfold EnhancedAbortSignal.isAborted, Platform.aborted.
    cbn [abortSignal EnhancedAbortSignal.new]. by rewrite Hatr. }
  destruct (Nat.leb_spec (Platform.timer_delay ms) t) as [Hle|Hlt].
  - rewrite Htsr, Hts in Hfire. unfold L in Hfire.
    rewrite list_lookup_total_middle in Hfire by done. fold L in Hfire.
    cbn [timer_handler] in Hfire.
    set (hx := Platform.clearTimeout L (with_now (fun _ => now h0 + Platform.timer_delay ms) hr)) in *.
    destruct (abort_users fuel N VUndefined tags hx)
      as (h5 & Hab & Htr5 & Hat5 & _ & _ & Hcs5 & Hts5 & Hms5).
    { change (signals hx) with (signals hr). by rewrite Hlenr. }
    { exact Hatr. }
    pose proof (platform_abort_now _ _ _ _ _ Hab) as Hnow5.
    assert (Hq5 : quiescent h5).
    { split.
      - rewrite Hms5. change (microtasks hx) with (microtasks hr). by rewrite Hmsr.
      - intros id. rewrite Hts5. unfold hx.
        cbn [timers Platform.clearTimeout with_timers with_now].
        rewrite list_lookup_total_alter. case_decide as Hc2; [done|].
        rewrite Htsr, Hts. apply appended_timer_only; [done|].
        intros ->. apply Hc2. split; [done|].
        rewrite Htsr, Hts, length_app. cbn. unfold L. lia. }
    change (Platform.abort (invoke (S fuel)) N VUndefined hx)
      with (invoke (2 + fuel) (CbNativeAbort N) hx) in Hab.
    specialize (Hfire ltac:(lia) h5 Hab Hq5).
    eexists. repeat split; try done.
    + cbn. rewrite Hnow5. cbn. lia.
    + unfold EnhancedAbortSignal.isAborted, Platform.aborted.
      cbn [abortSignal EnhancedAbortSignal.new].
      change (Platform.signal_at (with_now _ h5)) with (Platform.signal_at h5).
      by rewrite Hat5.
    + unfold EnhancedAbortSignal.reason. cbn [abortSignal EnhancedAbortSignal.new].
      change (Platform.signal_at (with_now _ h5)) with (Platform.signal_at h5).
      by rewrite Hat5.
    + cbn. rewrite Htr5. change (trace hx) with (trace hr). by rewrite Htrr.
  - exists (with_now (fun x => t + x) hr). repeat split; try done.
    + apply Hidle. lia.
    + cbn. rewrite Hnowr. cbn. lia.
    + unfold EnhancedAbortSignal.reason. cbn [abortSignal EnhancedAbortSignal.new].
      change (Platform.signal_at (with_now _ hr)) with (Platform.signal_at hr).
      by rewrite Hatr.
Qed.

Lemma X3_witness :
  let '(s, h) := EnhancedAbortSignal.timeout 100 Obj.empty in
  exists hr h4,
    EnhancedAbortSignal.canBeAborted s = true /\
    Script.register_all (invoke 2) s (map CbUser [6]) h = Some hr /\
    EnhancedAbortSignal.isAborted s hr = false /\
    EventLoop.advance (invoke 2) 150 hr = Some h4 /\
    now h4 = 150 /\
    EnhancedAbortSignal.isAborted s h4 = true /\
    EnhancedAbortSignal.reason s h4 = VDOMException "AbortError" /\
    trace h4 = [6].
Proof.
  apply (X3_signal_timeout_fires_at_ms 0 Obj.empty [6] 100 150).
  split; [reflexivity|]. intros id. by destruct id.
Defined.

(** X4: [abort(reason)] before the timer of a pending [abortAfter(ms)]
    is due ([e] ms after the call, with [e] less than the timer's
    delay) runs the callbacks once and cancels the deferred abort:
    however long one waits afterwards, nothing runs a second time and
    the reason stays the one [abort] stored. *)
Theorem X4_abort_cancels_deferred_abort
    (fuel : nat) (h0 : heap) (tags : list nat) (ms e t : nat) (r : value) :
  quiescent h0 -> e < Platform.timer_delay ms ->
  let '(c, h) := EnhancedAbortController.new h0 in
  exists hr h2 h3 h4,
    Script.register_all (invoke (2 + fuel)) (EnhancedAbortController.signal c h)
      (map CbUser tags) h = Some hr /\
    EventLoop.advance (invoke (2 + fuel)) e
      (EnhancedAbortController.abortAfter c ms hr) = Some h2 /\
    EnhancedAbortController.isAborted c h2 = false /\
    EnhancedAbortController.abort (invoke (2 + fuel)) c r h2 = Some h3 /\
    trace h3 = trace h0 ++ tags /\
    quiescent h3 /\
    EventLoop.advance (invoke (2 + fuel)) t h3 = Some h4 /\
    trace h4 = trace h0 ++ tags /\
    EnhancedAbortController.isAborted c h4 = true /\
    EnhancedAbortController.reason c h4 =
      match r with VUndefined => VDOMException "AbortError" | _ => r end.
Proof.
  intros [Hm0 Hq0] He.
  pose proof (new_controller h0) as Hnew.
  assert (Hnow0 : now (EnhancedAbortController.new h0).2 = now h0) by reflexivity.
  destruct (EnhancedAbortController.new h0) as [c h]. cbn [snd] in Hnow0.
  destruct Hnew as (-> & Hget & Hat & Hss & Hcs & Hts & Hms & Htr).
  set (K := length (controllers h0)) in *.
  set (N := length (signals h0)) in *.
  set (L := length (timers h0)) in *.
  assert (HN : N < length (signals h)).
  { rewrite Hss, length_app. cbn. unfold N. lia. }
  unfold EnhancedAbortController.signal. rewrite Hget. cbn [_signal].
  assert (Hna : EnhancedAbortSignal.isAborted (EnhancedAbortSignal.new N) h = false).
  { unfold EnhancedAbortSignal.isAborted, Platform.aborted.
    cbn [abortSignal EnhancedAbortSignal.new]. by rewrite Hat. }
  destruct (register_all_live (invoke (2 + fuel)) (EnhancedAbortSignal.new N)
              (map CbUser tags) h Hna HN)
    as (hr & Hreg & Hatr & _ & Hlenr & Hcsr & Htsr & Hmsr & Htrr).
  pose proof (register_all_now _ _ _ _ _ Hna Hreg) as Hnowr. rewrite Hnow0 in Hnowr.
  cbn [abortSignal EnhancedAbortSignal.new] in Hatr.
  rewrite Hat in Hatr. cbn [reason listeners app] in Hatr. rewrite map_map in Hatr.
  assert (Hgetr : EnhancedAbortController.get hr K = live_controller N).
  { unfold EnhancedAbortController.get. by rewrite Hcsr. }
  assert (Hdr : disposed (EnhancedAbortController.get hr K) = false) by (by rewrite Hgetr).
  destruct (abortAfter_live K ms hr Hdr) as (Hts1 & Hget1 & Hss1 & Hms1 & Htr1 & Hnow1).
  rewrite Hgetr in Hts1, Hget1.
  cbn [timeoutId controller _signal live_controller] in Hts1, Hget1.
  rewrite Htsr, Hts in Hts1, Hget1. rewrite Hnowr in Hts1. fold L in Hget1.
  set (h1 := EnhancedAbortController.abortAfter K ms hr) in *.
  destruct (advance_one_timer (invoke (2 + fuel)) L (now h0 + Platform.timer_delay ms) e h1) as [Hidle _].
  { by rewrite Hms1, Hmsr, Hms. }
  { intros id Hne. rewrite Hts1. by apply appended_timer_only. }
  { rewrite Hts1. unfold L. by rewrite list_lookup_total_middle. }
  { rewrite Hts1. unfold L. by rewrite list_lookup_total_middle. }
  { rewrite Hts1, length_app. cbn. unfold L. lia. }
  { rewrite Hnow1, Hnowr. lia. }
  rewrite Hnow1, Hnowr in Hidle. specialize (Hidle ltac:(lia)).
  set (h2 := with_now (fun x => e + x) h1) in *.
  assert (Hget2 : EnhancedAbortController.get h2 K =
            {| controller := N; _signal := EnhancedAbortSignal.new N;
               timeoutId := Some L; disposed := false |}) by exact Hget1.
  assert (Hat2 : Platform.signal_at h2 N =
            {| reason := VUndefined;
               listeners := map (fun t => attached (CbUser t)) tags |}).
  { change (Platform.signal_at h2 N) with (Platform.signal_at h1 N).
    unfold Platform.signal_at. rewrite Hss1. exact Hatr. }
  destruct (controller_abort_users (S fuel) K N (EnhancedAbortSignal.new N) (Some L)
              r tags h2 Hget2)
    as (h3 & Hab & Htr3 & Hat3 & _ & Hcs3 & Hts3 & Hms3 & Hnow3).
  { change (signals h2) with (signals h1). by rewrite Hss1, Hlenr. }
  { exact Hat2. }
  assert (Hq3 : quiescent h3).
  { split.
    - rewrite Hms3. change (microtasks h2) with (microtasks h1).
      by rewrite Hms1, Hmsr, Hms.
    - intros id. rewrite Hts3, clearTimeout_timers, Hget2. cbn [timeoutId].
      change (timers h2) with (timers h1).
      rewrite list_lookup_total_alter. case_decide as Hc2; [done|].
      rewrite Hts1. apply appended_timer_only; [done|].
      intros ->. apply Hc2. split; [done|].
      rewrite Hts1, length_app. cbn. unfold L. lia. }
  assert (Hget3 : controller (EnhancedAbortController.get h3 K) = N).
  { unfold EnhancedAbortController.get. rewrite Hcs3.
    change (controllers (EnhancedAbortController.clearTimeout K h2) !!! K)
      with (EnhancedAbortController.get (EnhancedAbortController.clearTimeout K h2) K).
    by rewrite clearTimeout_get, Hget2. }
  exists hr, h2, h3, (with_now (fun x => t + x) h3).
  repeat split; try done.
  - unfold EnhancedAbortController.isAborted, Platform.aborted.
    rewrite Hget2. cbn [controller]. by rewrite Hat2.
  - rewrite Htr3. cbn. by rewrite Htr1, Htrr, Htr.
  - by destruct Hq3.
  - by destruct Hq3.
  - by apply advance_quiescent.
  - cbn. rewrite Htr3. cbn. by rewrite Htr1, Htrr, Htr.
  - unfold EnhancedAbortController.isAborted, Platform.aborted.
    change (EnhancedAbortController.get (with_now _ h3) K)
      with (EnhancedAbortController.get h3 K).
    change (Platform.signal_at (with_now _ h3)) with (Platform.signal_at h3).
    rewrite Hget3, Hat3. by destruct r.
  - unfold EnhancedAbortController.reason.
    change (EnhancedAbortController.get (with_now _ h3) K)
      with (EnhancedAbortController.get h3 K).
    change (Platform.signal_at (with_now _ h3)) with (Platform.signal_at h3).
    by rewrite Hget3, Hat3.
Qed.

Lemma X4_witness :
  let '(c, h) := EnhancedAbortController.new Obj.empty in
  exists hr h2 h3 h4,
    Script.register_all (invoke 2) (EnhancedAbortController.signal c h)
      (map CbUser [1]) h = Some hr /\
    EventLoop.advance (invoke 2) 10
      (EnhancedAbortController.abortAfter c 1000 hr) = Some h2 /\
    EnhancedAbortController.isAborted c h2 = false /\
    EnhancedAbortController.abort (invoke 2) c (VString "Manual abort") h2 = Some h3 /\
    trace h3 = [1] /\
    quiescent h3 /\
    EventLoop.advance (invoke 2) 2000 h3 = Some h4 /\
    trace h4 = [1] /\
    EnhancedAbortController.isAborted c h4 = true /\
    EnhancedAbortController.reason c h4 = VString "Manual abort".
Proof.
  apply (X4_abort_cancels_deferred_abort 0 Obj.empty [1] 1000 10 2000
           (VString "Manual abort")).
  - split; [reflexivity|]. intros id. by destruct id.
  - vm_compute. lia.
Defined.

(** ** What no call can change

    A property [P] of heaps, together with the closures [A] callers may
    register and the native signals [D] that may fire, that survives
    each primitive step of the library survives every call on the
    public interface and every turn of the event loop. *)

Section Frame.
Variable P : heap -> Prop.
Variable A : callback -> Prop.
Variable D : nat -> Prop.

Hypothesis P_ext : forall h h',
  signals h' = signals h -> controllers h' = controllers h ->
  timers h' = timers h -> trace h' = trace h -> P h -> P h'.
Hypothesis P_listener : forall h n i, P h -> D n ->
  removed (listeners (Platform.signal_at h n) !!! i) = false ->
  A (handler (listeners (Platform.signal_at h n) !!! i)).
Hypothesis P_timer : forall h id, P h ->
  pending (timers h !!! id) = true -> A (timer_handler (timers h !!! id)).
Hypothesis P_log : forall tag h, P h -> A (CbUser tag) -> P (Platform.log tag h).
Hypothesis P_remove : forall n i h, P h -> P (Platform.removeEventListener n i h).
Hypothesis P_add : forall n cb h, P h -> A cb ->
  P (Platform.addEventListener n cb true h).2.
Hypothesis P_fire : forall n r h, P h -> D n ->
  Platform.aborted h n = false -> r <> VUndefined ->
  P (Platform.alter_signal (fun s => {| reason := r; listeners := listeners s |}) n h).
Hypothesis D_native : forall n, A (CbNativeAbort n) -> D n.
Hypothesis D_controller : forall c h, P h ->
  disposed (EnhancedAbortController.get h c) = false ->
  D (controller (EnhancedAbortController.get h c)).
Hypothesis A_fresh : forall h, P h -> A (CbNativeAbort (length (signals h))).
Hypothesis A_enhanced : forall c, A (CbEnhancedAbort c).
Hypothesis A_resolve : forall p, A (CbResolve p).
Hypothesis P_new_signal : forall h, P h -> P (Platform.new_AbortController h).2.
Hypothesis P_new : forall h, P h -> P (EnhancedAbortController.new h).2.
Hypothesis P_tryReset : forall c h, P h -> P (EnhancedAbortController.tryReset c h).2.
Hypothesis P_slot : forall f c h,
  (forall o, controller (f o) = controller o) ->
  (forall o, _signal (f o) = _signal o) ->
  (forall o, disposed (f o) = false -> disposed o = false) ->
  P h -> P (EnhancedAbortController.alter_controller f c h).
Hypothesis P_clear : forall id h, P h -> P (Platform.clearTimeout id h).
Hypothesis P_setTimeout : forall cb ms h, P h -> A cb ->
  P (Platform.setTimeout cb ms h).2.

Lemma frame_clearTimeout (c : nat) (h : heap) :
  P h -> P (EnhancedAbortController.clearTimeout c h).
Proof.
  intros HP. unfold EnhancedAbortController.clearTimeout.
  destruct (timeoutId (EnhancedAbortController.get h c)); [|done].
  apply P_slot; [done | done | done |]. by apply P_clear.
Qed.

Lemma frame_abortAfter (c ms : nat) (h : heap) :
  P h -> P (EnhancedAbortController.abortAfter c ms h).
Proof.
  intros HP. unfold EnhancedAbortController.abortAfter.
  destruct (disposed (EnhancedAbortController.get h c)); [done|].
  pose proof (P_setTimeout (CbEnhancedAbort c) ms _
                (frame_clearTimeout c h HP) (A_enhanced c)) as HP2.
  destruct (Platform.setTimeout _ _ _) as [id h2]. cbn [snd] in HP2.
  by apply P_slot.
Qed.

Lemma frame_dispose (c : nat) (h : heap) :
  P h -> P (EnhancedAbortController.dispose c h).
Proof.
  intros HP. unfold EnhancedAbortController.dispose.
  destruct (disposed (EnhancedAbortController.get h c)); [done|].
  apply frame_clearTimeout. apply P_slot; [done | done | discriminate | done].
Qed.

Lemma frame_inner_invoke (call : callback -> heap -> option heap) (n : nat) :
  (forall cb h h', P h -> A cb -> call cb h = Some h' -> P h') ->
  D n ->
  forall ids h h', P h -> Platform.inner_invoke call n ids h = Some h' -> P h'.
Proof.
  intros Hcall HD ids. induction ids as [|i rest IH]; intros h h' HP Hrun.
  - cbn in Hrun. by injection Hrun as <-.
  - cbn [Platform.inner_invoke] in Hrun.
    destruct (removed (listeners (Platform.signal_at h n) !!! i)) eqn:Hrem;
      [by eapply IH|].
    pose proof (P_listener h n i HP HD Hrem) as HA.
    match type of Hrun with
    | match call _ ?x with _ => _ end = _ =>
        assert (HP1 : P x);
        [|destruct (call (handler (listeners (Platform.signal_at h n) !!! i)) x)
            as [h2|] eqn:Hc; [|discriminate]]
    end.
    { destruct (once _); [|done]. by apply P_remove. }
    eapply IH; [|exact Hrun]. by eapply Hcall.
Qed.

Lemma frame_platform_abort (call : callback -> heap -> option heap)
    (n : nat) (r : value) (h h' : heap) :
  (forall cb h h', P h -> A cb -> call cb h = Some h' -> P h') ->
  D n -> P h -> Platform.abort call n r h = Some h' -> P h'.
Proof.
  intros Hcall HD HP. unfold Platform.abort.
  destruct (Platform.aborted h n) eqn:Ha; [by intros [= <-]|].
  unfold Platform.dispatchEvent. apply frame_inner_invoke; [done | done |].
  apply P_fire; [done | done | done |]. by destruct r.
Qed.

Lemma frame_controller_abort (call : callback -> heap -> option heap)
    (c : nat) (r : value) (h h' : heap) :
  (forall cb h h', P h -> A cb -> call cb h = Some h' -> P h') ->
  P h -> EnhancedAbortController.abort call c r h = Some h' -> P h'.
Proof.
  intros Hcall HP. unfold EnhancedAbortController.abort.
  destruct (disposed (EnhancedAbortController.get h c)) eqn:Hd; [by intros [= <-]|].
  pose proof (frame_clearTimeout c h HP) as HP1.
  apply frame_platform_abort; [done | | done].
  apply D_controller; [done|]. by rewrite clearTimeout_get.
Qed.

Lemma frame_invoke (fuel : nat) :
  forall cb h h', P h -> A cb -> invoke fuel cb h = Some h' -> P h'.
Proof.
  induction fuel as [|fuel IH]; intros cb h h' HP HA Hrun; [discriminate|].
  destruct cb; cbn [invoke] in Hrun.
  - injection Hrun as <-. by apply P_log.
  - injection Hrun as <-. by eapply P_ext; [..|exact HP].
  - eapply frame_platform_abort; [exact IH | by apply D_native | exact HP | exact Hrun].
  - eapply frame_controller_abort; [exact IH | exact HP | exact Hrun].
Qed.

Lemma frame_register (fuel : nat) (s : EnhancedAbortSignal) (cb : callback)
    (h : heap) (r : nat) (h' : heap) :
  P h -> A cb ->
  EnhancedAbortSignal.register (invoke fuel) s cb h = Some (r, h') -> P h'.
Proof.
  intros HP HA. unfold EnhancedAbortSignal.register.
  destruct (EnhancedAbortSignal.isAborted s h).
  - destruct (invoke fuel cb h) as [h1|] eqn:Hc; [|discriminate].
    intros [= _ <-]. pose proof (frame_invoke _ _ _ _ HP HA Hc) as HP1.
    by eapply P_ext; [..|exact HP1].
  - intros [= _ <-].
    pose proof (P_add (abortSignal s) cb h HP HA) as HP1.
    by eapply P_ext; [..|exact HP1].
Qed.

Lemma frame_register_each (fuel : nat) (cb : callback)
    (ss : list EnhancedAbortSignal) (h h' : heap) :
  P h -> A cb ->
  EnhancedAbortSignal.register_each (invoke fuel) ss cb h = Some h' -> P h'.
Proof.
  intros HP HA. revert h HP. induction ss as [|s rest IH]; intros h HP Hrun.
  - cbn in Hrun. by injection Hrun as <-.
  - cbn [EnhancedAbortSignal.register_each] in Hrun.
    destruct (EnhancedAbortSignal.register (invoke fuel) s cb h) as [[r h1]|] eqn:Hr;
      [|discriminate].
    eapply IH; [|exact Hrun]. by eapply frame_register.
Qed.

Lemma frame_unregister (r : nat) (h : heap) :
  P h -> P (Registration.unregister r h).
Proof.
  intros HP. rewrite unregister_unfold.
  destruct (AbortRegistration.disposed (Registration.get h r));
    [by eapply P_ext; [..|exact HP]|].
  destruct (AbortRegistration.unregisterCallback (Registration.get h r)) as [[|n i]|].
  - by eapply P_ext; [..|exact HP].
  - pose proof (P_remove n i h HP) as HP1. by eapply P_ext; [..|exact HP1].
  - by eapply P_ext; [..|exact HP].
Qed.

Lemma frame_run_microtasks (h : heap) :
  P h -> P (EventLoop.run_microtasks h).
Proof.
  intros HP. unfold EventLoop.run_microtasks.
  assert (Hfold : forall js h0, P h0 ->
            P (fold_left (fun h' j => EventLoop.run_job j h') js h0)).
  { induction js as [|[r] js IH]; intros h0 H0; [done|].
    cbn. apply IH. by apply frame_unregister. }
  pose proof (Hfold (microtasks h) h HP) as HP1. by eapply P_ext; [..|exact HP1].
Qed.

Lemma frame_run_timers (fuel : nat) (ids : list nat) (h h' : heap) :
  P h -> EventLoop.run_timers (invoke fuel) ids h = Some h' -> P h'.
Proof.
  revert h. induction ids as [|id rest IH]; intros h HP Hrun.
  - cbn in Hrun. by injection Hrun as <-.
  - cbn [EventLoop.run_timers] in Hrun.
    destruct (pending (timers h !!! id)) eqn:Hp; [|by eapply IH].
    destruct (due (timers h !!! id) <=? now h); [|by eapply IH].
    cbn [andb] in Hrun.
    destruct (invoke fuel _ _) as [h1|] eqn:Hc; [|discriminate].
    eapply IH; [|exact Hrun]. apply frame_run_microtasks.
    eapply frame_invoke; [| |exact Hc]; [by apply P_clear | by apply P_timer].
Qed.

Lemma frame_advance (fuel ms : nat) (h h' : heap) :
  P h -> EventLoop.advance (invoke fuel) ms h = Some h' -> P h'.
Proof.
  revert h. induction ms as [|ms IH]; intros h HP Hrun;
    cbn [EventLoop.advance] in Hrun; unfold EventLoop.turn in Hrun.
  - eapply frame_run_timers; [|exact Hrun]. by apply frame_run_microtasks.
  - destruct (EventLoop.run_timers _ _ _) as [h1|] eqn:Ht; [|discriminate].
    cbn in Hrun. eapply IH; [|exact Hrun].
    assert (HP1 : P h1).
    { eapply frame_run_timers; [|exact Ht]. by apply frame_run_microtasks. }
    by eapply P_ext; [..|exact HP1].
Qed.

Lemma frame_linkSignals (fuel : nat) (ss : list EnhancedAbortSignal)
    (h : heap) (c : nat) (h' : heap) :
  P h -> EnhancedAbortController.linkSignals (invoke fuel) ss h = Some (c, h') -> P h'.
Proof.
  intros HP. unfold EnhancedAbortController.linkSignals.
  pose proof (P_new h HP) as HP1.
  destruct (EnhancedAbortController.new h) as [c1 h1]. cbn [snd] in HP1.
  destruct (EnhancedAbortSignal.register_each _ _ _ _) as [h2|] eqn:Hr; [|discriminate].
  cbn. intros [= _ <-]. by eapply frame_register_each; [| |exact Hr].
Qed.

Lemma frame_exec (fuel : nat) (o : Script.op) (h h' : heap) :
  P h -> registers A o -> Script.exec fuel o h = Script.Returned h' -> P h'.
Proof.
  intros HP HA. destruct o; cbn [Script.exec]; unfold Script.returned.
  - intros [= <-]. by apply P_new.
  - destruct (EnhancedAbortController.abort _ _ _ _) as [h1|] eqn:Ha; [|discriminate].
    intros [= <-]. eapply frame_controller_abort; [|exact HP|exact Ha].
    apply frame_invoke.
  - intros [= <-]. by apply frame_abortAfter.
  - intros [= <-]. by apply frame_abortAfter.
  - intros [= <-]. by apply frame_dispose.
  - intros [= <-]. by apply P_tryReset.
  - destruct (EnhancedAbortController.linkSignals _ _ _) as [[c h1]|] eqn:Hl;
      [|discriminate].
    cbn. intros [= <-]. by eapply frame_linkSignals.
  - unfold EnhancedAbortController.createLinkedController.
    destruct (EnhancedAbortController.linkSignals _ _ _) as [[c h1]|] eqn:Hl;
      [|discriminate].
    cbn. intros [= <-]. by eapply frame_linkSignals.
  - unfold EnhancedAbortController.timeout.
    pose proof (P_new h HP) as HP1.
    destruct (EnhancedAbortController.new h) as [c h1]. cbn [snd] in HP1.
    cbn. intros [= <-]. by apply frame_abortAfter.
  - destruct (EnhancedAbortSignal.register _ _ _ _) as [[r h1]|] eqn:Hr; [|discriminate].
    cbn. intros [= <-]. by eapply frame_register.
  - change (Script.exec fuel (Script.OpRegisterThrowing s tag) h = Script.Returned h'
            -> P h').
    intros Hrun. apply exec_register_throwing_returned in Hrun as [_ Hrun].
    cbn [Script.exec] in Hrun. unfold Script.returned in Hrun.
    destruct (EnhancedAbortSignal.register _ _ _ _) as [[r h1]|] eqn:Hr; [|discriminate].
    cbn in Hrun. injection Hrun as <-. by eapply frame_register.
  - unfold EnhancedAbortSignal.whenAborted.
    destruct (EnhancedAbortSignal.isAborted s h).
    + cbn. intros [= <-]. by eapply P_ext; [..|exact HP].
    + cbn [Platform.new_Promise].
      destruct (EnhancedAbortSignal.register _ _ _ _) as [[r h1]|] eqn:Hr; [|discriminate].
      cbn. intros [= <-].
      assert (HP1 : P h1).
      { eapply frame_register; [| |exact Hr]; [|apply A_resolve].
        by eapply P_ext; [..|exact HP]. }
      by eapply P_ext; [..|exact HP1].
  - unfold EnhancedAbortSignal.throwIfAborted.
    destruct (EnhancedAbortSignal.isAborted s h); [discriminate|]. by intros [= <-].
  - intros [= <-]. by apply P_new_signal.
  - unfold EnhancedAbortSignal.aborted_.
    pose proof (P_new_signal h HP) as HP1. pose proof (A_fresh h HP) as HAf.
    cbn [Platform.new_AbortController] in *. cbn [snd] in HP1.
    destruct (Platform.abort _ _ _ _) as [h1|] eqn:Ha; [|discriminate].
    cbn. intros [= <-].
    eapply frame_platform_abort; [|by apply D_native|exact HP1|exact Ha].
    apply frame_invoke.
  - intros [= <-]. unfold EnhancedAbortSignal.timeout.
    pose proof (P_new_signal h HP) as HP1. pose proof (A_fresh h HP) as HAf.
    cbn [Platform.new_AbortController] in *. cbn [snd] in HP1.
    exact (P_setTimeout _ ms _ HP1 HAf).
  - unfold EnhancedAbortSignal.any.
    pose proof (P_new_signal h HP) as HP1. pose proof (A_fresh h HP) as HAf.
    cbn [Platform.new_AbortController] in *. cbn [snd] in HP1.
    destruct (EnhancedAbortSignal.register_each _ _ _ _) as [h2|] eqn:Hr; [|discriminate].
    cbn. intros [= <-]. by eapply frame_register_each; [| |exact Hr].
  - intros [= <-]. by apply frame_unregister.
  - intros [= <-]. by apply frame_unregister.
  - destruct (EventLoop.advance _ _ _) as [h1|] eqn:Ha; [|discriminate].
    intros [= <-]. by eapply frame_advance.
Qed.

Lemma frame_exec_all (fuel : nat) (ops : list Script.op) (h h' : heap) :
  P h -> Forall (registers A) ops ->
  Script.exec_all fuel ops h = Script.Returned h' -> P h'.
Proof.
  intros HP HA. revert h HP. induction HA as [|o rest Ho _ IH]; intros h HP Hrun.
  - cbn in Hrun. by injection Hrun as <-.
  - cbn [Script.exec_all] in Hrun.
    destruct (Script.exec fuel o h) as [h1| |] eqn:He; try discriminate.
    eapply IH; [|exact Hrun]. by eapply frame_exec.
Qed.
End Frame.

(** ** An abort reason is final *)

Lemma reason_allocated (h : heap) (n : nat) :
  reason (Platform.signal_at h n) <> VUndefined -> n < length (signals h).
Proof.
  intros Hr. apply aborted_allocated. unfold Platform.aborted.
  by destruct (reason (Platform.signal_at h n)).
Qed.

Lemma reason_final (n : nat) (r0 : value) (fuel : nat) (ops : list Script.op)
    (h h' : heap) :
  r0 <> VUndefined ->
  reason (Platform.signal_at h n) = r0 ->
  Script.exec_all fuel ops h = Script.Returned h' ->
  reason (Platform.signal_at h' n) = r0.
Proof.
  intros Hr HP Hrun.
  assert (Hgrow : forall x (y : AbortSignal),
            reason (Platform.signal_at x n) = r0 ->
            reason ((signals x ++ [y]) !!! n) = r0).
  { intros x y Hx. rewrite lookup_total_app_l; [done|].
    apply reason_allocated. by rewrite Hx. }
  eapply (frame_exec_all (fun x => reason (Platform.signal_at x n) = r0)
            (fun _ => True) (fun _ => True)); [..|exact HP| |exact Hrun].
  - intros x y Hs _ _ _. unfold Platform.signal_at. by rewrite Hs.
  - done.
  - done.
  - done.
  - intros m i x Hx. unfold Platform.removeEventListener, Platform.alter_listener.
    rewrite signal_at_alter_signal. by case_decide as Hc; [destruct Hc as [-> _]|].
  - intros m cb x Hx _. cbn [Platform.addEventListener snd].
    rewrite signal_at_alter_signal. by case_decide as Hc; [destruct Hc as [-> _]|].
  - intros m r x Hx _ Ha _. rewrite signal_at_alter_signal.
    case_decide as Hc; [|done]. destruct Hc as [-> _].
    unfold Platform.aborted in Ha. rewrite Hx in Ha. by destruct r0.
  - done.
  - done.
  - done.
  - done.
  - done.
  - intros x Hx. by apply Hgrow.
  - intros x Hx. by apply Hgrow.
  - intros c x Hx. unfold EnhancedAbortController.tryReset.
    destruct (disposed (EnhancedAbortController.get x c)); [done|].
    cbn. unfold Platform.signal_at. cbn. rewrite clearTimeout_signals. by apply Hgrow.
  - done.
  - done.
  - done.
  - apply Forall_forall. intros o _. by destruct o.
Qed.

(** X5: an abort reason is final.  Once a signal is aborted, no
    sequence of calls on the public interface and no passing of time
    makes it unaborted or changes its reason: not a second [abort] with
    another reason, not [tryReset] on its controller, not the abort of
    a linked signal. *)
Theorem X5_abort_reason_is_final
    (fuel : nat) (ops : list Script.op) (s : EnhancedAbortSignal) (h h' : heap) :
  EnhancedAbortSignal.isAborted s h = true ->
  Script.exec_all fuel ops h = Script.Returned h' ->
  EnhancedAbortSignal.isAborted s h' = true /\
  EnhancedAbortSignal.aborted s h' = true /\
  EnhancedAbortSignal.reason s h' = EnhancedAbortSignal.reason s h.
Proof.
  intros Ha Hrun.
  unfold EnhancedAbortSignal.isAborted, EnhancedAbortSignal.aborted,
    EnhancedAbortSignal.reason, Platform.aborted in *.
  assert (Hr : reason (Platform.signal_at h (abortSignal s)) <> VUndefined).
  { intros Hu. by rewrite Hu in Ha. }
  rewrite (reason_final (abortSignal s) _ fuel ops h h' Hr eq_refl Hrun).
  by rewrite Ha.
Qed.

Lemma X5_witness :
  exists h h',
    Script.exec_all 2 [Script.OpNew; Script.OpAbort 0 (VString "first")] Obj.empty
      = Script.Returned h /\
    Script.exec_all 2
      [Script.OpAbort 0 (VString "second"); Script.OpTryReset 0; Script.OpAwait 1] h
      = Script.Returned h' /\
    EnhancedAbortSignal.isAborted (EnhancedAbortSignal.new 0) h' = true /\
    EnhancedAbortSignal.aborted (EnhancedAbortSignal.new 0) h' = true /\
    EnhancedAbortSignal.reason (EnhancedAbortSignal.new 0) h' = VString "first".
Proof.
  pose (h := match Script.exec_all 2 [Script.OpNew; Script.OpAbort 0 (VString "first")]
                     Obj.empty with
             | Script.Returned x => x
             | _ => Obj.empty
             end).
  pose (ops := [Script.OpAbort 0 (VString "second"); Script.OpTryReset 0;
                Script.OpAwait 1]).
  pose (h' := match Script.exec_all 2 ops h with
              | Script.Returned x => x
              | _ => Obj.empty
              end).
  assert (H1 : EnhancedAbortSignal.isAborted (EnhancedAbortSignal.new 0) h = true)
    by (vm_compute; reflexivity).
  assert (H2 : Script.exec_all 2 ops h = Script.Returned h')
    by (vm_compute; reflexivity).
  destruct (X5_abort_reason_is_final 2 ops (EnhancedAbortSignal.new 0) h h' H1 H2)
    as (Ha & Hb & Hc).
  exists h, h'.
  split; [vm_compute; reflexivity|]. split; [exact H2|].
  split; [exact Ha|]. split; [exact Hb|].
  rewrite Hc. vm_compute. reflexivity.
Defined.

(** ** Signals nothing can abort *)

Section Dormant.
Variable n : nat.
Variable tags : list nat.

Lemma dormant_ext (h h' : heap) :
  signals h' = signals h -> controllers h' = controllers h ->
  timers h' = timers h -> trace h' = trace h ->
  dormant n tags h -> dormant n tags h'.
Proof.
  intros Hs Hc Ht Htr (Hn & Hr & [H1 H2 H3 H4]).
  unfold dormant, Platform.signal_at in *. rewrite Hs.
  split; [done|]. split; [done|].
  constructor; unfold EnhancedAbortController.get, Platform.signal_at;
    rewrite ?Hs, ?Hc, ?Ht, ?Htr; done.
Qed.

Lemma dormant_listener (h : heap) (m i : nat) :
  dormant n tags h -> m <> n ->
  removed (listeners (Platform.signal_at h m) !!! i) = false ->
  foreign n tags (handler (listeners (Platform.signal_at h m) !!! i)).
Proof.
  intros (_ & _ & [_ Hl _ _]) Hm Hrem. specialize (Hl m Hm).
  destruct (decide (i < length (listeners (Platform.signal_at h m)))) as [Hi|Hi].
  - apply (Forall_lookup_1 _ _ i _ Hl). by apply list_lookup_lookup_total_lt.
  - rewrite list_lookup_total_alt, lookup_ge_None_2 in Hrem by lia. discriminate.
Qed.

Lemma dormant_timer (h : heap) (id : nat) :
  dormant n tags h -> pending (timers h !!! id) = true ->
  foreign n tags (timer_handler (timers h !!! id)).
Proof.
  intros (_ & _ & [_ _ Ht _]) Hp.
  destruct (decide (id < length (timers h))) as [Hi|Hi].
  - apply (Forall_lookup_1 _ _ id _ Ht). by apply list_lookup_lookup_total_lt.
  - rewrite list_lookup_total_alt, lookup_ge_None_2 in Hp by lia. discriminate.
Qed.

Lemma dormant_log (tag : nat) (h : heap) :
  dormant n tags h -> foreign n tags (CbUser tag) -> dormant n tags (Platform.log tag h).
Proof.
  intros (Hn & Hr & [H1 H2 H3 H4]) [_ Hf].
  split; [done|]. split; [done|]. constructor; try done.
  intros t Ht. cbn. rewrite elem_of_app, list_elem_of_singleton.
  intros [Hin|Heq]; [by apply (H4 t)|]. subst t. by apply (Hf tag).
Qed.

Lemma dormant_alter_signal (f : AbortSignal -> AbortSignal) (m : nat) (h : heap) :
  (m = n -> forall s, reason (f s) = reason s) ->
  (forall s, Forall (fun l => foreign n tags (handler l)) (listeners s) ->
             Forall (fun l => foreign n tags (handler l)) (listeners (f s))) ->
  dormant n tags h -> dormant n tags (Platform.alter_signal f m h).
Proof.
  intros Hre Hli (Hn & Hr & [H1 H2 H3 H4]). split; [|split].
  - cbn. by rewrite length_alter.
  - rewrite signal_at_alter_signal. case_decide as Hc; [|done].
    destruct Hc as [-> _]. by rewrite Hre.
  - constructor; try done. intros m' Hm'. rewrite signal_at_alter_signal.
    case_decide as Hc; [|by apply H2]. destruct Hc as [-> _]. apply Hli. by apply H2.
Qed.

Lemma dormant_remove (m i : nat) (h : heap) :
  dormant n tags h -> dormant n tags (Platform.removeEventListener m i h).
Proof.
  apply dormant_alter_signal; [done|]. intros s Hs. cbn.
  apply Forall_alter; [done|]. by intros x _ Hx.
Qed.

Lemma dormant_add (m : nat) (cb : callback) (h : heap) :
  dormant n tags h -> foreign n tags cb ->
  dormant n tags (Platform.addEventListener m cb true h).2.
Proof.
  intros Hd Hcb. cbn [Platform.addEventListener snd].
  apply dormant_alter_signal; [done| |done]. intros s Hs. cbn.
  apply Forall_app_2; [done|]. by apply Forall_singleton.
Qed.

Lemma dormant_fire (m : nat) (r : value) (h : heap) :
  dormant n tags h -> m <> n ->
  dormant n tags
    (Platform.alter_signal (fun s => {| reason := r; listeners := listeners s |}) m h).
Proof. intros Hd Hm. by apply dormant_alter_signal. Qed.

Lemma dormant_controller (c : nat) (h : heap) :
  dormant n tags h ->
  disposed (EnhancedAbortController.get h c) = false ->
  controller (EnhancedAbortController.get h c) <> n.
Proof. intros (_ & _ & [H1 _ _ _]). apply H1. Qed.

Lemma dormant_fresh (h : heap) :
  dormant n tags h -> foreign n tags (CbNativeAbort (length (signals h))).
Proof. intros (Hn & _). split; [intros [= Heq]; lia | discriminate]. Qed.

Lemma dormant_new_signal (h : heap) :
  dormant n tags h -> dormant n tags (Platform.new_AbortController h).2.
Proof.
  intros (Hn & Hr & [H1 H2 H3 H4]). cbn [Platform.new_AbortController snd].
  split; [|split].
  - cbn. rewrite length_app. lia.
  - unfold Platform.signal_at in *. cbn. by rewrite lookup_total_app_l.
  - constructor; try done. intros m Hm. unfold Platform.signal_at. cbn.
    destruct (decide (m < length (signals h))) as [Hlt|Hge].
    + rewrite lookup_total_app_l by done. by apply H2.
    + rewrite lookup_total_app_r by lia.
      by destruct (m - length (signals h)) as [|[|k]].
Qed.

Lemma dormant_alter_controller
    (f : EnhancedAbortController -> EnhancedAbortController) (c : nat) (h : heap) :
  (forall o, (disposed o = false -> controller o <> n) ->
             disposed (f o) = false -> controller (f o) <> n) ->
  dormant n tags h -> dormant n tags (EnhancedAbortController.alter_controller f c h).
Proof.
  intros Hf (Hn & Hr & [H1 H2 H3 H4]). split; [done|]. split; [done|].
  constructor; try done. intros c'. rewrite get_alter_controller.
  case_decide as Hc; [|by apply H1]. apply Hf, H1.
Qed.

Lemma dormant_push_controller (o : EnhancedAbortController) (h : heap) :
  (disposed o = false -> controller o <> n) ->
  dormant n tags h -> dormant n tags (with_controllers (fun cs => cs ++ [o]) h).
Proof.
  intros Ho (Hn & Hr & [H1 H2 H3 H4]). split; [done|]. split; [done|].
  constructor; try done. intros c. unfold EnhancedAbortController.get in *. cbn.
  destruct (decide (c < length (controllers h))) as [Hlt|Hge].
  - rewrite lookup_total_app_l by done. apply H1.
  - rewrite lookup_total_app_r by lia.
    by destruct (c - length (controllers h)) as [|[|k]].
Qed.

Lemma dormant_new (h : heap) :
  dormant n tags h -> dormant n tags (EnhancedAbortController.new h).2.
Proof.
  intros Hd. unfold EnhancedAbortController.new.
  cbn [Platform.new_AbortController snd].
  apply (dormant_push_controller _ (Platform.new_AbortController h).2);
    [|by apply dormant_new_signal].
  cbn. intros _ Heq. destruct Hd as (Hn & _). lia.
Qed.

Lemma dormant_clear (id : nat) (h : heap) :
  dormant n tags h -> dormant n tags (Platform.clearTimeout id h).
Proof.
  intros (Hn & Hr & [H1 H2 H3 H4]). split; [done|]. split; [done|].
  constructor; try done. cbn. apply Forall_alter; [done|]. by intros x _ Hx.
Qed.

Lemma dormant_setTimeout (cb : callback) (ms : nat) (h : heap) :
  dormant n tags h -> foreign n tags cb ->
  dormant n tags (Platform.setTimeout cb ms h).2.
Proof.
  intros (Hn & Hr & [H1 H2 H3 H4]) Hcb. split; [done|]. split; [done|].
  constructor; try done. cbn. apply Forall_app_2; [done|]. by apply Forall_singleton.
Qed.

Lemma dormant_clearTimeout (c : nat) (h : heap) :
  dormant n tags h -> dormant n tags (EnhancedAbortController.clearTimeout c h).
Proof.
  intros Hd. unfold EnhancedAbortController.clearTimeout.
  destruct (timeoutId (EnhancedAbortController.get h c)); [|done].
  apply dormant_alter_controller; [by intros o Ho|]. by apply dormant_clear.
Qed.

Lemma dormant_tryReset (c : nat) (h : heap) :
  dormant n tags h -> dormant n tags (EnhancedAbortController.tryReset c h).2.
Proof.
  intros Hd. unfold EnhancedAbortController.tryReset.
  destruct (disposed (EnhancedAbortController.get h c)); [done|].
  pose proof (dormant_clearTimeout c h Hd) as Hd1.
  cbn [Platform.new_AbortController snd].
  apply (dormant_alter_controller _ c (Platform.new_AbortController _).2);
    [|by apply dormant_new_signal].
  intros o _ _. cbn. destruct Hd1 as (Hn & _). intros Heq. cbn in Hn. lia.
Qed.

(** No call on the public interface and no turn of the event loop
    wakes a dormant signal, as long as the script registers foreign
    callbacks only. *)
Lemma dormant_exec_all (fuel : nat) (ops : list Script.op) (h h' : heap) :
  dormant n tags h -> Forall (registers (foreign n tags)) ops ->
  Script.exec_all fuel ops h = Script.Returned h' -> dormant n tags h'.
Proof.
  intros Hd Hops Hrun.
  eapply (frame_exec_all (dormant n tags) (foreign n tags) (fun m => m <> n));
    [..|exact Hd|exact Hops|exact Hrun].
  - apply dormant_ext.
  - apply dormant_listener.
  - apply dormant_timer.
  - apply dormant_log.
  - intros. by apply dormant_remove.
  - intros. by apply dormant_add.
  - intros. by apply dormant_fire.
  - intros m [Hm _] ->. by apply Hm.
  - apply dormant_controller.
  - apply dormant_fresh.
  - intros c. split; discriminate.
  - intros p. split; discriminate.
  - apply dormant_new_signal.
  - apply dormant_new.
  - apply dormant_tryReset.
  - intros f c h1 Hc _ Hdis Hd1. apply dormant_alter_controller; [|done].
    intros o Ho Hf. rewrite Hc. apply Ho. by apply Hdis.
  - intros. by apply dormant_clear.
  - intros. by apply dormant_setTimeout.
Qed.

(** Registering the callbacks [tags] on the dormant signal itself. *)
Lemma dormant_register_all (call : callback -> heap -> option heap)
    (s : EnhancedAbortSignal) (h : heap) :
  abortSignal s = n -> dormant n tags h ->
  exists h',
    Script.register_all call s (map CbUser tags) h = Some h' /\ dormant n tags h'.
Proof.
  intros Hs (Hn & Hr & [H1 H2 H3 H4]).
  assert (Ha : EnhancedAbortSignal.isAborted s h = false).
  { unfold EnhancedAbortSignal.isAborted, Platform.aborted. by rewrite Hs, Hr. }
  destruct (register_all_live call s (map CbUser tags) h Ha)
    as (h' & Hreg & Hat & Hoth & Hlen & Hcs & Hts & Hms & Htr); [by rewrite Hs|].
  exists h'. split; [done|]. rewrite Hs in Hat, Hoth. split; [|split].
  - by rewrite Hlen.
  - by rewrite Hat.
  - constructor.
    + unfold EnhancedAbortController.get. rewrite Hcs. apply H1.
    + intros m Hm. rewrite Hoth by done. by apply H2.
    + by rewrite Hts.
    + by rewrite Htr.
Qed.

(** A signal that was just created in a sealed heap is dormant. *)
Lemma dormant_born (h0 : heap) :
  n = length (signals h0) -> sealed n tags h0 ->
  dormant n tags (Platform.new_AbortController h0).2.
Proof.
  intros Hn [H1 H2 H3 H4]. cbn [Platform.new_AbortController snd].
  split; [|split].
  - cbn. rewrite length_app. cbn. lia.
  - unfold Platform.signal_at. cbn. subst n. by rewrite list_lookup_total_middle.
  - constructor; try done. intros m Hm. unfold Platform.signal_at in *. cbn.
    destruct (decide (m < length (signals h0))) as [Hlt|Hge].
    + rewrite lookup_total_app_l by done. by apply H2.
    + rewrite lookup_total_app_r by lia.
      by destruct (m - length (signals h0)) as [|[|k]].
Qed.
End Dormant.

Lemma sealed_empty (n : nat) (tags : list nat) : sealed n tags Obj.empty.
Proof.
  constructor.
  - intros c. by destruct c.
  - intros m _. unfold Platform.signal_at. cbn. by destruct m.
  - constructor.
  - intros t _ Hin. by apply elem_of_nil in Hin.
Qed.

(** A fresh controller in a sealed heap, with the callbacks [tags]
    registered on its signal: once the controller lets go of its native
    controller (or is disposed), the signal is dormant. *)
Lemma dormant_released (call : callback -> heap -> option heap)
    (h0 : heap) (tags : list nat)
    (f : EnhancedAbortController -> EnhancedAbortController) :
  sealed (length (signals h0)) tags h0 ->
  (forall o, disposed (f o) = false -> controller (f o) <> length (signals h0)) ->
  let '(c, h) := EnhancedAbortController.new h0 in
  exists h1,
    Script.register_all call (EnhancedAbortController.signal c h) (map CbUser tags) h
      = Some h1 /\
    EnhancedAbortController.signal c h = EnhancedAbortSignal.new (length (signals h0)) /\
    c = length (controllers h0) /\
    EnhancedAbortController.get h1 c = live_controller (length (signals h0)) /\
    length (signals h1) = S (length (signals h0)) /\
    length (controllers h1) = S (length (controllers h0)) /\
    dormant (length (signals h0)) tags (EnhancedAbortController.alter_controller f c h1).
Proof.
  intros [H1 H2 H3 H4] Hf.
  pose proof (new_controller h0) as Hnew.
  destruct (EnhancedAbortController.new h0) as [c h].
  destruct Hnew as (-> & Hget & Hat & Hss & Hcs & Hts & Hms & Htr).
  set (K := length (controllers h0)) in *.
  set (N := length (signals h0)) in *.
  assert (HN : N < length (signals h)).
  { rewrite Hss, length_app. cbn. unfold N. lia. }
  unfold EnhancedAbortController.signal. rewrite Hget. cbn [_signal].
  assert (Hna : EnhancedAbortSignal.isAborted (EnhancedAbortSignal.new N) h = false).
  { unfold EnhancedAbortSignal.isAborted, Platform.aborted.
    cbn [abortSignal EnhancedAbortSignal.new]. by rewrite Hat. }
  destruct (register_all_live call (EnhancedAbortSignal.new N) (map CbUser tags) h Hna HN)
    as (h1 & Hreg & Hat1 & Hoth1 & Hlen1 & Hcs1 & Hts1 & Hms1 & Htr1).
  cbn [abortSignal EnhancedAbortSignal.new] in Hat1, Hoth1.
  assert (HlenS : length (signals h1) = Datatypes.S N).
  { rewrite Hlen1, Hss, length_app. cbn. unfold N. lia. }
  assert (HlenC : length (controllers h1) = Datatypes.S K).
  { rewrite Hcs1, Hcs, length_app. cbn. unfold K. lia. }
  exists h1. split; [exact Hreg|]. split; [done|]. split; [done|].
  split; [unfold EnhancedAbortController.get; by rewrite Hcs1|].
  split; [done|]. split; [done|].
  split; [|split].
  - cbn. lia.
  - change (Platform.signal_at (EnhancedAbortController.alter_controller f K h1) N)
      with (Platform.signal_at h1 N). rewrite Hat1, Hat. done.
  - constructor.
    + intros c'. rewrite get_alter_controller. case_decide as Hc; [by apply Hf|].
      unfold EnhancedAbortController.get. rewrite Hcs1, Hcs.
      destruct (decide (c' < K)) as [Hlt|Hge].
      * rewrite lookup_total_app_l by done. apply H1.
      * assert (c' <> K) by (intros ->; apply Hc; split; [done|lia]).
        rewrite lookup_total_app_r by (unfold K in *; lia).
        destruct (c' - length (controllers h0)) as [|[|k]] eqn:Hk;
          [unfold K in *; lia | done | done].
    + intros m Hm.
      change (Platform.signal_at (EnhancedAbortController.alter_controller f K h1) m)
        with (Platform.signal_at h1 m).
      rewrite Hoth1 by done. unfold Platform.signal_at. rewrite Hss.
      destruct (decide (m < N)) as [Hlt|Hge].
      * rewrite lookup_total_app_l by done. by apply H2.
      * rewrite lookup_total_app_r by (unfold N in *; lia).
        destruct (m - length (signals h0)) as [|[|k]] eqn:Hk;
          [unfold N in *; lia | done | done].
    + cbn. by rewrite Hts1, Hts.
    + cbn. by rewrite Htr1, Htr.
Qed.

(** X6: [EnhancedAbortSignal.none] says it cannot be aborted, and it
    cannot: with callbacks [tags] registered on it, no sequence of
    calls on the public interface and no passing of time aborts it or
    runs one of the callbacks.  (The script is any script that does not
    forge the native controller private to [none] and registers
    callbacks other than [tags].) *)
Theorem X6_none_never_aborts
    (fuel : nat) (h0 : heap) (tags : list nat) (ops : list Script.op) :
  sealed (length (signals h0)) tags h0 ->
  Forall (registers (foreign (length (signals h0)) tags)) ops ->
  let '(s, h) := EnhancedAbortSignal.none h0 in
  EnhancedAbortSignal.canBeAborted s = false /\
  exists h1,
    Script.register_all (invoke fuel) s (map CbUser tags) h = Some h1 /\
    forall h', Script.exec_all fuel ops h1 = Script.Returned h' ->
      EnhancedAbortSignal.isAborted s h' = false /\
      EnhancedAbortSignal.reason s h' = VUndefined /\
      forall t, t ∈ tags -> t ∉ trace h'.
Proof.
  intros Hs Hops. unfold EnhancedAbortSignal.none.
  pose proof (dormant_born _ tags h0 eq_refl Hs) as Hd.
  cbn [Platform.new_AbortController snd] in *. split; [done|].
  destruct (dormant_register_all _ tags (invoke fuel)
              {| abortSignal := length (signals h0); _canBeAborted := false |} _
              eq_refl Hd) as (h1 & Hreg & Hd1).
  exists h1. split; [exact Hreg|]. intros h' Hrun.
  destruct (dormant_exec_all _ _ fuel ops h1 h' Hd1 Hops Hrun) as (_ & Hr & [_ _ _ Ht]).
  unfold EnhancedAbortSignal.isAborted, EnhancedAbortSignal.reason, Platform.aborted.
  cbn [abortSignal] in *. by rewrite Hr.
Qed.

Lemma X6_witness :
  let ops := [Script.OpNew; Script.OpRegister (EnhancedAbortSignal.new 0) (CbUser 9);
              Script.OpAbort 0 VUndefined; Script.OpAwait 3] in
  let '(s, h) := EnhancedAbortSignal.none Obj.empty in
  EnhancedAbortSignal.canBeAborted s = false /\
  exists h1,
    Script.register_all (invoke 2) s (map CbUser [1; 2]) h = Some h1 /\
    forall h', Script.exec_all 2 ops h1 = Script.Returned h' ->
      EnhancedAbortSignal.isAborted s h' = false /\
      EnhancedAbortSignal.reason s h' = VUndefined /\
      forall t, t ∈ [1; 2] -> t ∉ trace h'.
Proof.
  apply (X6_none_never_aborts 2 Obj.empty [1; 2]).
  - apply sealed_empty.
  - repeat constructor; [discriminate|].
    intros t [= <-] Hin%list_elem_of_In. cbn in Hin. intuition discriminate.
Defined.

(** X7: [tryReset()] abandons the old signal.  On a fresh controller
    with callbacks [tags] registered on its signal, after [tryReset()]
    the controller has another signal, and nothing that is done
    afterwards (aborting the controller included) ever aborts the old
    signal or runs one of those callbacks. *)
Theorem X7_tryReset_abandons_old_signal
    (fuel : nat) (h0 : heap) (tags : list nat) (ops : list Script.op) :
  sealed (length (signals h0)) tags h0 ->
  Forall (registers (foreign (length (signals h0)) tags)) ops ->
  let '(c, h) := EnhancedAbortController.new h0 in
  let s := EnhancedAbortController.signal c h in
  exists h1,
    Script.register_all (invoke fuel) s (map CbUser tags) h = Some h1 /\
    let '(ok, h2) := EnhancedAbortController.tryReset c h1 in
    ok = true /\
    EnhancedAbortController.signal c h2 <> s /\
    forall h', Script.exec_all fuel ops h2 = Script.Returned h' ->
      EnhancedAbortSignal.isAborted s h' = false /\
      forall t, t ∈ tags -> t ∉ trace h'.
Proof.
  intros Hs Hops.
  set (N := length (signals h0)) in *.
  pose proof (dormant_released (invoke fuel) h0 tags
    (fun o => {| controller := Datatypes.S N;
                 _signal := EnhancedAbortSignal.new (Datatypes.S N);
                 timeoutId := timeoutId o; disposed := disposed o |}) Hs) as Hrel.
  destruct (EnhancedAbortController.new h0) as [c h]. cbv zeta.
  destruct Hrel as (h1 & Hreg & Hsig & -> & Hget & HlenS & HlenC & Hd).
  { intros o _. cbn. unfold N. lia. }
  set (K := length (controllers h0)) in *.
  exists h1. split; [exact Hreg|].
  unfold EnhancedAbortController.tryReset. rewrite Hget. cbn [disposed live_controller].
  rewrite clearTimeout_idle by (by rewrite Hget).
  cbn [Platform.new_AbortController]. rewrite HlenS.
  split; [done|]. split.
  - unfold EnhancedAbortController.signal at 1. rewrite get_alter_controller.
    rewrite decide_True by (split; [done|cbn; lia]). cbn [_signal]. rewrite Hsig.
    unfold EnhancedAbortSignal.new. intros [= Heq]. fold N in Heq. lia.
  - intros h' Hrun.
    apply dormant_new_signal in Hd. cbn [Platform.new_AbortController snd] in Hd.
    destruct (dormant_exec_all _ _ fuel ops _ h' Hd Hops Hrun) as (_ & Hr & [_ _ _ Ht]).
    rewrite Hsig.
    unfold EnhancedAbortSignal.isAborted, Platform.aborted, EnhancedAbortSignal.new.
    cbn [abortSignal]. by rewrite Hr.
Qed.

Lemma X7_witness :
  let ops := [Script.OpAbort 0 (VString "late"); Script.OpAbortAfter 0 5;
              Script.OpAwait 10] in
  let '(c, h) := EnhancedAbortController.new Obj.empty in
  let s := EnhancedAbortController.signal c h in
  exists h1,
    Script.register_all (invoke 2) s (map CbUser [7]) h = Some h1 /\
    let '(ok, h2) := EnhancedAbortController.tryReset c h1 in
    ok = true /\
    EnhancedAbortController.signal c h2 <> s /\
    forall h', Script.exec_all 2 ops h2 = Script.Returned h' ->
      EnhancedAbortSignal.isAborted s h' = false /\
      forall t, t ∈ [7] -> t ∉ trace h'.
Proof.
  apply (X7_tryReset_abandons_old_signal 2 Obj.empty [7]).
  - apply sealed_empty.
  - repeat constructor.
Defined.

(** X8: [EnhancedAbortSignal.any([])] returns a signal that says it
    can be aborted, but nothing holds its native controller: with
    callbacks [tags] registered on it, no sequence of calls on the
    public interface and no passing of time aborts it or runs one of
    the callbacks. *)
Theorem X8_any_of_nothing_never_aborts
    (fuel : nat) (h0 : heap) (tags : list nat) (ops : list Script.op) :
  sealed (length (signals h0)) tags h0 ->
  Forall (registers (foreign (length (signals h0)) tags)) ops ->
  exists s h h1,
    EnhancedAbortSignal.any (invoke fuel) [] h0 = Some (s, h) /\
    EnhancedAbortSignal.canBeAborted s = true /\
    Script.register_all (invoke fuel) s (map CbUser tags) h = Some h1 /\
    forall h', Script.exec_all fuel ops h1 = Script.Returned h' ->
      EnhancedAbortSignal.isAborted s h' = false /\
      EnhancedAbortSignal.reason s h' = VUndefined /\
      forall t, t ∈ tags -> t ∉ trace h'.
Proof.
  intros Hs Hops.
  pose proof (dormant_born _ tags h0 eq_refl Hs) as Hd.
  cbn [Platform.new_AbortController snd] in Hd.
  destruct (dormant_register_all _ tags (invoke fuel)
              (EnhancedAbortSignal.new (length (signals h0))) _ eq_refl Hd)
    as (h1 & Hreg & Hd1).
  eexists _, _, h1. split; [reflexivity|]. split; [reflexivity|].
  split; [exact Hreg|]. intros h' Hrun.
  destruct (dormant_exec_all _ _ fuel ops h1 h' Hd1 Hops Hrun) as (_ & Hr & [_ _ _ Ht]).
  unfold EnhancedAbortSignal.isAborted, EnhancedAbortSignal.reason, Platform.aborted.
  cbn [abortSignal EnhancedAbortSignal.new] in *. by rewrite Hr.
Qed.

Lemma X8_witness :
  let ops := [Script.OpControllerTimeout 1; Script.OpAborted; Script.OpAwait 2] in
  exists s h h1,
    EnhancedAbortSignal.any (invoke 2) [] Obj.empty = Some (s, h) /\
    EnhancedAbortSignal.canBeAborted s = true /\
    Script.register_all (invoke 2) s (map CbUser [3]) h = Some h1 /\
    forall h', Script.exec_all 2 ops h1 = Script.Returned h' ->
      EnhancedAbortSignal.isAborted s h' = false /\
      EnhancedAbortSignal.reason s h' = VUndefined /\
      forall t, t ∈ [3] -> t ∉ trace h'.
Proof.
  apply (X8_any_of_nothing_never_aborts 2 Obj.empty [3]).
  - apply sealed_empty.
  - repeat constructor.
Defined.

(** ** Disposal is final *)

Lemma clearTimeout_get_other (c d : nat) (h : heap) :
  c <> d ->
  EnhancedAbortController.get (EnhancedAbortController.clearTimeout c h) d =
    EnhancedAbortController.get h d.
Proof.
  intros Hne. unfold EnhancedAbortController.clearTimeout.
  destruct (timeoutId (EnhancedAbortController.get h c)); [|done].
  rewrite get_alter_controller. by rewrite decide_False by tauto.
Qed.

(** A disposed controller stays disposed, around the same native
    controller, whatever is called. *)
Lemma disposed_final (c n : nat) (fuel : nat) (ops : list Script.op) (h h' : heap) :
  c < length (controllers h) ->
  disposed (EnhancedAbortController.get h c) = true ->
  controller (EnhancedAbortController.get h c) = n ->
  Script.exec_all fuel ops h = Script.Returned h' ->
  c < length (controllers h') /\
  disposed (EnhancedAbortController.get h' c) = true /\
  controller (EnhancedAbortController.get h' c) = n.
Proof.
  intros Hc Hd Hn Hrun.
  assert (Hpush : forall x o,
            (c < length (controllers x) /\
             disposed (EnhancedAbortController.get x c) = true /\
             controller (EnhancedAbortController.get x c) = n) ->
            c < length (controllers x ++ [o]) /\
            disposed ((controllers x ++ [o]) !!! c) = true /\
            controller ((controllers x ++ [o]) !!! c) = n).
  { intros x o (Hx & Hdx & Hnx). rewrite length_app, lookup_total_app_l by done.
    split; [lia|]. done. }
  eapply (frame_exec_all
            (fun x => c < length (controllers x) /\
                      disposed (EnhancedAbortController.get x c) = true /\
                      controller (EnhancedAbortController.get x c) = n)
            (fun _ => True) (fun _ => True)); [..|by auto| |exact Hrun].
  - intros x y _ Hcs _ _. unfold EnhancedAbortController.get. by rewrite Hcs.
  - done.
  - done.
  - done.
  - done.
  - done.
  - done.
  - done.
  - done.
  - done.
  - done.
  - done.
  - done.
  - intros x Hx. by apply Hpush.
  - intros c' x (Hx & Hdx & Hnx). unfold EnhancedAbortController.tryReset.
    destruct (disposed (EnhancedAbortController.get x c')) eqn:Hd'; [done|].
    assert (Hne : c' <> c) by (intros ->; congruence).
    cbn [Platform.new_AbortController snd].
    rewrite get_alter_controller. rewrite decide_False by tauto.
    cbn [controllers EnhancedAbortController.alter_controller with_controllers].
    rewrite length_alter.
    change (EnhancedAbortController.get (with_signals _ ?y) c)
      with (EnhancedAbortController.get y c).
    change (controllers (with_signals _ ?y)) with (controllers y).
    rewrite clearTimeout_controllers_length, clearTimeout_get_other by done. done.
  - intros f c' x Hf _ Hdis (Hx & Hdx & Hnx). rewrite get_alter_controller.
    cbn [controllers EnhancedAbortController.alter_controller with_controllers].
    rewrite length_alter. split; [done|].
    case_decide as Hcc; [|done]. destruct Hcc as [-> _]. rewrite Hf. split; [|done].
    destruct (disposed (f (EnhancedAbortController.get x c))) eqn:Hfd; [done|].
    apply Hdis in Hfd. congruence.
  - done.
  - done.
  - apply Forall_forall. intros o _. by destruct o.
Qed.

(** X9: disposal is final, for everybody.  On a fresh controller with
    callbacks [tags] registered on its signal, after [dispose()] the
    controller stays disposed and its signal is never aborted, whatever
    is called afterwards on this or any other object and however much
    time passes; none of the callbacks ever runs. *)
Theorem X9_disposed_signal_never_aborts
    (fuel : nat) (h0 : heap) (tags : list nat) (ops : list Script.op) :
  sealed (length (signals h0)) tags h0 ->
  Forall (registers (foreign (length (signals h0)) tags)) ops ->
  let '(c, h) := EnhancedAbortController.new h0 in
  let s := EnhancedAbortController.signal c h in
  exists h1,
    Script.register_all (invoke fuel) s (map CbUser tags) h = Some h1 /\
    forall h',
      Script.exec_all fuel ops (EnhancedAbortController.dispose c h1)
        = Script.Returned h' ->
      EnhancedAbortController.isDisposed c h' = true /\
      EnhancedAbortController.isAborted c h' = false /\
      EnhancedAbortSignal.isAborted s h' = false /\
      forall t, t ∈ tags -> t ∉ trace h'.
Proof.
  intros Hs Hops.
  set (N := length (signals h0)) in *.
  pose proof (dormant_released (invoke fuel) h0 tags
    (fun o => {| controller := controller o; _signal := _signal o;
                 timeoutId := timeoutId o; disposed := true |}) Hs) as Hrel.
  destruct (EnhancedAbortController.new h0) as [c h]. cbv zeta.
  destruct Hrel as (h1 & Hreg & Hsig & -> & Hget & HlenS & HlenC & Hd).
  { intros o. cbn. discriminate. }
  set (K := length (controllers h0)) in *.
  exists h1. split; [exact Hreg|].
  assert (Hdis : EnhancedAbortController.dispose K h1 =
            EnhancedAbortController.alter_controller
              (fun o => {| controller := controller o; _signal := _signal o;
                           timeoutId := timeoutId o; disposed := true |}) K h1).
  { unfold EnhancedAbortController.dispose. rewrite Hget. cbn [disposed live_controller].
    apply clearTimeout_idle. rewrite get_alter_controller.
    rewrite decide_True by (split; [done|lia]). by rewrite Hget. }
  rewrite Hdis. intros h' Hrun.
  destruct (dormant_exec_all _ _ fuel ops _ h' Hd Hops Hrun) as (_ & Hr & [_ _ _ Ht]).
  pose proof (fun H1 H2 H3 => disposed_final K N fuel ops _ h' H1 H2 H3 Hrun) as Hfin.
  destruct Hfin as (_ & Hd' & Hn').
  { cbn. rewrite length_alter. lia. }
  { rewrite get_alter_controller. by rewrite decide_True by (split; [done|lia]). }
  { rewrite get_alter_controller. rewrite decide_True by (split; [done|lia]).
    by rewrite Hget. }
  rewrite Hsig.
  unfold EnhancedAbortController.isDisposed, EnhancedAbortController.isAborted,
    EnhancedAbortSignal.isAborted, Platform.aborted, EnhancedAbortSignal.new.
  cbn [abortSignal]. rewrite Hn'. unfold N. rewrite Hr. done.
Qed.

Lemma X9_witness :
  let ops := [Script.OpAbort 0 (VString "stop"); Script.OpTryReset 0;
              Script.OpLinkSignals [EnhancedAbortSignal.new 0]; Script.OpAbort 1 VUndefined;
              Script.OpAwait 1] in
  let '(c, h) := EnhancedAbortController.new Obj.empty in
  let s := EnhancedAbortController.signal c h in
  exists h1,
    Script.register_all (invoke 2) s (map CbUser [5]) h = Some h1 /\
    forall h',
      Script.exec_all 2 ops (EnhancedAbortController.dispose c h1)
        = Script.Returned h' ->
      EnhancedAbortController.isDisposed c h' = true /\
      EnhancedAbortController.isAborted c h' = false /\
      EnhancedAbortSignal.isAborted s h' = false /\
      forall t, t ∈ [5] -> t ∉ trace h'.
Proof.
  apply (X9_disposed_signal_never_aborts 2 Obj.empty [5]).
  - apply sealed_empty.
  - repeat constructor.
Defined.

(** ** [any] over inputs that are not aborted yet *)

Lemma map_seq_rel {B} (f g : nat -> B) (k : nat) :
  forall a b, (forall i, i < k -> f (a + i) = g (b + i)) ->
  map f (seq a k) = map g (seq b k).
Proof.
  induction k as [|k IH]; intros a b Hfg; [done|]. cbn. f_equal.
  - specialize (Hfg 0). rewrite !Nat.add_0_r in Hfg. apply Hfg. lia.
  - apply IH. intros i Hi. specialize (Hfg (S i)).
    rewrite !Nat.add_succ_r in Hfg. apply Hfg. lia.
Qed.

Lemma filter_signal_seq (m k : nat) :
  forall N,
    List.filter (fun s => abortSignal s =? m) (map EnhancedAbortSignal.new (seq N k)) =
      if (N <=? m) && (m <? N + k) then [EnhancedAbortSignal.new m] else [].
Proof.
  induction k as [|k IH]; intros N.
  - cbn [seq map List.filter].
    destruct (Nat.leb_spec N m) as [H1|H1]; [|done].
    destruct (Nat.ltb_spec m (N + 0)) as [H2|H2]; [lia|done].
  - cbn [seq map List.filter EnhancedAbortSignal.new abortSignal]. rewrite IH.
    destruct (Nat.eqb_spec N m) as [Heq|Hne];
      destruct (Nat.leb_spec (S N) m) as [H1|H1];
      destruct (Nat.leb_spec N m) as [H2|H2];
      destruct (Nat.ltb_spec m (S N + k)) as [H3|H3];
      destruct (Nat.ltb_spec m (N + S k)) as [H4|H4];
      try lia; cbn [andb]; subst; done.
Qed.

(** The heap after [k] controllers were constructed in a row. *)
Lemma new_controllers_spec (k : nat) :
  forall h0,
    let '(cs, h) := new_controllers k h0 in
    cs = seq (length (controllers h0)) k /\
    signals h =
      signals h0 ++ replicate k {| reason := VUndefined; listeners := [] |} /\
    controllers h =
      controllers h0 ++ map live_controller (seq (length (signals h0)) k) /\
    timers h = timers h0 /\ microtasks h = microtasks h0 /\ trace h = trace h0.
Proof.
  induction k as [|k IH]; intros h0.
  - cbn. rewrite !app_nil_r. done.
  - cbn [new_controllers].
    pose proof (new_controller h0) as Hnew.
    destruct (EnhancedAbortController.new h0) as [c h1].
    destruct Hnew as (-> & _ & _ & Hss & Hcs & Hts & Hms & Htr).
    specialize (IH h1). destruct (new_controllers k h1) as [cs h2].
    destruct IH as (-> & Hss2 & Hcs2 & Hts2 & Hms2 & Htr2).
    rewrite Hss2, Hcs2, Hts2, Hms2, Htr2, Hss, Hcs, Hts, Hms, Htr.
    rewrite !length_app. cbn [length]. rewrite !Nat.add_1_r.
    cbn [seq map replicate]. rewrite <- !app_assoc. done.
Qed.

Lemma signal_eta (s : AbortSignal) :
  s = {| reason := reason s; listeners := listeners s |}.
Proof. by destruct s. Qed.

(** Aborting an input of [any] whose output (native signal [a]) has
    fired already: the input becomes aborted and nothing else happens. *)
Lemma abort_input_late (fuel n a : nat) (r : value) (h : heap) :
  n < length (signals h) -> n <> a ->
  Platform.signal_at h n =
    {| reason := VUndefined; listeners := [attached (CbNativeAbort a)] |} ->
  Platform.aborted h a = true ->
  exists h',
    Platform.abort (invoke (S fuel)) n r h = Some h' /\
    trace h' = trace h /\
    Platform.signal_at h' a = Platform.signal_at h a.
Proof.
  intros Hn Hne Hat Ha. rewrite (abort_single _ n r (CbNativeAbort a) h Hn Hat).
  cbn [invoke]. unfold Platform.abort.
  set (hx := Platform.alter_signal _ n h).
  assert (Hax : Platform.aborted hx a = true).
  { unfold Platform.aborted, hx. by rewrite signal_at_alter_signal_ne. }
  rewrite Hax. exists hx. split; [done|]. split; [done|].
  unfold hx. by rewrite signal_at_alter_signal_ne.
Qed.

(** X10: [EnhancedAbortSignal.any] over the signals of [k] fresh
    controllers, with callbacks [tags] registered on the result.  The
    result is not aborted at first.  When the [j]-th input is aborted,
    with any reason, the result is aborted with the platform's default
    reason (the input's reason is not passed on) and every callback has
    run once; the other inputs are not aborted.  Aborting any input
    afterwards runs nothing again and leaves the result's reason. *)
Theorem X10_any_fires_once
    (fuel : nat) (h0 : heap) (k j : nat) (tags : list nat) (r : value) :
  j < k ->
  let '(cs, h) := new_controllers k h0 in
  exists s h1 h2 h3,
    EnhancedAbortSignal.any (invoke (2 + fuel))
      (map (fun c => EnhancedAbortController.signal c h) cs) h = Some (s, h1) /\
    Script.register_all (invoke (2 + fuel)) s (map CbUser tags) h1 = Some h2 /\
    EnhancedAbortSignal.isAborted s h2 = false /\
    trace h2 = trace h0 /\
    EnhancedAbortController.abort (invoke (2 + fuel)) (cs !!! j) r h2 = Some h3 /\
    EnhancedAbortSignal.isAborted s h3 = true /\
    EnhancedAbortSignal.reason s h3 = VDOMException "AbortError" /\
    trace h3 = trace h0 ++ tags /\
    (forall i, i < k ->
       EnhancedAbortController.isAborted (cs !!! i) h3 = bool_decide (i = j)) /\
    forall j' r', j' < k ->
      exists h4,
        EnhancedAbortController.abort (invoke (2 + fuel)) (cs !!! j') r' h3 = Some h4 /\
        trace h4 = trace h3 /\
        EnhancedAbortSignal.reason s h4 = VDOMException "AbortError".
Proof.
  intros Hj.
  pose proof (new_controllers_spec k h0) as Hspec.
  destruct (new_controllers k h0) as [cs h].
  destruct Hspec as (-> & Hss & Hcs & Hts & Hms & Htr).
  set (K := length (controllers h0)) in *.
  set (N := length (signals h0)) in *.
  set (fresh := {| reason := VUndefined; listeners := [] |}) in *.
  assert (Hget : forall i, i < k ->
            EnhancedAbortController.get h (K + i) = live_controller (N + i)).
  { intros i Hi. unfold EnhancedAbortController.get. rewrite Hcs. unfold K.
    rewrite lookup_total_app_plus. rewrite list_lookup_total_alt.
    change (map ?f ?l) with (f <$> l).
    by rewrite list_lookup_fmap, lookup_seq_lt. }
  assert (Hidx : forall i, i < k -> seq K k !!! i = K + i).
  { intros i Hi. by rewrite list_lookup_total_alt, lookup_seq_lt. }
  assert (Hin : map (fun c => EnhancedAbortController.signal c h) (seq K k) =
                map EnhancedAbortSignal.new (seq N k)).
  { apply map_seq_rel. intros i Hi. unfold EnhancedAbortController.signal.
    by rewrite Hget. }
  rewrite Hin.
  assert (HlenS : length (signals h) = N + k).
  { rewrite Hss, length_app, length_replicate. done. }
  unfold EnhancedAbortSignal.any. cbn [Platform.new_AbortController]. rewrite HlenS.
  set (A := N + k) in *.
  set (h1' := with_signals (fun ss => ss ++ [fresh]) h).
  assert (Hat1' : forall m, N <= m -> Platform.signal_at h1' m = fresh).
  { intros m Hm. unfold Platform.signal_at, h1'. cbn. rewrite Hss, <- app_assoc.
    rewrite lookup_total_app_r by (unfold N in *; lia).
    rewrite <- replicate_S_end.
    destruct (decide (m - length (signals h0) < S k)) as [Hlt|Hge].
    - by rewrite lookup_total_replicate_2.
    - rewrite list_lookup_total_alt, lookup_ge_None_2; [done|].
      rewrite length_replicate. lia. }
  assert (HlenS1' : length (signals h1') = S A).
  { unfold h1'. cbn. rewrite length_app, HlenS. cbn. lia. }
  destruct (register_each_live (invoke (2 + fuel)) (CbNativeAbort A)
              (map EnhancedAbortSignal.new (seq N k)) h1')
    as (h1 & Hreg1 & Hre1 & Hls1 & Hlen1 & Hcs1 & Hts1 & Hms1 & Htr1).
  { change (map ?f ?l) with (f <$> l). apply Forall_fmap, Forall_seq.
    intros i Hi. unfold compose. split.
    - unfold EnhancedAbortSignal.isAborted, Platform.aborted.
      cbn [abortSignal EnhancedAbortSignal.new]. by rewrite Hat1' by lia.
    - cbn [abortSignal EnhancedAbortSignal.new]. rewrite HlenS1'. unfold A. lia. }
  assert (Hinput1 : forall i, i < k ->
            Platform.signal_at h1 (N + i) =
              {| reason := VUndefined; listeners := [attached (CbNativeAbort A)] |}).
  { intros i Hi. rewrite (signal_eta (Platform.signal_at h1 (N + i))).
    rewrite Hre1, Hls1, Hat1' by lia. rewrite filter_signal_seq.
    replace (N <=? N + i) with true by (symmetry; apply Nat.leb_le; lia).
    replace (N + i <? N + k) with true by (symmetry; apply Nat.ltb_lt; lia).
    done. }
  assert (Hout1 : Platform.signal_at h1 A = fresh).
  { rewrite (signal_eta (Platform.signal_at h1 A)).
    rewrite Hre1, Hls1, Hat1' by (unfold A; lia). rewrite filter_signal_seq.
    replace (A <? N + k) with false by (symmetry; apply Nat.ltb_ge; unfold A; lia).
    by rewrite andb_false_r. }
  assert (Hna1 : EnhancedAbortSignal.isAborted (EnhancedAbortSignal.new A) h1 = false).
  { unfold EnhancedAbortSignal.isAborted, Platform.aborted.
    cbn [abortSignal EnhancedAbortSignal.new]. by rewrite Hout1. }
  destruct (register_all_live (invoke (2 + fuel)) (EnhancedAbortSignal.new A)
              (map CbUser tags) h1 Hna1)
    as (h2 & Hreg2 & Hat2 & Hoth2 & Hlen2 & Hcs2 & Hts2 & Hms2 & Htr2).
  { cbn. rewrite Hlen1, HlenS1'. lia. }
  cbn [abortSignal EnhancedAbortSignal.new] in Hat2, Hoth2.
  rewrite Hout1 in Hat2. cbn [reason listeners app fresh] in Hat2.
  rewrite map_map in Hat2.
  assert (HlenS2 : length (signals h2) = S A) by (by rewrite Hlen2, Hlen1).
  assert (Hget2 : forall i, i < k ->
            EnhancedAbortController.get h2 (K + i) = live_controller (N + i)).
  { intros i Hi. unfold EnhancedAbortController.get. rewrite Hcs2, Hcs1.
    by apply Hget. }
  assert (Hinput2 : forall i, i < k ->
            Platform.signal_at h2 (N + i) =
              {| reason := VUndefined; listeners := [attached (CbNativeAbort A)] |}).
  { intros i Hi. rewrite Hoth2 by (unfold A; lia). by apply Hinput1. }
  (* the first abort *)
  set (hx := Platform.alter_signal
               (fun _ => {| reason := match r with
                                      | VUndefined => VDOMException "AbortError"
                                      | _ => r
                                      end;
                            listeners := [Platform.mark_removed
                                            (attached (CbNativeAbort A))] |})
               (N + j) h2).
  destruct (abort_users fuel A VUndefined tags hx)
    as (h3 & Hab3 & Htr3 & Hat3 & Hoth3 & Hlen3 & Hcs3 & Hts3 & Hms3).
  { unfold hx. cbn. rewrite length_alter, HlenS2. lia. }
  { unfold hx. rewrite signal_at_alter_signal_ne by (unfold A; lia). exact Hat2. }
  assert (Hfirst : EnhancedAbortController.abort (invoke (2 + fuel)) (K + j) r h2
                     = Some h3).
  { rewrite (abort_live _ (K + j) (N + j) r h2) by (by apply Hget2).
    rewrite (abort_single _ (N + j) r (CbNativeAbort A) h2)
      by (first [rewrite HlenS2; unfold A; lia | by apply Hinput2]).
    exact Hab3. }
  assert (Hget3 : forall i, i < k ->
            EnhancedAbortController.get h3 (K + i) = live_controller (N + i)).
  { intros i Hi. unfold EnhancedAbortController.get. rewrite Hcs3.
    change (controllers hx) with (controllers h2). by apply Hget2. }
  assert (Hinput3 : forall i, i < k -> i <> j ->
            Platform.signal_at h3 (N + i) =
              {| reason := VUndefined; listeners := [attached (CbNativeAbort A)] |}).
  { intros i Hi Hne. rewrite Hoth3 by (unfold A; lia). unfold hx.
    rewrite signal_at_alter_signal_ne by lia. by apply Hinput2. }
  assert (Hfired3 : Platform.aborted h3 (N + j) = true).
  { unfold Platform.aborted. rewrite Hoth3 by (unfold A; lia). unfold hx.
    rewrite signal_at_alter_signal_eq by (rewrite HlenS2; unfold A; lia).
    cbn. by destruct r. }
  exists (EnhancedAbortSignal.new A), h1, h2, h3.
  split.
  { exact (f_equal (fun o => o ≫= (fun x => Some (EnhancedAbortSignal.new A, x)))
             Hreg1). }
  split; [exact Hreg2|].
  split.
  { unfold EnhancedAbortSignal.isAborted, Platform.aborted.
    cbn [abortSignal EnhancedAbortSignal.new]. by rewrite Hat2. }
  split; [by rewrite Htr2, Htr1|].
  split; [by rewrite Hidx|].
  split.
  { unfold EnhancedAbortSignal.isAborted, Platform.aborted.
    cbn [abortSignal EnhancedAbortSignal.new]. by rewrite Hat3. }
  split.
  { unfold EnhancedAbortSignal.reason.
    cbn [abortSignal EnhancedAbortSignal.new]. by rewrite Hat3. }
  split.
  { rewrite Htr3. change (trace hx) with (trace h2). rewrite Htr2, Htr1.
    change (trace h1') with (trace h). by rewrite Htr. }
  split.
  { intros i Hi. rewrite Hidx by done. unfold EnhancedAbortController.isAborted.
    rewrite Hget3 by done. cbn [controller live_controller].
    case_bool_decide as Hij.
    - by subst i.
    - unfold Platform.aborted. by rewrite Hinput3. }
  intros j' r' Hj'. rewrite Hidx by done.
  rewrite (abort_live _ (K + j') (N + j') r' h3) by (by apply Hget3).
  destruct (decide (j' = j)) as [->|Hne].
  - exists h3. unfold Platform.abort. rewrite Hfired3. split; [done|]. split; [done|].
    unfold EnhancedAbortSignal.reason.
    cbn [abortSignal EnhancedAbortSignal.new]. by rewrite Hat3.
  - destruct (abort_input_late (S fuel) (N + j') A r' h3)
      as (h4 & Hab4 & Htr4 & Hat4).
    + rewrite Hlen3. unfold hx. cbn. rewrite length_alter, HlenS2. unfold A. lia.
    + unfold A. lia.
    + by apply Hinput3.
    + unfold Platform.aborted. by rewrite Hat3.
    + exists h4. split; [exact Hab4|]. split; [done|].
      unfold EnhancedAbortSignal.reason.
      cbn [abortSignal EnhancedAbortSignal.new]. by rewrite Hat4, Hat3.
Qed.

Lemma X10_witness :
  let '(cs, h) := new_controllers 3 Obj.empty in
  exists s h1 h2 h3,
    EnhancedAbortSignal.any (invoke 2)
      (map (fun c => EnhancedAbortController.signal c h) cs) h = Some (s, h1) /\
    Script.register_all (invoke 2) s (map CbUser [8; 9]) h1 = Some h2 /\
    EnhancedAbortSignal.isAborted s h2 = false /\
    trace h2 = [] /\
    EnhancedAbortController.abort (invoke 2) (cs !!! 1) (VString "user") h2 = Some h3 /\
    EnhancedAbortSignal.isAborted s h3 = true /\
    EnhancedAbortSignal.reason s h3 = VDOMException "AbortError" /\
    trace h3 = [8; 9] /\
    (forall i, i < 3 ->
       EnhancedAbortController.isAborted (cs !!! i) h3 = bool_decide (i = 1)) /\
    forall j' r', j' < 3 ->
      exists h4,
        EnhancedAbortController.abort (invoke 2) (cs !!! j') r' h3 = Some h4 /\
        trace h4 = trace h3 /\
        EnhancedAbortSignal.reason s h4 = VDOMException "AbortError".
Proof.
  apply (X10_any_fires_once 0 Obj.empty 3 1 [8; 9] (VString "user")). lia.
Defined.

(** ** What a call can change, when it matters who is called when

    As [Section Frame], for properties that depend on the heap a
    closure is called in: [R cb h] says that [cb] may be called in
    [h].  Dispatch only happens at an aborted signal, and a signal
    that is aborted stays so. *)

Lemma aborted_grows_signals (h h' : heap) :
  signals h' = signals h -> aborted_grows h h'.
Proof. intros Hs m. unfold Platform.aborted, Platform.signal_at. by rewrite Hs. Qed.

Lemma aborted_grows_trans (h1 h2 h3 : heap) :
  aborted_grows h1 h2 -> aborted_grows h2 h3 -> aborted_grows h1 h3.
Proof. intros H12 H23 m Hm. by apply H23, H12. Qed.

Lemma aborted_removeEventListener (n i m : nat) (h : heap) :
  Platform.aborted (Platform.removeEventListener n i h) m = Platform.aborted h m.
Proof.
  unfold Platform.aborted, Platform.removeEventListener, Platform.alter_listener.
  rewrite signal_at_alter_signal. by case_decide as Hc; [destruct Hc as [-> _]|].
Qed.

Lemma aborted_grows_fire (n : nat) (r : value) (h : heap) :
  Platform.aborted h n = false ->
  aborted_grows h
    (Platform.alter_signal (fun s => {| reason := r; listeners := listeners s |}) n h).
Proof.
  intros Hn m Hm. unfold Platform.aborted in *. rewrite signal_at_alter_signal.
  case_decide as Hc; [|done]. destruct Hc as [-> _]. by rewrite Hm in Hn.
Qed.

Section FrameAt.
Variable P : heap -> Prop.
Variable R : callback -> heap -> Prop.
Variable A : callback -> Prop.

Hypothesis P_ext : forall h h',
  signals h' = signals h -> timers h' = timers h -> trace h' = trace h ->
  promises h' = promises h -> P h -> P h'.
Hypothesis P_dispatch : forall h n i, P h ->
  Platform.aborted h n = true ->
  removed (listeners (Platform.signal_at h n) !!! i) = false ->
  let l := listeners (Platform.signal_at h n) !!! i in
  let h1 := if once l then Platform.removeEventListener n i h else h in
  P h1 /\ R (handler l) h1.
Hypothesis P_timer : forall h id, P h ->
  pending (timers h !!! id) = true ->
  R (timer_handler (timers h !!! id)) (Platform.clearTimeout id h).
Hypothesis P_clear : forall id h, P h -> P (Platform.clearTimeout id h).
Hypothesis P_log : forall tag h, P h -> R (CbUser tag) h -> P (Platform.log tag h).
Hypothesis P_resolve : forall p h, P h -> R (CbResolve p) h -> P (Platform.resolve p h).
Hypothesis P_fire : forall n r h, P h ->
  Platform.aborted h n = false -> r <> VUndefined ->
  P (Platform.alter_signal (fun s => {| reason := r; listeners := listeners s |}) n h).
Hypothesis P_remove : forall n i h, P h -> P (Platform.removeEventListener n i h).
Hypothesis P_add : forall n cb h, P h -> A cb ->
  P (Platform.addEventListener n cb true h).2.
Hypothesis A_R : forall cb h, P h -> A cb -> R cb h.
Hypothesis A_native : forall n, A (CbNativeAbort n).
Hypothesis A_enhanced : forall c, A (CbEnhancedAbort c).
Hypothesis A_resolve : forall h, P h -> A (CbResolve (length (promises h))).
Hypothesis P_new_signal : forall h, P h -> P (Platform.new_AbortController h).2.
Hypothesis P_new_promise : forall st h, P h -> P (Platform.new_Promise st h).2.
Hypothesis P_setTimeout : forall cb ms h, P h -> A cb ->
  P (Platform.setTimeout cb ms h).2.

Lemma at_clearTimeout (c : nat) (h : heap) :
  P h -> P (EnhancedAbortController.clearTimeout c h).
Proof.
  intros HP. unfold EnhancedAbortController.clearTimeout.
  destruct (timeoutId (EnhancedAbortController.get h c)) as [id|]; [|done].
  pose proof (P_clear id h HP) as HP1. by eapply P_ext; [..|exact HP1].
Qed.

Lemma at_abortAfter (c ms : nat) (h : heap) :
  P h -> P (EnhancedAbortController.abortAfter c ms h).
Proof.
  intros HP. unfold EnhancedAbortController.abortAfter.
  destruct (disposed (EnhancedAbortController.get h c)); [done|].
  pose proof (P_setTimeout (CbEnhancedAbort c) ms _
                (at_clearTimeout c h HP) (A_enhanced c)) as HP2.
  destruct (Platform.setTimeout _ _ _) as [id h2]. cbn [snd] in HP2.
  by eapply P_ext; [..|exact HP2].
Qed.

Lemma at_dispose (c : nat) (h : heap) :
  P h -> P (EnhancedAbortController.dispose c h).
Proof.
  intros HP. unfold EnhancedAbortController.dispose.
  destruct (disposed (EnhancedAbortController.get h c)); [done|].
  apply at_clearTimeout. by eapply P_ext; [..|exact HP].
Qed.

Lemma at_new (h : heap) : P h -> P (EnhancedAbortController.new h).2.
Proof.
  intros HP. pose proof (P_new_signal h HP) as HP1.
  unfold EnhancedAbortController.new. cbn [Platform.new_AbortController snd] in *.
  by eapply P_ext; [..|exact HP1].
Qed.

Lemma at_tryReset (c : nat) (h : heap) :
  P h -> P (EnhancedAbortController.tryReset c h).2.
Proof.
  intros HP. unfold EnhancedAbortController.tryReset.
  destruct (disposed (EnhancedAbortController.get h c)); [done|].
  pose proof (P_new_signal _ (at_clearTimeout c h HP)) as HP1.
  cbn [Platform.new_AbortController snd] in *.
  by eapply P_ext; [..|exact HP1].
Qed.

Lemma at_inner_invoke (call : callback -> heap -> option heap) (n : nat) :
  (forall cb h h', P h -> R cb h -> call cb h = Some h' ->
     P h' /\ aborted_grows h h') ->
  forall ids h h', P h -> Platform.aborted h n = true ->
    Platform.inner_invoke call n ids h = Some h' -> P h' /\ aborted_grows h h'.
Proof.
  intros Hcall ids. induction ids as [|i rest IH]; intros h h' HP Hab Hrun.
  - cbn in Hrun. injection Hrun as <-. split; [done|by intros m Hm].
  - cbn [Platform.inner_invoke] in Hrun.
    destruct (removed (listeners (Platform.signal_at h n) !!! i)) eqn:Hrem;
      [by eapply IH|].
    destruct (P_dispatch h n i HP Hab Hrem) as [HP1 HR1]. cbv zeta in HP1, HR1.
    set (l := listeners (Platform.signal_at h n) !!! i) in *.
    set (h1 := if once l then Platform.removeEventListener n i h else h) in *.
    assert (Hg1 : aborted_grows h h1).
    { intros m Hm. unfold h1. destruct (once l); [|done].
      by rewrite aborted_removeEventListener. }
    destruct (call (handler l) h1) as [h2|] eqn:Hc; [|discriminate].
    destruct (Hcall _ _ _ HP1 HR1 Hc) as [HP2 Hg2].
    destruct (IH h2 h' HP2) as [HP' Hg']; [by apply Hg2, Hg1 | done |].
    split; [done|]. eapply aborted_grows_trans; [exact Hg1|].
    by eapply aborted_grows_trans.
Qed.

Lemma at_platform_abort (call : callback -> heap -> option heap)
    (n : nat) (r : value) (h h' : heap) :
  (forall cb h h', P h -> R cb h -> call cb h = Some h' ->
     P h' /\ aborted_grows h h') ->
  P h -> Platform.abort call n r h = Some h' -> P h' /\ aborted_grows h h'.
Proof.
  intros Hcall HP. unfold Platform.abort.
  destruct (Platform.aborted h n) eqn:Ha;
    [intros [= <-]; split; [done|by intros m Hm]|].
  unfold Platform.dispatchEvent.
  set (r' := match r with VUndefined => VDOMException "AbortError" | _ => r end).
  assert (Hr' : r' <> VUndefined) by (unfold r'; by destruct r).
  pose proof (P_fire n r' h HP Ha Hr') as HP0.
  pose proof (aborted_grows_fire n r' h Ha) as Hg0.
  destruct (decide (n < length (signals h))) as [Hn|Hn].
  - intros Hrun.
    pose proof (fun Ha' => at_inner_invoke call n Hcall _ _ h' HP0 Ha' Hrun) as Hin.
    destruct Hin as [HP' Hg'].
    + unfold Platform.aborted. rewrite signal_at_alter_signal_eq by done.
      cbn. by destruct r'.
    + split; [done|]. by eapply aborted_grows_trans.
  - (* an unallocated signal has no listener: nothing is dispatched *)
    rewrite signal_at_alter_signal, decide_False by tauto.
    unfold Platform.signal_at at 1.
    rewrite list_lookup_total_alt, lookup_ge_None_2 by lia. cbn.
    intros [= <-]. by split.
Qed.

Lemma at_controller_abort (call : callback -> heap -> option heap)
    (c : nat) (r : value) (h h' : heap) :
  (forall cb h h', P h -> R cb h -> call cb h = Some h' ->
     P h' /\ aborted_grows h h') ->
  P h -> EnhancedAbortController.abort call c r h = Some h' ->
  P h' /\ aborted_grows h h'.
Proof.
  intros Hcall HP. unfold EnhancedAbortController.abort.
  destruct (disposed (EnhancedAbortController.get h c)) eqn:Hd;
    [intros [= <-]; split; [done|by intros m Hm]|].
  intros Hrun.
  destruct (at_platform_abort call _ r _ h' Hcall (at_clearTimeout c h HP) Hrun)
    as [HP' Hg'].
  split; [done|]. eapply aborted_grows_trans; [|exact Hg'].
  apply aborted_grows_signals, clearTimeout_signals.
Qed.

Lemma at_invoke (fuel : nat) :
  forall cb h h', P h -> R cb h -> invoke fuel cb h = Some h' ->
    P h' /\ aborted_grows h h'.
Proof.
  induction fuel as [|fuel IH]; intros cb h h' HP HR Hrun; [discriminate|].
  destruct cb; cbn [invoke] in Hrun.
  - injection Hrun as <-. split; [by apply P_log|]. by apply aborted_grows_signals.
  - injection Hrun as <-. split; [by apply P_resolve|]. by apply aborted_grows_signals.
  - by eapply at_platform_abort.
  - by eapply at_controller_abort.
Qed.

Lemma at_register (fuel : nat) (s : EnhancedAbortSignal) (cb : callback)
    (h : heap) (r : nat) (h' : heap) :
  P h -> A cb ->
  EnhancedAbortSignal.register (invoke fuel) s cb h = Some (r, h') -> P h'.
Proof.
  intros HP HA. unfold EnhancedAbortSignal.register.
  destruct (EnhancedAbortSignal.isAborted s h).
  - destruct (invoke fuel cb h) as [h1|] eqn:Hc; [|discriminate].
    intros [= _ <-].
    destruct (at_invoke _ _ _ _ HP (A_R cb h HP HA) Hc) as [HP1 _].
    by eapply P_ext; [..|exact HP1].
  - intros [= _ <-].
    pose proof (P_add (abortSignal s) cb h HP HA) as HP1.
    by eapply P_ext; [..|exact HP1].
Qed.

Lemma at_register_each (fuel : nat) (cb : callback)
    (ss : list EnhancedAbortSignal) (h h' : heap) :
  P h -> A cb ->
  EnhancedAbortSignal.register_each (invoke fuel) ss cb h = Some h' -> P h'.
Proof.
  intros HP HA. revert h HP. induction ss as [|s rest IH]; intros h HP Hrun.
  - cbn in Hrun. by injection Hrun as <-.
  - cbn [EnhancedAbortSignal.register_each] in Hrun.
    destruct (EnhancedAbortSignal.register (invoke fuel) s cb h) as [[r h1]|] eqn:Hr;
      [|discriminate].
    eapply IH; [|exact Hrun]. by eapply at_register.
Qed.

Lemma at_unregister (r : nat) (h : heap) :
  P h -> P (Registration.unregister r h).
Proof.
  intros HP. rewrite unregister_unfold.
  destruct (AbortRegistration.disposed (Registration.get h r));
    [by eapply P_ext; [..|exact HP]|].
  destruct (AbortRegistration.unregisterCallback (Registration.get h r)) as [[|n i]|].
  - by eapply P_ext; [..|exact HP].
  - pose proof (P_remove n i h HP) as HP1. by eapply P_ext; [..|exact HP1].
  - by eapply P_ext; [..|exact HP].
Qed.

Lemma at_run_microtasks (h : heap) :
  P h -> P (EventLoop.run_microtasks h).
Proof.
  intros HP. unfold EventLoop.run_microtasks.
  assert (Hfold : forall js h0, P h0 ->
            P (fold_left (fun h' j => EventLoop.run_job j h') js h0)).
  { induction js as [|[r] js IH]; intros h0 H0; [done|].
    cbn. apply IH. by apply at_unregister. }
  pose proof (Hfold (microtasks h) h HP) as HP1. by eapply P_ext; [..|exact HP1].
Qed.

Lemma at_run_timers (fuel : nat) (ids : list nat) (h h' : heap) :
  P h -> EventLoop.run_timers (invoke fuel) ids h = Some h' -> P h'.
Proof.
  revert h. induction ids as [|id rest IH]; intros h HP Hrun.
  - cbn in Hrun. by injection Hrun as <-.
  - cbn [EventLoop.run_timers] in Hrun.
    destruct (pending (timers h !!! id)) eqn:Hp; [|by eapply IH].
    destruct (due (timers h !!! id) <=? now h); [|by eapply IH].
    cbn [andb] in Hrun.
    destruct (invoke fuel _ _) as [h1|] eqn:Hc; [|discriminate].
    eapply IH; [|exact Hrun]. apply at_run_microtasks.
    by destruct (at_invoke _ _ _ _ (P_clear id h HP) (P_timer h id HP Hp) Hc).
Qed.

Lemma at_advance (fuel ms : nat) (h h' : heap) :
  P h -> EventLoop.advance (invoke fuel) ms h = Some h' -> P h'.
Proof.
  revert h. induction ms as [|ms IH]; intros h HP Hrun;
    cbn [EventLoop.advance] in Hrun; unfold EventLoop.turn in Hrun.
  - eapply at_run_timers; [|exact Hrun]. by apply at_run_microtasks.
  - destruct (EventLoop.run_timers _ _ _) as [h1|] eqn:Ht; [|discriminate].
    cbn in Hrun. eapply IH; [|exact Hrun].
    assert (HP1 : P h1).
    { eapply at_run_timers; [|exact Ht]. by apply at_run_microtasks. }
    by eapply P_ext; [..|exact HP1].
Qed.

Lemma at_linkSignals (fuel : nat) (ss : list EnhancedAbortSignal)
    (h : heap) (c : nat) (h' : heap) :
  P h -> EnhancedAbortController.linkSignals (invoke fuel) ss h = Some (c, h') -> P h'.
Proof.
  intros HP. unfold EnhancedAbortController.linkSignals.
  pose proof (at_new h HP) as HP1.
  destruct (EnhancedAbortController.new h) as [c1 h1]. cbn [snd] in HP1.
  destruct (EnhancedAbortSignal.register_each _ _ _ _) as [h2|] eqn:Hr; [|discriminate].
  cbn. intros [= _ <-]. by eapply at_register_each; [| |exact Hr].
Qed.

Lemma at_exec (fuel : nat) (o : Script.op) (h h' : heap) :
  P h -> registers A o -> Script.exec fuel o h = Script.Returned h' -> P h'.
Proof.
  intros HP HA. destruct o; cbn [Script.exec]; unfold Script.returned.
  - intros [= <-]. by apply at_new.
  - destruct (EnhancedAbortController.abort _ _ _ _) as [h1|] eqn:Ha; [|discriminate].
    intros [= <-].
    by destruct (at_controller_abort _ _ _ _ _ (at_invoke fuel) HP Ha).
  - intros [= <-]. by apply at_abortAfter.
  - intros [= <-]. by apply at_abortAfter.
  - intros [= <-]. by apply at_dispose.
  - intros [= <-]. by apply at_tryReset.
  - destruct (EnhancedAbortController.linkSignals _ _ _) as [[c h1]|] eqn:Hl;
      [|discriminate].
    cbn. intros [= <-]. by eapply at_linkSignals.
  - unfold EnhancedAbortController.createLinkedController.
    destruct (EnhancedAbortController.linkSignals _ _ _) as [[c h1]|] eqn:Hl;
      [|discriminate].
    cbn. intros [= <-]. by eapply at_linkSignals.
  - unfold EnhancedAbortController.timeout.
    pose proof (at_new h HP) as HP1.
    destruct (EnhancedAbortController.new h) as [c h1]. cbn [snd] in HP1.
    cbn. intros [= <-]. by apply at_abortAfter.
  - destruct (EnhancedAbortSignal.register _ _ _ _) as [[r h1]|] eqn:Hr; [|discriminate].
    cbn. intros [= <-]. by eapply at_register.
  - change (Script.exec fuel (Script.OpRegisterThrowing s tag) h = Script.Returned h'
            -> P h').
    intros Hrun. apply exec_register_throwing_returned in Hrun as [_ Hrun].
    cbn [Script.exec] in Hrun. unfold Script.returned in Hrun.
    destruct (EnhancedAbortSignal.register _ _ _ _) as [[r h1]|] eqn:Hr; [|discriminate].
    cbn in Hrun. injection Hrun as <-. by eapply at_register.
  - unfold EnhancedAbortSignal.whenAborted.
    destruct (EnhancedAbortSignal.isAborted s h).
    + cbn [fmap option_fmap option_map snd]. intros [= <-]. by apply P_new_promise.
    + pose proof (P_new_promise Pending h HP) as HP1.
      pose proof (A_resolve h HP) as HAr.
      cbn [Platform.new_Promise snd] in *.
      destruct (EnhancedAbortSignal.register _ _ _ _) as [[r h1]|] eqn:Hr; [|discriminate].
      cbn. intros [= <-].
      pose proof (at_register _ _ _ _ _ _ HP1 HAr Hr) as HP2.
      by eapply P_ext; [..|exact HP2].
  - unfold EnhancedAbortSignal.throwIfAborted.
    destruct (EnhancedAbortSignal.isAborted s h); [discriminate|]. by intros [= <-].
  - intros [= <-]. by apply P_new_signal.
  - unfold EnhancedAbortSignal.aborted_.
    pose proof (P_new_signal h HP) as HP1.
    cbn [Platform.new_AbortController snd] in *.
    destruct (Platform.abort _ _ _ _) as [h1|] eqn:Ha; [|discriminate].
    cbn. intros [= <-].
    by destruct (at_platform_abort _ _ _ _ _ (at_invoke fuel) HP1 Ha).
  - intros [= <-]. unfold EnhancedAbortSignal.timeout.
    pose proof (P_new_signal h HP) as HP1.
    cbn [Platform.new_AbortController snd] in *.
    exact (P_setTimeout _ ms _ HP1 (A_native _)).
  - unfold EnhancedAbortSignal.any.
    pose proof (P_new_signal h HP) as HP1.
    cbn [Platform.new_AbortController snd] in *.
    destruct (EnhancedAbortSignal.register_each _ _ _ _) as [h2|] eqn:Hr; [|discriminate].
    cbn. intros [= <-]. by eapply at_register_each; [| |exact Hr].
  - intros [= <-]. by apply at_unregister.
  - intros [= <-]. by apply at_unregister.
  - destruct (EventLoop.advance _ _ _) as [h1|] eqn:Ha; [|discriminate].
    intros [= <-]. by eapply at_advance.
Qed.

Lemma at_exec_all (fuel : nat) (ops : list Script.op) (h h' : heap) :
  P h -> Forall (registers A) ops ->
  Script.exec_all fuel ops h = Script.Returned h' -> P h'.
Proof.
  intros HP HA. revert h HP. induction HA as [|o rest Ho _ IH]; intros h HP Hrun.
  - cbn in Hrun. by injection Hrun as <-.
  - cbn [Script.exec_all] in Hrun.
    destruct (Script.exec fuel o h) as [h1| |] eqn:He; try discriminate.
    eapply IH; [|exact Hrun]. by eapply at_exec.
Qed.
End FrameAt.

(** ** Listeners after an update *)

Lemma listener_removeEventListener (n i m j : nat) (h : heap) :
  removed (listeners (Platform.signal_at (Platform.removeEventListener n i h) m) !!! j)
    = false ->
  listeners (Platform.signal_at (Platform.removeEventListener n i h) m) !!! j =
    listeners (Platform.signal_at h m) !!! j /\
  ~ (m = n /\ j = i).
Proof.
  unfold Platform.removeEventListener, Platform.alter_listener.
  rewrite signal_at_alter_signal. case_decide as Hc.
  - destruct Hc as [-> Hn]. cbn [listeners]. rewrite list_lookup_total_alter.
    case_decide as Hd.
    + destruct Hd as [-> _]. cbn. discriminate.
    + intros Hr. split; [done|]. intros [_ ->]. apply Hd. split; [done|].
      destruct (decide (i < length (listeners (Platform.signal_at h m)))); [done|].
      rewrite list_lookup_total_alt, lookup_ge_None_2 in Hr by lia. discriminate.
  - intros Hr. split; [done|]. intros [-> ->]. apply Hc. split; [done|].
    destruct (decide (n < length (signals h))); [done|].
    unfold Platform.signal_at in Hr.
    rewrite (list_lookup_total_alt (signals h)), lookup_ge_None_2 in Hr by lia.
    cbn in Hr. by destruct i.
Qed.

Lemma listener_addEventListener (n : nat) (cb : callback) (m j : nat) (h : heap) :
  removed (listeners (Platform.signal_at (Platform.addEventListener n cb true h).2 m)
             !!! j) = false ->
  listeners (Platform.signal_at (Platform.addEventListener n cb true h).2 m) !!! j =
    listeners (Platform.signal_at h m) !!! j \/
  (m = n /\ j = length (listeners (Platform.signal_at h n)) /\
   listeners (Platform.signal_at (Platform.addEventListener n cb true h).2 m) !!! j =
     attached cb).
Proof.
  cbn [Platform.addEventListener snd]. rewrite signal_at_alter_signal.
  case_decide as Hc; [|by left]. destruct Hc as [-> Hn]. cbn [listeners].
  destruct (decide (j < length (listeners (Platform.signal_at h m)))) as [Hj|Hj].
  - rewrite lookup_total_app_l by done. by left.
  - rewrite lookup_total_app_r by lia.
    destruct (j - length (listeners (Platform.signal_at h m))) as [|k] eqn:Hk.
    + intros _. right. split; [done|]. split; [lia|done].
    + by destruct k.
Qed.

Lemma listeners_fire (n : nat) (r : value) (m : nat) (h : heap) :
  listeners (Platform.signal_at
    (Platform.alter_signal (fun s => {| reason := r; listeners := listeners s |}) n h) m)
  = listeners (Platform.signal_at h m).
Proof.
  rewrite signal_at_alter_signal. by case_decide as Hc; [destruct Hc as [-> _]|].
Qed.

Lemma listeners_new_signal (m : nat) (h : heap) :
  listeners (Platform.signal_at (Platform.new_AbortController h).2 m) =
    listeners (Platform.signal_at h m).
Proof.
  unfold Platform.signal_at. cbn.
  destruct (decide (m < length (signals h))) as [Hm|Hm].
  - by rewrite lookup_total_app_l.
  - rewrite lookup_total_app_r by lia.
    rewrite (list_lookup_total_alt (signals h)), lookup_ge_None_2 by lia.
    by destruct (m - length (signals h)) as [|[|k]].
Qed.

(** ** A callback runs at most once *)

Section AtMostOnce.
Variable t : nat.

Lemma amo_narrow (h h' : heap) :
  (forall m j, holds (CbUser t) h' m j ->
     listeners (Platform.signal_at h' m) !!! j =
       listeners (Platform.signal_at h m) !!! j) ->
  timers h' = timers h -> trace h' = trace h ->
  at_most_once t h -> at_most_once t h'.
Proof.
  intros Hn Hts Htr [H1 H2 H3 H4 H5].
  assert (Hback : forall m j, holds (CbUser t) h' m j -> holds (CbUser t) h m j).
  { intros m j Hh. pose proof (Hn m j Hh) as Heq. unfold holds in *.
    by rewrite <- Heq. }
  constructor.
  - intros m i Hh. rewrite (Hn m i Hh). by apply H1, Hback.
  - intros m i m' i' Hh Hh'. by apply H2; apply Hback.
  - rewrite Htr. intros Hin m i Hh. by apply (H3 Hin m i), Hback.
  - by rewrite Hts.
  - by rewrite Htr.
Qed.

Lemma amo_ext (h h' : heap) :
  signals h' = signals h -> timers h' = timers h -> trace h' = trace h ->
  at_most_once t h -> at_most_once t h'.
Proof.
  intros Hs. apply amo_narrow. intros m j _. unfold Platform.signal_at. by rewrite Hs.
Qed.

Lemma amo_dispatch (h : heap) (n i : nat) :
  at_most_once t h ->
  removed (listeners (Platform.signal_at h n) !!! i) = false ->
  let l := listeners (Platform.signal_at h n) !!! i in
  let h1 := if once l then Platform.removeEventListener n i h else h in
  at_most_once t h1 /\
  (handler l = CbUser t ->
   (t ∉ trace h1) /\ forall m j, ~ holds (CbUser t) h1 m j).
Proof.
  intros HP Hrem l h1.
  assert (Hnarrow : at_most_once t h1).
  { unfold h1. destruct (once l); [|done].
    eapply amo_narrow; [| | |exact HP]; [|done|done].
    intros m j [Hr _]. by apply listener_removeEventListener. }
  split; [done|]. intros Hh.
  assert (Hhold : holds (CbUser t) h n i) by done.
  destruct HP as [H1 H2 H3 H4 H5].
  pose proof (H1 n i Hhold) as Honce. fold l in Honce.
  unfold h1. rewrite Honce. split.
  - intros Hin. by apply (H3 Hin n i).
  - intros m j Hmj.
    destruct (listener_removeEventListener n i m j h (proj1 Hmj)) as [Heq Hne].
    apply Hne. apply (H2 m j n i); [|done]. unfold holds in *. by rewrite <- Heq.
Qed.

Lemma amo_log (tag : nat) (h : heap) :
  at_most_once t h ->
  (tag = t -> (t ∉ trace h) /\ forall m j, ~ holds (CbUser t) h m j) ->
  at_most_once t (Platform.log tag h).
Proof.
  intros [H1 H2 H3 H4 H5] HR. constructor; try done.
  - cbn [trace Platform.log with_trace]. rewrite elem_of_app, list_elem_of_singleton.
    intros [Hin| ->]; [by apply H3|]. by apply HR.
  - cbn [trace Platform.log with_trace]. rewrite count_occ_app. cbn [count_occ].
    destruct (Nat.eq_dec tag t) as [->|Hne]; [|lia].
    destruct (HR eq_refl) as [Hnot _].
    assert (count_occ Nat.eq_dec (trace h) t = 0); [|lia].
    apply count_occ_not_In. by rewrite <- list_elem_of_In.
Qed.

Lemma amo_timer (h : heap) (id : nat) :
  at_most_once t h -> pending (timers h !!! id) = true ->
  timer_handler (timers h !!! id) <> CbUser t.
Proof.
  intros [_ _ _ H4 _] Hp.
  destruct (decide (id < length (timers h))) as [Hi|Hi].
  - apply (Forall_lookup_1 _ _ id _ H4). by apply list_lookup_lookup_total_lt.
  - rewrite list_lookup_total_alt, lookup_ge_None_2 in Hp by lia. discriminate.
Qed.

(** However the script goes on, [t] runs at most once. *)
Lemma amo_exec_all (fuel : nat) (ops : list Script.op) (h h' : heap) :
  at_most_once t h -> Forall (registers (fun cb => cb <> CbUser t)) ops ->
  Script.exec_all fuel ops h = Script.Returned h' -> at_most_once t h'.
Proof.
  intros HP Hops Hrun.
  eapply (at_exec_all (at_most_once t)
            (fun cb x => cb = CbUser t ->
                         (t ∉ trace x) /\ forall m j, ~ holds (CbUser t) x m j)
            (fun cb => cb <> CbUser t)); [..|exact HP|exact Hops|exact Hrun].
  - intros x y Hs Hts Htr _. by apply amo_ext.
  - intros x n i Hx _ Hrem. by apply amo_dispatch.
  - intros x id Hx Hp Heq. by destruct (amo_timer x id Hx Hp).
  - intros id x [H1 H2 H3 H4 H5]. constructor; try done.
    cbn. apply Forall_alter; [done|]. by intros y _ Hy.
  - intros tag x Hx HR. apply amo_log; [done|]. intros ->. by apply HR.
  - intros p x Hx _. by eapply amo_ext; [..|exact Hx].
  - intros n r x Hx _ _. eapply amo_narrow; [| | |exact Hx]; [|done|done].
    intros m j _. by rewrite listeners_fire.
  - intros n i x Hx. eapply amo_narrow; [| | |exact Hx]; [|done|done].
    intros m j [Hr _]. by apply listener_removeEventListener.
  - intros n cb x Hx Hcb. eapply amo_narrow; [| | |exact Hx]; [|done|done].
    intros m j [Hr Hh].
    destruct (listener_addEventListener n cb m j x Hr) as [Heq|(_ & _ & Heq)];
      [done|]. rewrite Heq in Hh. cbn in Hh. congruence.
  - intros cb x _ Hcb Heq. congruence.
  - done.
  - done.
  - done.
  - intros x Hx. eapply amo_narrow; [| | |exact Hx]; [|done|done].
    intros m j _. by rewrite listeners_new_signal.
  - intros st x Hx. by eapply amo_ext; [..|exact Hx].
  - intros cb ms x [H1 H2 H3 H4 H5] Hcb. constructor; try done.
    cbn. apply Forall_app_2; [done|]. by apply Forall_singleton.
Qed.
End AtMostOnce.

(** Registering a callback that is used nowhere yet. *)
Lemma amo_register (fuel t : nat) (s : EnhancedAbortSignal) (h : heap)
    (r : nat) (h1 : heap) :
  t ∉ trace h -> unused (CbUser t) h ->
  EnhancedAbortSignal.register (invoke fuel) s (CbUser t) h = Some (r, h1) ->
  at_most_once t h1.
Proof.
  intros Hnot [Hno Hts]. unfold EnhancedAbortSignal.register.
  assert (Hzero : count_occ Nat.eq_dec (trace h) t = 0).
  { apply count_occ_not_In. by rewrite <- list_elem_of_In. }
  destruct (EnhancedAbortSignal.isAborted s h).
  - destruct fuel as [|fuel]; [discriminate|]. cbn [invoke mbind option_bind].
    intros [= _ <-]. constructor.
    + intros m i Hh. by destruct (Hno m i).
    + intros m i m' i' Hh. by destruct (Hno m i).
    + intros _ m i Hh. by destruct (Hno m i).
    + exact Hts.
    + cbn. rewrite count_occ_app, Hzero. cbn. by destruct (Nat.eq_dec t t).
  - intros [= _ <-].
    assert (Hkey : forall m j,
              holds (CbUser t)
                (Platform.addEventListener (abortSignal s) (CbUser t) true h).2 m j ->
              m = abortSignal s /\
              j = length (listeners (Platform.signal_at h (abortSignal s))) /\
              listeners (Platform.signal_at
                (Platform.addEventListener (abortSignal s) (CbUser t) true h).2 m) !!! j
                = attached (CbUser t)).
    { intros m j [Hr Hh].
      destruct (listener_addEventListener _ _ m j h Hr) as [Heq|Hnew]; [|done].
      destruct (Hno m j). unfold holds. by rewrite <- Heq. }
    constructor.
    + intros m i Hh. destruct (Hkey m i Hh) as (_ & _ & Heq).
      change (once (listeners (Platform.signal_at
                (Platform.addEventListener (abortSignal s) (CbUser t) true h).2 m) !!! i)
              = true).
      by rewrite Heq.
    + intros m i m' i' Hh Hh'.
      destruct (Hkey m i Hh) as (-> & -> & _).
      destruct (Hkey m' i' Hh') as (-> & -> & _). done.
    + intros Hin. by destruct Hnot.
    + exact Hts.
    + cbn. lia.
Qed.

(** X11: a callback runs at most once.  After [register(cb)] with a
    callback that was used nowhere before, on any signal (aborted or
    not) of any heap, no sequence of calls on the public interface (by
    a script that does not register the same callback again) and no
    passing of time makes it run a second time; and once it has run,
    no listener for it is left attached anywhere. *)
Theorem X11_callback_runs_at_most_once
    (fuel t : nat) (s : EnhancedAbortSignal) (ops : list Script.op)
    (h h1 h' : heap) (r : nat) :
  t ∉ trace h -> unused (CbUser t) h ->
  Forall (registers (fun cb => cb <> CbUser t)) ops ->
  EnhancedAbortSignal.register (invoke fuel) s (CbUser t) h = Some (r, h1) ->
  Script.exec_all fuel ops h1 = Script.Returned h' ->
  count_occ Nat.eq_dec (trace h') t <= 1 /\
  (t ∈ trace h' -> forall m i, ~ holds (CbUser t) h' m i).
Proof.
  intros Hnot Hun Hops Hreg Hrun.
  pose proof (amo_register fuel t s h r h1 Hnot Hun Hreg) as HP.
  by destruct (amo_exec_all t fuel ops h1 h' HP Hops Hrun) as [_ _ H3 _ H5].
Qed.

Lemma X11_witness :
  let h := (EnhancedAbortController.new Obj.empty).2 in
  let ops := [Script.OpAbort 0 VUndefined; Script.OpAbort 0 (VString "again");
              Script.OpTryReset 0; Script.OpAbort 0 VUndefined; Script.OpAwait 1] in
  exists h1 h',
    EnhancedAbortSignal.register (invoke 2) (EnhancedAbortSignal.new 0) (CbUser 7) h
      = Some (0, h1) /\
    Script.exec_all 2 ops h1 = Script.Returned h' /\
    trace h' = [7] /\
    count_occ Nat.eq_dec (trace h') 7 <= 1 /\
    (7 ∈ trace h' -> forall m i, ~ holds (CbUser 7) h' m i).
Proof.
  intros h ops.
  pose (h1 := match EnhancedAbortSignal.register (invoke 2) (EnhancedAbortSignal.new 0)
                      (CbUser 7) h with
              | Some (_, x) => x
              | None => Obj.empty
              end).
  pose (h' := match Script.exec_all 2 ops h1 with
              | Script.Returned x => x
              | _ => Obj.empty
              end).
  assert (Hreg : EnhancedAbortSignal.register (invoke 2) (EnhancedAbortSignal.new 0)
                   (CbUser 7) h = Some (0, h1)) by (vm_compute; reflexivity).
  assert (Hrun : Script.exec_all 2 ops h1 = Script.Returned h')
    by (vm_compute; reflexivity).
  exists h1, h'. split; [exact Hreg|]. split; [exact Hrun|].
  split; [vm_compute; reflexivity|].
  apply (X11_callback_runs_at_most_once 2 7 (EnhancedAbortSignal.new 0) ops h h1 h' 0);
    [| | |exact Hreg|exact Hrun].
  - apply not_elem_of_nil.
  - split; [|constructor]. intros m i [Hr _]. revert Hr.
    unfold Platform.signal_at. cbn. destruct m as [|[|m]]; by destruct i.
  - repeat constructor.
Defined.

(** ** The awaitable is fulfilled by the abort only *)

Section ResolvesOn.
Variable p n : nat.

Lemma ro_narrow (h h' : heap) :
  promises h' = promises h -> aborted_grows h h' ->
  (forall m j, holds (CbResolve p) h' m j -> holds (CbResolve p) h m j) ->
  timers h' = timers h ->
  resolves_on p n h -> resolves_on p n h'.
Proof.
  intros Hps Hg Hback Hts [H1 H2 H3 H4]. constructor.
  - by rewrite Hps.
  - unfold Platform.promise_state. rewrite Hps. intros Hf. by apply Hg, H2.
  - intros m i Hh. by apply (H3 m i), Hback.
  - by rewrite Hts.
Qed.

Lemma ro_ext (h h' : heap) :
  signals h' = signals h -> timers h' = timers h -> promises h' = promises h ->
  resolves_on p n h -> resolves_on p n h'.
Proof.
  intros Hs Hts Hps. apply ro_narrow; try done.
  - by apply aborted_grows_signals.
  - intros m j. unfold holds, Platform.signal_at. by rewrite Hs.
Qed.

Lemma holds_removeEventListener (cb : callback) (m' i m j : nat) (h : heap) :
  holds cb (Platform.removeEventListener m' i h) m j -> holds cb h m j.
Proof.
  intros [Hr Hh]. destruct (listener_removeEventListener m' i m j h Hr) as [Heq _].
  unfold holds. by rewrite <- Heq.
Qed.

Lemma holds_addEventListener (cb cb' : callback) (m' m j : nat) (h : heap) :
  cb' <> cb ->
  holds cb (Platform.addEventListener m' cb' true h).2 m j -> holds cb h m j.
Proof.
  intros Hne [Hr Hh].
  destruct (listener_addEventListener m' cb' m j h Hr) as [Heq|(_ & _ & Heq)].
  - unfold holds. by rewrite <- Heq.
  - rewrite Heq in Hh. cbn in Hh. congruence.
Qed.

Lemma aborted_addEventListener (m' : nat) (cb : callback) (m : nat) (h : heap) :
  Platform.aborted (Platform.addEventListener m' cb true h).2 m = Platform.aborted h m.
Proof.
  unfold Platform.aborted. cbn [Platform.addEventListener snd].
  rewrite signal_at_alter_signal. by case_decide as Hc; [destruct Hc as [-> _]|].
Qed.

Lemma aborted_grows_new_signal (h : heap) :
  aborted_grows h (Platform.new_AbortController h).2.
Proof.
  intros m Hm. pose proof (aborted_allocated h m Hm) as Hlt.
  unfold Platform.aborted, Platform.signal_at in *. cbn.
  by rewrite lookup_total_app_l.
Qed.

(** However the script goes on, [p] is fulfilled only if [n] is
    aborted. *)
Lemma ro_exec_all (fuel : nat) (ops : list Script.op) (h h' : heap) :
  resolves_on p n h -> Forall (registers (fun cb => cb <> CbResolve p)) ops ->
  Script.exec_all fuel ops h = Script.Returned h' -> resolves_on p n h'.
Proof.
  intros HP Hops Hrun.
  eapply (at_exec_all (resolves_on p n)
            (fun cb x => cb = CbResolve p -> Platform.aborted x n = true)
            (fun cb => cb <> CbResolve p)); [..|exact HP|exact Hops|exact Hrun].
  - intros x y Hs Hts _ Hps. by apply ro_ext.
  - intros x m i Hx Ha Hrem. cbv zeta.
    assert (HP1 : resolves_on p n
              (if once (listeners (Platform.signal_at x m) !!! i)
               then Platform.removeEventListener m i x else x)).
    { destruct (once _); [|done]. eapply ro_narrow; [..|exact Hx]; try done.
      - intros k Hk. by rewrite aborted_removeEventListener.
      - intros k j. apply holds_removeEventListener. }
    split; [done|]. intros Hh.
    assert (m = n) as -> by (by apply (ro_listeners _ _ _ Hx m i)).
    destruct (once _); [|done]. by rewrite aborted_removeEventListener.
  - intros x id [_ _ _ H4] Hp Heq.
    destruct (decide (id < length (timers x))) as [Hi|Hi].
    + by destruct (Forall_lookup_1 _ _ id _ H4 (list_lookup_lookup_total_lt _ _ Hi)).
    + rewrite list_lookup_total_alt, lookup_ge_None_2 in Hp by lia. discriminate.
  - intros id x [H1 H2 H3 H4]. constructor; try done.
    cbn. apply Forall_alter; [done|]. by intros y _ Hy.
  - intros tag x Hx _. by eapply ro_ext; [..|exact Hx].
  - intros q x [H1 H2 H3 H4] HR. constructor; try done.
    + cbn. by rewrite length_alter.
    + unfold Platform.promise_state, Platform.resolve. cbn.
      rewrite list_lookup_total_alter. case_decide as Hc; [|exact H2].
      destruct Hc as [-> _]. intros _. by apply HR.
  - intros m r x Hx Ha _. eapply ro_narrow; [..|exact Hx]; try done.
    + by apply aborted_grows_fire.
    + intros k j. unfold holds. by rewrite listeners_fire.
  - intros m i x Hx. eapply ro_narrow; [..|exact Hx]; try done.
    + intros k Hk. by rewrite aborted_removeEventListener.
    + intros k j. apply holds_removeEventListener.
  - intros m cb x Hx Hcb. eapply ro_narrow; [..|exact Hx]; try done.
    + intros k Hk. by rewrite aborted_addEventListener.
    + intros k j. by apply holds_addEventListener.
  - intros cb x _ Hcb Heq. congruence.
  - done.
  - done.
  - intros x [H1 _ _ _] [= Heq]. lia.
  - intros x Hx. eapply ro_narrow; [..|exact Hx]; try done.
    + apply aborted_grows_new_signal.
    + intros k j. unfold holds. by rewrite listeners_new_signal.
  - intros st x [H1 H2 H3 H4]. constructor; try done.
    + cbn. rewrite length_app. lia.
    + unfold Platform.promise_state. cbn. by rewrite lookup_total_app_l.
  - intros cb ms x [H1 H2 H3 H4] Hcb. constructor; try done.
    cbn. apply Forall_app_2; [done|]. by apply Forall_singleton.
Qed.
End ResolvesOn.

(** What [whenAborted] sets up, on a heap in which nothing refers to
    the promise that is about to be created. *)
Lemma ro_whenAborted (fuel : nat) (s : EnhancedAbortSignal) (h : heap)
    (p : nat) (h1 : heap) :
  unused (CbResolve (length (promises h))) h ->
  EnhancedAbortSignal.whenAborted (invoke fuel) s h = Some (p, h1) ->
  p = length (promises h) /\ resolves_on p (abortSignal s) h1.
Proof.
  intros [Hno Hts]. unfold EnhancedAbortSignal.whenAborted.
  destruct (EnhancedAbortSignal.isAborted s h) eqn:Ha.
  - intros [= <- <-]. split; [done|]. constructor.
    + cbn. rewrite length_app. cbn. lia.
    + intros _. exact Ha.
    + intros m i Hh. by destruct (Hno m i).
    + exact Hts.
  - cbn [Platform.new_Promise].
    set (h0 := with_promises (fun ps => ps ++ [Pending]) h).
    rewrite (register_live (invoke fuel) s _ h0) by exact Ha.
    cbn [mbind option_bind]. intros [= <- <-]. split; [done|]. constructor.
    + cbn. rewrite length_app. cbn. lia.
    + unfold Platform.promise_state. cbn. by rewrite list_lookup_total_middle.
    + intros m i Hh.
      change (holds (CbResolve (length (promises h)))
                (Platform.addEventListener (abortSignal s)
                   (CbResolve (length (promises h))) true h).2 m i) in Hh.
      destruct Hh as [Hr Hh].
      destruct (listener_addEventListener _ _ m i h Hr) as [Heq|(-> & _)]; [|done].
      destruct (Hno m i). unfold holds. by rewrite <- Heq.
    + exact Hts.
Qed.

(** X12: the promise [whenAborted] returns is fulfilled by the abort
    of its signal only.  Whatever is called afterwards (by a script
    that cannot reach the promise's private resolve function) and
    however much time passes, if the promise is fulfilled then the
    signal is aborted. *)
Theorem X12_whenAborted_fulfilled_only_if_aborted
    (fuel : nat) (s : EnhancedAbortSignal) (ops : list Script.op)
    (h h1 h' : heap) (p : nat) :
  unused (CbResolve (length (promises h))) h ->
  Forall (registers (fun cb => cb <> CbResolve (length (promises h)))) ops ->
  EnhancedAbortSignal.whenAborted (invoke fuel) s h = Some (p, h1) ->
  Script.exec_all fuel ops h1 = Script.Returned h' ->
  Platform.promise_state h' p = Fulfilled ->
  EnhancedAbortSignal.isAborted s h' = true.
Proof.
  intros Hun Hops Hwhen Hrun Hf.
  destruct (ro_whenAborted fuel s h p h1 Hun Hwhen) as [-> HP].
  destruct (ro_exec_all _ _ fuel ops h1 h' HP Hops Hrun) as [_ H2 _ _].
  by apply H2.
Qed.

Lemma X12_witness :
  let h := (EnhancedAbortController.new Obj.empty).2 in
  let ops := [Script.OpAbort 0 (VString "now"); Script.OpAwait 1] in
  exists h1 h',
    EnhancedAbortSignal.whenAborted (invoke 2) (EnhancedAbortSignal.new 0) h
      = Some (0, h1) /\
    Script.exec_all 2 ops h1 = Script.Returned h' /\
    Platform.promise_state h' 0 = Fulfilled /\
    EnhancedAbortSignal.isAborted (EnhancedAbortSignal.new 0) h' = true.
Proof.
  intros h ops.
  pose (h1 := match EnhancedAbortSignal.whenAborted (invoke 2)
                      (EnhancedAbortSignal.new 0) h with
              | Some (_, x) => x
              | None => Obj.empty
              end).
  pose (h' := match Script.exec_all 2 ops h1 with
              | Script.Returned x => x
              | _ => Obj.empty
              end).
  assert (Hwhen : EnhancedAbortSignal.whenAborted (invoke 2)
                    (EnhancedAbortSignal.new 0) h = Some (0, h1))
    by (vm_compute; reflexivity).
  assert (Hrun : Script.exec_all 2 ops h1 = Script.Returned h')
    by (vm_compute; reflexivity).
  assert (Hf : Platform.promise_state h' 0 = Fulfilled) by (vm_compute; reflexivity).
  exists h1, h'. split; [exact Hwhen|]. split; [exact Hrun|]. split; [exact Hf|].
  apply (X12_whenAborted_fulfilled_only_if_aborted 2 (EnhancedAbortSignal.new 0)
           ops h h1 h' 0); [| |exact Hwhen|exact Hrun|exact Hf].
  - split; [|constructor]. intros m i [Hr _]. revert Hr.
    unfold Platform.signal_at. cbn. destruct m as [|[|m]]; by destruct i.
  - repeat constructor.
Defined.

(** ** One deferred abort per controller, whatever is called *)

(** X13: a controller never has two deferred aborts pending.  On a
    heap where every pending deferred abort is the one its controller
    remembers (the empty heap, for one), after any sequence of calls
    on the public interface and any passing of time, two pending timers
    that would abort the same controller are the same timer, and it is
    the one the controller would cancel. *)
Theorem X13_one_deferred_abort_per_controller
    (fuel : nat) (ops : list Script.op) (h0 h : heap) :
  own_timers h0 ->
  Script.exec_all fuel ops h0 = Script.Returned h ->
  forall c id id',
    pending (timers h !!! id) = true ->
    timer_handler (timers h !!! id) = CbEnhancedAbort c ->
    pending (timers h !!! id') = true ->
    timer_handler (timers h !!! id') = CbEnhancedAbort c ->
    id = id' /\ timeoutId (EnhancedAbortController.get h c) = Some id.
Proof.
  intros Hown Hrun c id id' Hp Hh Hp' Hh'.
  pose proof (own_timers_exec_all fuel ops h0 h Hown Hrun) as Hown'.
  pose proof (Hown' id c Hp Hh) as Hs. pose proof (Hown' id' c Hp' Hh') as Hs'.
  split; [congruence|done].
Qed.

Lemma X13_witness :
  let ops := [Script.OpNew; Script.OpAbortAfter 0 5; Script.OpAbortAfter 0 9;
              Script.OpAwait 2; Script.OpAbortAfter 0 1] in
  exists h,
    Script.exec_all 2 ops Obj.empty = Script.Returned h /\
    forall c id id',
      pending (timers h !!! id) = true ->
      timer_handler (timers h !!! id) = CbEnhancedAbort c ->
      pending (timers h !!! id') = true ->
      timer_handler (timers h !!! id') = CbEnhancedAbort c ->
      id = id' /\ timeoutId (EnhancedAbortController.get h c) = Some id.
Proof.
  intros ops.
  pose (h := match Script.exec_all 2 ops Obj.empty with
             | Script.Returned x => x
             | _ => Obj.empty
             end).
  assert (Hrun : Script.exec_all 2 ops Obj.empty = Script.Returned h)
    by (vm_compute; reflexivity).
  exists h. split; [exact Hrun|].
  apply (X13_one_deferred_abort_per_controller 2 ops Obj.empty h); [|exact Hrun].
  intros id c Hp. by destruct id.
Defined.

(** ** The signal that is aborted from the start *)

(** X14: [EnhancedAbortSignal.aborted] returns, in any heap, a new
    signal that is aborted with the platform's default reason; the
    signals that existed, the timers and the trace are untouched.  On
    it [throwIfAborted] throws, [whenAborted] is a promise that is
    already fulfilled, and [register] runs the callback at once. *)
Theorem X14_aborted_signal
    (fuel : nat) (h : heap) (msg : option string) (t : nat) :
  exists s h1,
    EnhancedAbortSignal.aborted_ (invoke fuel) h = Some (s, h1) /\
    EnhancedAbortSignal.isAborted s h1 = true /\
    EnhancedAbortSignal.reason s h1 = VDOMException "AbortError" /\
    EnhancedAbortSignal.canBeAborted s = true /\
    (forall m, m < length (signals h) ->
       Platform.signal_at h1 m = Platform.signal_at h m) /\
    timers h1 = timers h /\ microtasks h1 = microtasks h /\ trace h1 = trace h /\
    EnhancedAbortSignal.throwIfAborted s msg h1 = inl (AbortError.new msg) /\
    (exists p h2,
       EnhancedAbortSignal.whenAborted (invoke fuel) s h1 = Some (p, h2) /\
       Platform.promise_state h2 p = Fulfilled) /\
    exists r h2,
      EnhancedAbortSignal.register (invoke (S fuel)) s (CbUser t) h1 = Some (r, h2) /\
      trace h2 = trace h ++ [t] /\ signals h2 = signals h1.
Proof.
  unfold EnhancedAbortSignal.aborted_. cbn [Platform.new_AbortController].
  set (N := length (signals h)).
  set (h0 := with_signals _ h).
  assert (Hat : Platform.signal_at h0 N = {| reason := VUndefined; listeners := [] |}).
  { unfold Platform.signal_at, h0, N. cbn. by rewrite list_lookup_total_middle. }
  assert (HN : N < length (signals h0)).
  { unfold h0. cbn. rewrite length_app. cbn. unfold N. lia. }
  unfold Platform.abort, Platform.aborted. rewrite Hat. cbn [reason].
  unfold Platform.dispatchEvent. rewrite signal_at_alter_signal_eq by done.
  rewrite Hat. cbn [listeners length seq Platform.inner_invoke mbind option_bind].
  set (h1 := Platform.alter_signal _ N h0).
  assert (Hat1 : Platform.signal_at h1 N =
            {| reason := VDOMException "AbortError"; listeners := [] |}).
  { unfold h1. rewrite signal_at_alter_signal_eq by done. by rewrite Hat. }
  assert (Ha1 : EnhancedAbortSignal.isAborted (EnhancedAbortSignal.new N) h1 = true).
  { unfold EnhancedAbortSignal.isAborted, Platform.aborted.
    cbn [abortSignal EnhancedAbortSignal.new]. by rewrite Hat1. }
  exists (EnhancedAbortSignal.new N), h1.
  split; [done|]. split; [done|]. split.
  { unfold EnhancedAbortSignal.reason. cbn [abortSignal EnhancedAbortSignal.new].
    by rewrite Hat1. }
  split; [done|]. split.
  { intros m Hm. unfold h1. rewrite signal_at_alter_signal_ne by (unfold N; lia).
    unfold Platform.signal_at, h0. cbn. by rewrite lookup_total_app_l. }
  split; [done|]. split; [done|]. split; [done|]. split.
  { unfold EnhancedAbortSignal.throwIfAborted. by rewrite Ha1. }
  split.
  { unfold EnhancedAbortSignal.whenAborted. rewrite Ha1. eexists _, _.
    split; [reflexivity|]. unfold Platform.promise_state. cbn.
    by rewrite list_lookup_total_middle. }
  unfold EnhancedAbortSignal.register. rewrite Ha1. cbn [invoke mbind option_bind].
  eexists _, _. split; [reflexivity|]. done.
Qed.

(** ** Abort cascades end

    An abort event can run closures that abort other signals, whose
    listeners abort others, and so on, possibly in a cycle.  Each
    nested dispatch starts by making a signal aborted that was not,
    so the nesting is never deeper than the number of signals that are
    not aborted yet. *)

Lemma filter_alter_same {B} (g : B -> bool) (f : B -> B) (l : list B) :
  (forall x, g (f x) = g x) ->
  forall i, length (List.filter g (alter f i l)) = length (List.filter g l).
Proof.
  intros Hf. induction l as [|a l IH]; intros [|i]; cbn; try done.
  - rewrite Hf. by destruct (g a).
  - destruct (g a); cbn; by rewrite IH.
Qed.

Lemma filter_alter_drop {B} (g : B -> bool) (f : B -> B) (l : list B) :
  forall i x, l !! i = Some x -> g x = true -> g (f x) = false ->
  S (length (List.filter g (alter f i l))) = length (List.filter g l).
Proof.
  induction l as [|a l IH]; intros [|i] x Hl Hx Hfx; cbn in *; try discriminate.
  - injection Hl as ->. by rewrite Hx, Hfx.
  - destruct (g a); cbn; by rewrite (IH i x).
Qed.

Lemma unaborted_signals (h h' : heap) :
  signals h' = signals h -> unaborted h' = unaborted h.
Proof. unfold unaborted. by intros ->. Qed.

Lemma unaborted_alter_listeners (f : AbortSignal -> AbortSignal) (n : nat) (h : heap) :
  (forall s, reason (f s) = reason s) ->
  unaborted (Platform.alter_signal f n h) = unaborted h.
Proof.
  intros Hf. unfold unaborted. cbn. apply filter_alter_same.
  intros s. unfold is_unaborted. by rewrite Hf.
Qed.

Lemma unaborted_removeEventListener (n i : nat) (h : heap) :
  unaborted (Platform.removeEventListener n i h) = unaborted h.
Proof. by apply unaborted_alter_listeners. Qed.

Lemma unaborted_fire (n : nat) (r : value) (h : heap) :
  Platform.aborted h n = false -> n < length (signals h) -> r <> VUndefined ->
  S (unaborted
       (Platform.alter_signal (fun s => {| reason := r; listeners := listeners s |}) n h))
  = unaborted h.
Proof.
  intros Ha Hn Hr. unfold unaborted. cbn.
  apply (filter_alter_drop _ _ _ n (Platform.signal_at h n)).
  - by apply list_lookup_lookup_total_lt.
  - unfold Platform.aborted, is_unaborted in *.
    by destruct (reason (Platform.signal_at h n)).
  - unfold is_unaborted. cbn. by destruct r.
Qed.

Lemma unaborted_new_signal (h : heap) :
  unaborted (Platform.new_AbortController h).2 = S (unaborted h).
Proof.
  unfold unaborted. cbn. rewrite List.filter_app, length_app. cbn. lia.
Qed.

Lemma inner_invoke_total (call : callback -> heap -> option heap) (F n : nat) :
  (forall cb h, unaborted h < F ->
     exists h', call cb h = Some h' /\ unaborted h' <= unaborted h) ->
  forall ids h, unaborted h < F ->
    exists h', Platform.inner_invoke call n ids h = Some h' /\
               unaborted h' <= unaborted h.
Proof.
  intros Hcall ids. induction ids as [|i rest IH]; intros h HF.
  - by exists h.
  - cbn [Platform.inner_invoke].
    destruct (removed (listeners (Platform.signal_at h n) !!! i)); [by apply IH|].
    set (l := listeners (Platform.signal_at h n) !!! i).
    set (h1 := if once l then Platform.removeEventListener n i h else h).
    assert (H1 : unaborted h1 = unaborted h).
    { unfold h1. destruct (once l); [|done]. apply unaborted_removeEventListener. }
    destruct (Hcall (handler l) h1) as (h2 & -> & Hle2); [lia|].
    destruct (IH h2) as (h' & -> & Hle'); [lia|].
    exists h'. split; [done|]. lia.
Qed.

Lemma platform_abort_total (call : callback -> heap -> option heap)
    (F n : nat) (r : value) (h : heap) :
  (forall cb h, unaborted h < F ->
     exists h', call cb h = Some h' /\ unaborted h' <= unaborted h) ->
  unaborted h < S F ->
  exists h', Platform.abort call n r h = Some h' /\ unaborted h' <= unaborted h.
Proof.
  intros Hcall HF. unfold Platform.abort.
  destruct (Platform.aborted h n) eqn:Ha; [by exists h|].
  unfold Platform.dispatchEvent.
  set (r' := match r with VUndefined => VDOMException "AbortError" | _ => r end).
  assert (Hr' : r' <> VUndefined) by (unfold r'; by destruct r).
  destruct (decide (n < length (signals h))) as [Hn|Hn].
  - pose proof (unaborted_fire n r' h Ha Hn Hr') as Hdrop.
    destruct (inner_invoke_total call F n Hcall
                (seq 0 (length (listeners (Platform.signal_at
                   (Platform.alter_signal
                      (fun s => {| reason := r'; listeners := listeners s |}) n h) n))))
                (Platform.alter_signal
                   (fun s => {| reason := r'; listeners := listeners s |}) n h))
      as (h' & Hrun & Hle); [lia|].
    exists h'. split; [exact Hrun|]. lia.
  - rewrite signal_at_alter_signal, decide_False by tauto.
    unfold Platform.signal_at at 1.
    rewrite list_lookup_total_alt, lookup_ge_None_2 by lia. cbn.
    eexists. split; [reflexivity|].
    unfold unaborted. cbn.
    rewrite (list_alter_ext _ id (signals h) (signals h)), list_alter_id; try done.
    intros x Hx. apply lookup_lt_Some in Hx. lia.
Qed.

Lemma controller_abort_total (call : callback -> heap -> option heap)
    (F c : nat) (r : value) (h : heap) :
  (forall cb h, unaborted h < F ->
     exists h', call cb h = Some h' /\ unaborted h' <= unaborted h) ->
  unaborted h < S F ->
  exists h', EnhancedAbortController.abort call c r h = Some h' /\
             unaborted h' <= unaborted h.
Proof.
  intros Hcall HF. unfold EnhancedAbortController.abort.
  destruct (disposed (EnhancedAbortController.get h c)); [by exists h|].
  pose proof (unaborted_signals h _ (clearTimeout_signals c h)) as H1.
  destruct (platform_abort_total call F
              (controller (EnhancedAbortController.get
                 (EnhancedAbortController.clearTimeout c h) c)) r
              (EnhancedAbortController.clearTimeout c h) Hcall)
    as (h' & Hrun & Hle); [lia|].
  exists h'. split; [exact Hrun|]. lia.
Qed.

(** A closure call returns if the fuel exceeds the number of signals
    that are not aborted; it never adds to that number. *)
Lemma invoke_total (fuel : nat) :
  forall cb h, unaborted h < fuel ->
    exists h', invoke fuel cb h = Some h' /\ unaborted h' <= unaborted h.
Proof.
  induction fuel as [|fuel IH]; intros cb h HF; [lia|].
  destruct cb; cbn [invoke].
  - eexists. split; [reflexivity|]. done.
  - eexists. split; [reflexivity|]. done.
  - by apply (platform_abort_total _ fuel).
  - by apply (controller_abort_total _ fuel).
Qed.

Lemma register_total (fuel : nat) (s : EnhancedAbortSignal) (cb : callback) (h : heap) :
  unaborted h < fuel ->
  exists r h', EnhancedAbortSignal.register (invoke fuel) s cb h = Some (r, h') /\
               unaborted h' <= unaborted h.
Proof.
  intros HF. unfold EnhancedAbortSignal.register.
  destruct (EnhancedAbortSignal.isAborted s h).
  - destruct (invoke_total fuel cb h HF) as (h1 & -> & Hle).
    cbn. eexists _, _. split; [reflexivity|]. exact Hle.
  - cbn. eexists _, _. split; [reflexivity|].
    apply Nat.eq_le_incl.
    exact (unaborted_alter_listeners
             (fun x => {| reason := reason x;
                          listeners := listeners x ++
                            [{| handler := cb; once := true; removed := false |}] |})
             (abortSignal s) h (fun _ => eq_refl)).
Qed.

Lemma register_each_total (fuel : nat) (cb : callback)
    (ss : list EnhancedAbortSignal) :
  forall h, unaborted h < fuel ->
    exists h', EnhancedAbortSignal.register_each (invoke fuel) ss cb h = Some h' /\
               unaborted h' <= unaborted h.
Proof.
  induction ss as [|s rest IH]; intros h HF.
  - by exists h.
  - cbn [EnhancedAbortSignal.register_each].
    destruct (register_total fuel s cb h HF) as (r & h1 & -> & Hle1).
    cbn. destruct (IH h1) as (h' & -> & Hle'); [lia|].
    exists h'. split; [done|]. lia.
Qed.

Lemma unaborted_unregister (r : nat) (h : heap) :
  unaborted (Registration.unregister r h) = unaborted h.
Proof.
  rewrite unregister_unfold.
  destruct (AbortRegistration.disposed (Registration.get h r)); [done|].
  destruct (AbortRegistration.unregisterCallback (Registration.get h r)) as [[|n i]|];
    try done.
  apply unaborted_removeEventListener.
Qed.

Lemma unaborted_run_microtasks (h : heap) :
  unaborted (EventLoop.run_microtasks h) = unaborted h.
Proof.
  unfold EventLoop.run_microtasks.
  assert (Hfold : forall js h0,
            unaborted (fold_left (fun h' j => EventLoop.run_job j h') js h0)
              = unaborted h0).
  { induction js as [|[r] js IH]; intros h0; [done|].
    cbn. rewrite IH. apply unaborted_unregister. }
  exact (Hfold (microtasks h) h).
Qed.

Lemma run_timers_total (fuel : nat) (ids : list nat) :
  forall h, unaborted h < fuel ->
    exists h', EventLoop.run_timers (invoke fuel) ids h = Some h' /\
               unaborted h' <= unaborted h.
Proof.
  induction ids as [|id rest IH]; intros h HF.
  - by exists h.
  - cbn [EventLoop.run_timers].
    destruct (pending (timers h !!! id) && (due (timers h !!! id) <=? now h));
      [|by apply IH].
    destruct (invoke_total fuel (timer_handler (timers h !!! id))
                (Platform.clearTimeout id h)) as (h1 & -> & Hle1); [done|].
    pose proof (unaborted_run_microtasks h1) as Hm.
    destruct (IH (EventLoop.run_microtasks h1)) as (h' & -> & Hle');
      [change (unaborted (Platform.clearTimeout id h)) with (unaborted h) in Hle1; lia|].
    exists h'. split; [done|].
    change (unaborted (Platform.clearTimeout id h)) with (unaborted h) in Hle1. lia.
Qed.

Lemma advance_total (fuel ms : nat) :
  forall h, unaborted h < fuel ->
    exists h', EventLoop.advance (invoke fuel) ms h = Some h' /\
               unaborted h' <= unaborted h.
Proof.
  induction ms as [|ms IH]; intros h HF; cbn [EventLoop.advance];
    unfold EventLoop.turn.
  - pose proof (unaborted_run_microtasks h) as Hm.
    destruct (run_timers_total fuel
                (seq 0 (length (timers (EventLoop.run_microtasks h))))
                (EventLoop.run_microtasks h)) as (h' & -> & Hle); [lia|].
    exists h'. split; [done|]. lia.
  - pose proof (unaborted_run_microtasks h) as Hm.
    destruct (run_timers_total fuel
                (seq 0 (length (timers (EventLoop.run_microtasks h))))
                (EventLoop.run_microtasks h)) as (h1 & -> & Hle1); [lia|].
    cbn [mbind option_bind].
    destruct (IH (with_now S h1)) as (h' & -> & Hle');
      [change (unaborted (with_now S h1)) with (unaborted h1); lia|].
    exists h'. split; [done|].
    change (unaborted (with_now S h1)) with (unaborted h1) in Hle'. lia.
Qed.

Lemma unaborted_new (h : heap) :
  unaborted (EnhancedAbortController.new h).2 = S (unaborted h).
Proof. exact (unaborted_new_signal h). Qed.

Lemma unaborted_abortAfter (c ms : nat) (h : heap) :
  unaborted (EnhancedAbortController.abortAfter c ms h) = unaborted h.
Proof.
  apply unaborted_signals. unfold EnhancedAbortController.abortAfter.
  destruct (disposed (EnhancedAbortController.get h c)); [done|].
  cbn. apply clearTimeout_signals.
Qed.

Lemma unaborted_dispose (c : nat) (h : heap) :
  unaborted (EnhancedAbortController.dispose c h) = unaborted h.
Proof.
  apply unaborted_signals. unfold EnhancedAbortController.dispose.
  destruct (disposed (EnhancedAbortController.get h c)); [done|].
  by rewrite clearTimeout_signals.
Qed.

Lemma unaborted_tryReset (c : nat) (h : heap) :
  unaborted (EnhancedAbortController.tryReset c h).2 <= S (unaborted h).
Proof.
  unfold EnhancedAbortController.tryReset.
  destruct (disposed (EnhancedAbortController.get h c)); [cbn; lia|].
  cbn [Platform.new_AbortController snd].
  change (unaborted (EnhancedAbortController.alter_controller ?f c ?x))
    with (unaborted x).
  pose proof (unaborted_new_signal (EnhancedAbortController.clearTimeout c h)) as Hn.
  cbn [Platform.new_AbortController snd] in Hn. rewrite Hn.
  by rewrite (unaborted_signals h _ (clearTimeout_signals c h)).
Qed.

Lemma linkSignals_total (fuel : nat) (ss : list EnhancedAbortSignal) (h : heap) :
  S (unaborted h) < fuel ->
  exists c h', EnhancedAbortController.linkSignals (invoke fuel) ss h = Some (c, h') /\
               unaborted h' <= S (unaborted h).
Proof.
  intros HF. unfold EnhancedAbortController.linkSignals.
  pose proof (unaborted_new h) as Hn.
  destruct (EnhancedAbortController.new h) as [c h1]. cbn [snd] in Hn.
  destruct (register_each_total fuel (CbEnhancedAbort c) ss h1) as (h' & -> & Hle);
    [lia|].
  cbn. eexists _, _. split; [reflexivity|]. lia.
Qed.

(** A call on the public interface returns or throws if the fuel
    exceeds the number of unaborted signals by two. *)
Lemma exec_total (fuel : nat) (o : Script.op) (h : heap) :
  S (unaborted h) < fuel ->
  match Script.exec fuel o h with
  | Script.Returned h1 => unaborted h1 <= S (unaborted h)
  | Script.Threw _ _ => True
  | Script.OutOfFuel => False
  end.
Proof.
  intros HF. destruct o; cbn [Script.exec]; unfold Script.returned.
  - by rewrite unaborted_new.
  - destruct (controller_abort_total (invoke fuel) fuel c r h (invoke_total fuel))
      as (h' & -> & Hle); lia.
  - rewrite unaborted_abortAfter. lia.
  - unfold EnhancedAbortController.abortAfterTimeSpan. rewrite unaborted_abortAfter. lia.
  - rewrite unaborted_dispose. lia.
  - apply unaborted_tryReset.
  - destruct (linkSignals_total fuel ss h HF) as (c & h' & -> & Hle). exact Hle.
  - unfold EnhancedAbortController.createLinkedController.
    destruct (linkSignals_total fuel ss h HF) as (c & h' & -> & Hle). exact Hle.
  - unfold EnhancedAbortController.timeout.
    pose proof (unaborted_new h) as Hn.
    destruct (EnhancedAbortController.new h) as [c h1]. cbn [snd] in *.
    rewrite unaborted_abortAfter. lia.
  - destruct (register_total fuel s cb h) as (r & h' & -> & Hle); [lia|]. cbn -[unaborted]. lia.
  - destruct (EnhancedAbortSignal.isAborted s h) eqn:Ha.
    + unfold EnhancedAbortSignal.register_throwing. rewrite Ha.
      destruct (invoke_total fuel (CbUser tag) h) as (h1 & -> & _); [lia|]. done.
    + rewrite register_throwing_live by done.
      destruct (register_total fuel s (CbUser tag) h) as (r & h' & -> & Hle); [lia|].
      cbn -[unaborted]. lia.
  - unfold EnhancedAbortSignal.whenAborted.
    destruct (EnhancedAbortSignal.isAborted s h);
      [exact (Nat.le_succ_diag_r (unaborted h))|].
    cbn [Platform.new_Promise].
    destruct (register_total fuel s (CbResolve (length (promises h)))
                (with_promises (fun ps => ps ++ [Pending]) h))
      as (r & h' & -> & Hle); [exact (Nat.lt_trans _ _ _ (Nat.lt_succ_diag_r _) HF)|].
    cbn -[unaborted]. change (unaborted (with_promises ?f h)) with (unaborted h) in Hle.
    change (unaborted (Platform.queueMicrotask ?j h')) with (unaborted h'). lia.
  - destruct (EnhancedAbortSignal.throwIfAborted s customMessage h); [done|lia].
  - exact (Nat.eq_le_incl _ _ (unaborted_new_signal h)).
  - unfold EnhancedAbortSignal.aborted_. cbn [Platform.new_AbortController].
    pose proof (unaborted_new_signal h) as Hn. cbn [Platform.new_AbortController snd] in Hn.
    destruct (platform_abort_total (invoke fuel) fuel (length (signals h)) VUndefined
                (with_signals
                   (fun ss => ss ++ [{| reason := VUndefined; listeners := [] |}]) h)
                (invoke_total fuel)) as (h' & -> & Hle); [lia|].
    cbn -[unaborted]. lia.
  - exact (Nat.eq_le_incl _ _ (unaborted_new_signal h)).
  - unfold EnhancedAbortSignal.any. cbn [Platform.new_AbortController].
    pose proof (unaborted_new_signal h) as Hn. cbn [Platform.new_AbortController snd] in Hn.
    destruct (register_each_total fuel (CbNativeAbort (length (signals h))) ss
                (with_signals
                   (fun ss => ss ++ [{| reason := VUndefined; listeners := [] |}]) h))
      as (h' & -> & Hle); [lia|].
    cbn -[unaborted]. lia.
  - rewrite unaborted_unregister. lia.
  - rewrite dispose_unregister, unaborted_unregister. lia.
  - destruct (advance_total fuel ms h) as (h' & -> & Hle); lia.
Qed.

(** X15: abort cascades end.  A closure call (a callback, a linking
    closure, a deferred abort) returns as soon as the fuel exceeds the
    number of signals that are not aborted, however the signals are
    linked, cycles included; and a script of [k] calls on the public
    interface never runs out of fuel when the fuel exceeds that number
    by [k]: every call returns or throws. *)
Theorem X15_abort_cascades_end (fuel : nat) (ops : list Script.op) (h : heap) :
  unaborted h + length ops < fuel ->
  (forall cb, exists h', invoke fuel cb h = Some h' /\ unaborted h' <= unaborted h) /\
  Script.exec_all fuel ops h <> Script.OutOfFuel.
Proof.
  intros HF. split.
  - intros cb. apply invoke_total. lia.
  - revert h HF. induction ops as [|o rest IH]; intros h HF; [done|].
    cbn [Script.exec_all length] in *.
    pose proof (exec_total fuel o h) as He.
    destruct (Script.exec fuel o h) as [h1|e|]; [|done|exfalso; apply He; lia].
    apply IH. specialize (He ltac:(lia)). lia.
Qed.

Lemma X15_witness :
  let ops := [Script.OpNew;
              Script.OpLinkSignals [EnhancedAbortSignal.new 0];
              Script.OpRegister (EnhancedAbortSignal.new 1) (CbEnhancedAbort 0);
              Script.OpAbort 0 (VString "cycle")] in
  (forall cb, exists h', invoke 5 cb Obj.empty = Some h' /\
                         unaborted h' <= unaborted Obj.empty) /\
  Script.exec_all 5 ops Obj.empty <> Script.OutOfFuel.
Proof.
  intros ops. apply (X15_abort_cascades_end 5 ops Obj.empty). cbn. lia.
Defined.

(** ** A controller and its signal agree *)

Lemma in_sync_exec_all (fuel : nat) (ops : list Script.op) (h h' : heap) :
  in_sync h -> Script.exec_all fuel ops h = Script.Returned h' -> in_sync h'.
Proof.
  intros HP Hrun.
  assert (Hslot : forall f c x,
            (forall o, controller (f o) = controller o) ->
            (forall o, _signal (f o) = _signal o) ->
            in_sync x -> in_sync (EnhancedAbortController.alter_controller f c x)).
  { intros f c x Hc Hs Hx c'. rewrite get_alter_controller.
    case_decide; [|apply Hx]. rewrite Hc, Hs. apply Hx. }
  assert (Hpush : forall x m, in_sync x ->
            in_sync (with_controllers (fun cs => cs ++ [live_controller m]) x)).
  { intros x m Hx c. unfold EnhancedAbortController.get. cbn.
    destruct (decide (c < length (controllers x))) as [Hlt|Hge].
    - rewrite lookup_total_app_l by done. apply Hx.
    - rewrite lookup_total_app_r by lia.
      by destruct (c - length (controllers x)) as [|[|k]]. }
  eapply (frame_exec_all in_sync (fun _ => True) (fun _ => True));
    [..|exact HP| |exact Hrun].
  - intros x y _ Hcs _ _ Hx c. unfold EnhancedAbortController.get. rewrite Hcs. apply Hx.
  - done.
  - done.
  - intros tag x Hx _. exact Hx.
  - intros m i x Hx. exact Hx.
  - intros m cb x Hx _. exact Hx.
  - intros m r x Hx _ _ _. exact Hx.
  - done.
  - done.
  - done.
  - done.
  - done.
  - intros x Hx. exact Hx.
  - intros x Hx. by apply (Hpush (Platform.new_AbortController x).2).
  - intros c x Hx. unfold EnhancedAbortController.tryReset.
    destruct (disposed (EnhancedAbortController.get x c)); [done|].
    cbn [Platform.new_AbortController snd]. intros c'. rewrite get_alter_controller.
    case_decide; [done|].
    change (EnhancedAbortController.get (with_signals ?f ?y) c')
      with (EnhancedAbortController.get y c').
    unfold EnhancedAbortController.clearTimeout.
    destruct (timeoutId (EnhancedAbortController.get x c)); [|apply Hx].
    by apply (Hslot _ c (Platform.clearTimeout _ x)).
  - intros f c x Hc Hs _ Hx. by apply Hslot.
  - intros id x Hx. exact Hx.
  - intros cb ms x Hx _. exact Hx.
  - apply Forall_forall. intros o _. by destruct o.
Qed.

(** X16: a controller and its signal always agree.  The constructor
    and [tryReset] keep the signal object on the controller's own
    native signal, so after any sequence of calls and any passing of
    time, [controller.isAborted] and [controller.reason] are what
    [controller.signal] (equally [controller.token]) reports. *)
Theorem X16_controller_agrees_with_signal
    (fuel : nat) (ops : list Script.op) (h0 h : heap) :
  in_sync h0 ->
  Script.exec_all fuel ops h0 = Script.Returned h ->
  forall c,
    EnhancedAbortController.isAborted c h =
      EnhancedAbortSignal.isAborted (EnhancedAbortController.signal c h) h /\
    EnhancedAbortController.isAborted c h =
      EnhancedAbortSignal.aborted (EnhancedAbortController.token c h) h /\
    EnhancedAbortController.reason c h =
      EnhancedAbortSignal.reason (EnhancedAbortController.signal c h) h.
Proof.
  intros Hs Hrun c. pose proof (in_sync_exec_all fuel ops h0 h Hs Hrun c) as Hc.
  unfold EnhancedAbortController.isAborted, EnhancedAbortController.reason,
    EnhancedAbortSignal.isAborted, EnhancedAbortSignal.aborted,
    EnhancedAbortSignal.reason, EnhancedAbortController.signal,
    EnhancedAbortController.token.
  by rewrite Hc.
Qed.

Lemma X16_witness :
  let ops := [Script.OpNew; Script.OpAbort 0 (VNumber 4); Script.OpTryReset 0;
              Script.OpAbortAfter 0 1; Script.OpAwait 1] in
  exists h,
    Script.exec_all 2 ops Obj.empty = Script.Returned h /\
    forall c,
      EnhancedAbortController.isAborted c h =
        EnhancedAbortSignal.isAborted (EnhancedAbortController.signal c h) h /\
      EnhancedAbortController.isAborted c h =
        EnhancedAbortSignal.aborted (EnhancedAbortController.token c h) h /\
      EnhancedAbortController.reason c h =
        EnhancedAbortSignal.reason (EnhancedAbortController.signal c h) h.
Proof.
  intros ops.
  pose (h := match Script.exec_all 2 ops Obj.empty with
             | Script.Returned x => x
             | _ => Obj.empty
             end).
  assert (Hrun : Script.exec_all 2 ops Obj.empty = Script.Returned h)
    by (vm_compute; reflexivity).
  exists h. split; [exact Hrun|].
  apply (X16_controller_agrees_with_signal 2 ops Obj.empty h); [|exact Hrun].
  intros c. by destruct c.
Defined.

(** ** The awaitable after the first checkpoint *)

Section Unresolvable.
Variable p : nat.

Lemma ur_narrow (h h' : heap) :
  promises h' = promises h ->
  (forall m j, holds (CbResolve p) h' m j -> holds (CbResolve p) h m j) ->
  timers h' = timers h ->
  unresolvable p h -> unresolvable p h'.
Proof.
  intros Hps Hback Hts [H1 H2 [H3 H4]]. constructor.
  - by rewrite Hps.
  - unfold Platform.promise_state. by rewrite Hps.
  - split; [|by rewrite Hts]. intros m j Hh. by apply (H3 m j), Hback.
Qed.

Lemma ur_exec_all (fuel : nat) (ops : list Script.op) (h h' : heap) :
  unresolvable p h -> Forall (registers (fun cb => cb <> CbResolve p)) ops ->
  Script.exec_all fuel ops h = Script.Returned h' -> unresolvable p h'.
Proof.
  intros HP Hops Hrun.
  eapply (at_exec_all (unresolvable p)
            (fun cb _ => cb <> CbResolve p)
            (fun cb => cb <> CbResolve p)); [..|exact HP|exact Hops|exact Hrun].
  - intros x y Hs Hts _ Hps. apply ur_narrow; try done.
    intros m j. unfold holds, Platform.signal_at. by rewrite Hs.
  - intros x m i Hx _ Hrem. cbv zeta. split.
    + destruct (once _); [|done]. eapply ur_narrow; [..|exact Hx]; try done.
      intros k j. apply holds_removeEventListener.
    + intros Hh. destruct Hx as [_ _ [H3 _]]. by apply (H3 m i).
  - intros x id [_ _ [_ H4]] Hp.
    destruct (decide (id < length (timers x))) as [Hi|Hi].
    + exact (Forall_lookup_1 _ _ id _ H4 (list_lookup_lookup_total_lt _ _ Hi)).
    + rewrite list_lookup_total_alt, lookup_ge_None_2 in Hp by lia. discriminate.
  - intros id x [H1 H2 [H3 H4]]. constructor; try done. split; [done|].
    cbn. apply Forall_alter; [done|]. by intros y _ Hy.
  - intros tag x Hx _. by eapply ur_narrow; [..|exact Hx].
  - intros q x [H1 H2 [H3 H4]] HR. constructor; try done.
    + cbn. by rewrite length_alter.
    + unfold Platform.promise_state, Platform.resolve. cbn.
      rewrite list_lookup_total_alter. case_decide as Hc; [|exact H2].
      destruct Hc as [-> _]. by destruct HR.
  - intros m r x Hx _ _. eapply ur_narrow; [..|exact Hx]; try done.
    intros k j. unfold holds. by rewrite listeners_fire.
  - intros m i x Hx. eapply ur_narrow; [..|exact Hx]; try done.
    intros k j. apply holds_removeEventListener.
  - intros m cb x Hx Hcb. eapply ur_narrow; [..|exact Hx]; try done.
    intros k j. by apply holds_addEventListener.
  - done.
  - done.
  - done.
  - intros x [H1 _ _] [= Heq]. lia.
  - intros x Hx. eapply ur_narrow; [..|exact Hx]; try done.
    intros k j. unfold holds. by rewrite listeners_new_signal.
  - intros st x [H1 H2 [H3 H4]]. constructor; try done.
    + cbn. rewrite length_app. lia.
    + unfold Platform.promise_state. cbn. by rewrite lookup_total_app_l.
  - intros cb ms x [H1 H2 [H3 H4]] Hcb. constructor; try done. split; [done|].
    cbn. apply Forall_app_2; [done|]. by apply Forall_singleton.
Qed.
End Unresolvable.

(** Giving control to the event loop starts with a microtask
    checkpoint. *)
Lemma advance_after_checkpoint (call : callback -> heap -> option heap)
    (ms : nat) (h : heap) :
  EventLoop.advance call ms h = EventLoop.advance call ms (EventLoop.run_microtasks h).
Proof.
  destruct ms; cbn [EventLoop.advance]; unfold EventLoop.turn;
    by rewrite (run_microtasks_idle (EventLoop.run_microtasks h)).
Qed.

(** On a signal that is not aborted, the first checkpoint after
    [whenAborted] removes the resolving listener. *)
Lemma ur_whenAborted (fuel : nat) (s : EnhancedAbortSignal) (h : heap)
    (p : nat) (h1 : heap) :
  unused (CbResolve (length (promises h))) h ->
  EnhancedAbortSignal.isAborted s h = false ->
  microtasks h = [] ->
  EnhancedAbortSignal.whenAborted (invoke fuel) s h = Some (p, h1) ->
  p = length (promises h) /\ unresolvable p (EventLoop.run_microtasks h1).
Proof.
  intros [Hno Hts] Ha Hm. unfold EnhancedAbortSignal.whenAborted. rewrite Ha.
  cbn [Platform.new_Promise].
  set (h0 := with_promises (fun ps => ps ++ [Pending]) h).
  rewrite (register_live (invoke fuel) s _ h0) by exact Ha.
  cbn [mbind option_bind]. intros [= <- <-]. split; [done|].
  set (P := length (promises h)).
  set (L := length (listeners (Platform.signal_at h0 (abortSignal s)))).
  set (hadd := Platform.alter_signal _ (abortSignal s) h0).
  set (h2 := with_registrations _ hadd).
  unfold EventLoop.run_microtasks, Platform.queueMicrotask.
  cbn [microtasks with_microtasks with_registrations Platform.alter_signal with_signals
         with_promises h2 hadd h0].
  rewrite Hm. cbn [app fold_left EventLoop.run_job].
  rewrite unregister_unfold. unfold Registration.get.
  cbn [registrations with_microtasks with_registrations Platform.alter_signal with_signals
         with_promises h2 hadd h0].
  rewrite list_lookup_total_middle by reflexivity.
  cbn [AbortRegistration.disposed AbortRegistration.unregisterCallback AbortRegistration.new
         Registration.run_unregister_callback].
  constructor.
  - cbn. rewrite length_app. cbn. lia.
  - unfold Platform.promise_state. cbn. by rewrite list_lookup_total_middle.
  - split; [|exact Hts]. intros m j Hh.
    change (holds (CbResolve P)
              (Platform.removeEventListener (abortSignal s) L
                 (Platform.addEventListener (abortSignal s) (CbResolve P) true h).2)
              m j) in Hh.
    destruct Hh as [Hr Hh].
    destruct (listener_removeEventListener _ _ m j _ Hr) as [Heq Hne].
    rewrite Heq in Hr, Hh.
    destruct (listener_addEventListener _ _ m j h Hr) as [Heq'|(-> & -> & _)].
    + destruct (Hno m j). unfold holds. by rewrite <- Heq'.
    + by apply Hne.
Qed.

(** X17: how far the missed resolution goes.  If [whenAborted] is
    read while the signal is not aborted and the caller then gives
    control to the event loop, for any time at all, the promise stays
    pending for ever: whatever is called afterwards, an abort of the
    signal included, never fulfils it. *)
Theorem X17_whenAborted_pending_for_ever
    (fuel : nat) (s : EnhancedAbortSignal) (ms : nat) (ops : list Script.op)
    (h h1 h' : heap) (p : nat) :
  unused (CbResolve (length (promises h))) h ->
  EnhancedAbortSignal.isAborted s h = false ->
  microtasks h = [] ->
  Forall (registers (fun cb => cb <> CbResolve (length (promises h)))) ops ->
  EnhancedAbortSignal.whenAborted (invoke fuel) s h = Some (p, h1) ->
  Script.exec_all fuel (Script.OpAwait ms :: ops) h1 = Script.Returned h' ->
  Platform.promise_state h' p = Pending.
Proof.
  intros Hun Ha Hm Hops Hwhen Hrun.
  destruct (ur_whenAborted fuel s h p h1 Hun Ha Hm Hwhen) as [-> HP].
  cbn [Script.exec_all Script.exec] in Hrun.
  rewrite advance_after_checkpoint in Hrun.
  change (Script.exec_all fuel (Script.OpAwait ms :: ops) (EventLoop.run_microtasks h1)
            = Script.Returned h') in Hrun.
  eapply ur_pending, (ur_exec_all _ fuel (Script.OpAwait ms :: ops)); [exact HP| |exact Hrun].
  by constructor.
Qed.

Lemma X17_witness :
  let h := (EnhancedAbortController.new Obj.empty).2 in
  let ops := [Script.OpAbort 0 (VString "late"); Script.OpAwait 5] in
  exists h1 h',
    EnhancedAbortSignal.whenAborted (invoke 2) (EnhancedAbortSignal.new 0) h
      = Some (0, h1) /\
    Script.exec_all 2 (Script.OpAwait 0 :: ops) h1 = Script.Returned h' /\
    EnhancedAbortSignal.isAborted (EnhancedAbortSignal.new 0) h' = true /\
    Platform.promise_state h' 0 = Pending.
Proof.
  intros h ops.
  pose (h1 := match EnhancedAbortSignal.whenAborted (invoke 2)
                      (EnhancedAbortSignal.new 0) h with
              | Some (_, x) => x
              | None => Obj.empty
              end).
  pose (h' := match Script.exec_all 2 (Script.OpAwait 0 :: ops) h1 with
              | Script.Returned x => x
              | _ => Obj.empty
              end).
  assert (Hwhen : EnhancedAbortSignal.whenAborted (invoke 2)
                    (EnhancedAbortSignal.new 0) h = Some (0, h1))
    by (vm_compute; reflexivity).
  assert (Hrun : Script.exec_all 2 (Script.OpAwait 0 :: ops) h1 = Script.Returned h')
    by (vm_compute; reflexivity).
  exists h1, h'. split; [exact Hwhen|]. split; [exact Hrun|].
  split; [vm_compute; reflexivity|].
  apply (X17_whenAborted_pending_for_ever 2 (EnhancedAbortSignal.new 0) 0 ops h h1 h' 0);
    [| | | |exact Hwhen|exact Hrun].
  - split; [|constructor]. intros m i [Hr _]. revert Hr.
    unfold Platform.signal_at. cbn. destruct m as [|[|m]]; by destruct i.
  - vm_compute. reflexivity.
  - reflexivity.
  - repeat constructor.
Defined.
